(** * First-person locomotion, collision and selection engine

    A shallow embedding of [FirstPersonControls] (the component that follows
    the Enoki wallet registration in [src/components/RegisterEnokiWallets.tsx])
    and of the teleport handler of [src/components/game/Minimap.tsx].

    JavaScript numbers are idealised as real numbers: every arithmetic
    operation of the source is the exact operation on [R], so rounding,
    infinities and NaN are outside the model.  The React refs and the
    camera object become the fields of one record that every handler
    threads explicitly. *)

From Stdlib Require Import Reals Lra Lia ZArith List Bool String.
From Stdlib Require Import Zfloor Sorted.
Import ListNotations.
Open Scope R_scope.

(** ** Comparisons and numeric helpers of the host language *)

Definition Rleb (a b : R) : bool := if Rle_dec a b then true else false.
Definition Rltb (a b : R) : bool := if Rlt_dec a b then true else false.
Definition Rgeb (a b : R) : bool := Rleb b a.
Definition Rgtb (a b : R) : bool := Rltb b a.
Definition Reqb (a b : R) : bool := if Req_dec_T a b then true else false.

(** [Math.round]: the nearest integer, halves rounded towards +infinity. *)
Definition Math_round (x : R) : Z := Zfloor (x + 1 / 2).

(** [Math.atan2] on reals (signed zeros do not exist in the model). *)
Definition Math_atan2 (y x : R) : R :=
  if Rltb 0 x then atan (y / x)
  else if Rltb x 0 then
         (if Rleb 0 y then atan (y / x) + PI else atan (y / x) - PI)
  else if Rltb 0 y then PI / 2
  else if Rltb y 0 then - (PI / 2)
  else 0.

Definition clamp (v lo hi : R) : R := Rmax lo (Rmin hi v).

(** ** The parts of three.js the component calls *)

Module THREE.

Record Vector3 : Type := mkVector3 { vx : R; vy : R; vz : R }.

Record Quaternion : Type := mkQuaternion { qx : R; qy : R; qz : R; qw : R }.

(** Only the two rotation orders that occur in the component: the default
    ['XYZ'] of [new THREE.Euler()] and of [camera.rotation], and the
    ['YXZ'] of the scratch [euler] ref. *)
Inductive EulerOrder : Type := XYZ | YXZ.

Record Euler : Type := mkEuler { ex : R; ey : R; ez : R; eorder : EulerOrder }.

Record Box3 : Type := mkBox3 { bmin : Vector3; bmax : Vector3 }.

(** [new THREE.Vector3()], [new THREE.Euler()] *)
Definition Vector3_zero : Vector3 := mkVector3 0 0 0.
Definition Euler_default : Euler := mkEuler 0 0 0 XYZ.

Definition add (a b : Vector3) : Vector3 :=
  mkVector3 (vx a + vx b) (vy a + vy b) (vz a + vz b).

Definition multiplyScalar (a : Vector3) (k : R) : Vector3 :=
  mkVector3 (vx a * k) (vy a * k) (vz a * k).

Definition length (a : Vector3) : R :=
  sqrt (vx a * vx a + vy a * vy a + vz a * vz a).

(** [normalize()] is [divideScalar(length() || 1)]. *)
Definition normalize (a : Vector3) : Vector3 :=
  let l := length a in
  let d := if Reqb l 0 then 1 else l in
  multiplyScalar a (1 / d).

(** [this.lerp(v, alpha)]: each component moves by [(v - this) * alpha]. *)
Definition lerp (a v : Vector3) (alpha : R) : Vector3 :=
  mkVector3 (vx a + (vx v - vx a) * alpha)
            (vy a + (vy v - vy a) * alpha)
            (vz a + (vz v - vz a) * alpha).

(** [Quaternion.setFromEuler] *)
Definition setFromEuler (e : Euler) : Quaternion :=
  let c1 := cos (ex e / 2) in
  let c2 := cos (ey e / 2) in
  let c3 := cos (ez e / 2) in
  let s1 := sin (ex e / 2) in
  let s2 := sin (ey e / 2) in
  let s3 := sin (ez e / 2) in
  match eorder e with
  | XYZ => mkQuaternion (s1 * c2 * c3 + c1 * s2 * s3)
                        (c1 * s2 * c3 - s1 * c2 * s3)
                        (c1 * c2 * s3 + s1 * s2 * c3)
                        (c1 * c2 * c3 - s1 * s2 * s3)
  | YXZ => mkQuaternion (s1 * c2 * c3 + c1 * s2 * s3)
                        (c1 * s2 * c3 - s1 * c2 * s3)
                        (c1 * c2 * s3 - s1 * s2 * c3)
                        (c1 * c2 * c3 + s1 * s2 * s3)
  end.

(** [Vector3.applyQuaternion]: [v + w*t + q x t] with [t = 2 (q x v)]. *)
Definition applyQuaternion (v : Vector3) (q : Quaternion) : Vector3 :=
  let tx := 2 * (qy q * vz v - qz q * vy v) in
  let ty := 2 * (qz q * vx v - qx q * vz v) in
  let tz := 2 * (qx q * vy v - qy q * vx v) in
  mkVector3 (vx v + qw q * tx + qy q * tz - qz q * ty)
            (vy v + qw q * ty + qz q * tx - qx q * tz)
            (vz v + qw q * tz + qx q * ty - qy q * tx).

(** [Euler.setFromQuaternion(q)]: through the rotation matrix of [q], keeping
    the order of the receiver. *)
Definition setFromQuaternion (e : Euler) (q : Quaternion) : Euler :=
  let x2 := qx q + qx q in
  let y2 := qy q + qy q in
  let z2 := qz q + qz q in
  let xx := qx q * x2 in let xy := qx q * y2 in let xz := qx q * z2 in
  let yy := qy q * y2 in let yz := qy q * z2 in let zz := qz q * z2 in
  let wx := qw q * x2 in let wy := qw q * y2 in let wz := qw q * z2 in
  let m11 := 1 - (yy + zz) in let m12 := xy - wz in let m13 := xz + wy in
  let m21 := xy + wz in let m22 := 1 - (xx + zz) in let m23 := yz - wx in
  let m31 := xz - wy in let m32 := yz + wx in let m33 := 1 - (xx + yy) in
  match eorder e with
  | XYZ =>
      let y := asin (clamp m13 (-1) 1) in
      if Rltb (Rabs m13) (9999999 / 10000000)
      then mkEuler (Math_atan2 (- m23) m33) y (Math_atan2 (- m12) m11) XYZ
      else mkEuler (Math_atan2 m32 m22) y 0 XYZ
  | YXZ =>
      let x := asin (- clamp m23 (-1) 1) in
      if Rltb (Rabs m23) (9999999 / 10000000)
      then mkEuler x (Math_atan2 m13 m33) (Math_atan2 m21 m22) YXZ
      else mkEuler x (Math_atan2 (- m31) m11) 0 YXZ
  end.

(** [Box3.setFromCenterAndSize] *)
Definition setFromCenterAndSize (center size : Vector3) : Box3 :=
  let h := multiplyScalar size (1 / 2) in
  mkBox3 (mkVector3 (vx center - vx h) (vy center - vy h) (vz center - vz h))
         (add center h).

(** [this.intersectsBox(box)]: closed boxes, touching faces intersect. *)
Definition intersectsBox (a box : Box3) : bool :=
  Rgeb (vx (bmax box)) (vx (bmin a)) && Rleb (vx (bmin box)) (vx (bmax a)) &&
  Rgeb (vy (bmax box)) (vy (bmin a)) && Rleb (vy (bmin box)) (vy (bmax a)) &&
  Rgeb (vz (bmax box)) (vz (bmin a)) && Rleb (vz (bmin box)) (vz (bmax a)).

End THREE.
Import THREE.

(** ** World data ([src/types/game.ts]) *)

Inductive ZoneType : Type :=
  | residential | commercial | industrial | agricultural | park | road
  | billboard.

Inductive DevelopmentStage : Type :=
  | empty | foundation | construction | complete.

(** The fields of [Building] and [Land] the engine reads.  Grid coordinates
    are integers; [floors] is optional in the source. *)
Record Building : Type := mkBuilding {
  stage : DevelopmentStage;
  floors : option Z
}.

Record Land : Type := mkLand {
  id : string;
  x : Z;
  y : Z;
  zone : ZoneType;
  building : option Building
}.

Definition ZoneType_eqb (a b : ZoneType) : bool :=
  match a, b with
  | residential, residential | commercial, commercial
  | industrial, industrial | agricultural, agricultural
  | park, park | road, road | billboard, billboard => true
  | _, _ => false
  end.

Definition is_complete (st : DevelopmentStage) : bool :=
  match st with complete => true | _ => false end.

(** [FirstPersonControlsProps], without the click callback. *)
Record Props : Type := mkProps {
  lands : list Land;
  speed : R;
  playerHeight : R;
  enableGravity : bool;
  enableCollision : bool;
  enableCameraBob : bool
}.

(** The defaults of the destructured parameter list. *)
Definition default_props (ls : list Land) : Props :=
  mkProps ls (1 / 10) (16 / 10) true true true.

(** ** The state of the component

    One field per [useRef] that survives from one callback to the next, plus
    the two camera properties the component reads and writes.  [playerBox]
    is rewritten before each read inside [checkCollision] and is a local
    there; [rotationSpeed] and the [raycaster] ref are never used. *)

Record Controls : Type := mkControls {
  moveForward : bool;
  moveBackward : bool;
  rotateLeft : bool;
  rotateRight : bool;
  moveUp : bool;
  moveDown : bool;
  canJump : bool;
  velocity : Vector3;
  direction : Vector3;
  isMovingRef : bool;
  isOnRoadRef : bool;
  cameraHeightOffset : R;
  targetPosition : Vector3;
  currentPosition : Vector3;
  targetRotation : Euler;
  currentRotation : Euler;
  euler : Euler;
  bobTime : R;
  baseHeightRef : R;
  collisionBoxes : list Box3;
  roadMap : list (Z * Z);
  camera_position : Vector3;
  camera_quaternion : Quaternion
}.

(** Field assignments ([ref.current = v], [camera.position.copy(v)], ...). *)
Definition set_moveForward (v : bool) (s : Controls) : Controls :=
  mkControls v (moveBackward s) (rotateLeft s) (rotateRight s) (moveUp s)
    (moveDown s) (canJump s) (velocity s) (direction s) (isMovingRef s)
    (isOnRoadRef s) (cameraHeightOffset s) (targetPosition s)
    (currentPosition s) (targetRotation s) (currentRotation s) (euler s)
    (bobTime s) (baseHeightRef s) (collisionBoxes s) (roadMap s)
    (camera_position s) (camera_quaternion s).
Definition set_moveBackward (v : bool) (s : Controls) : Controls :=
  mkControls (moveForward s) v (rotateLeft s) (rotateRight s) (moveUp s)
    (moveDown s) (canJump s) (velocity s) (direction s) (isMovingRef s)
    (isOnRoadRef s) (cameraHeightOffset s) (targetPosition s)
    (currentPosition s) (targetRotation s) (currentRotation s) (euler s)
    (bobTime s) (baseHeightRef s) (collisionBoxes s) (roadMap s)
    (camera_position s) (camera_quaternion s).
Definition set_rotateLeft (v : bool) (s : Controls) : Controls :=
  mkControls (moveForward s) (moveBackward s) v (rotateRight s) (moveUp s)
    (moveDown s) (canJump s) (velocity s) (direction s) (isMovingRef s)
    (isOnRoadRef s) (cameraHeightOffset s) (targetPosition s)
    (currentPosition s) (targetRotation s) (currentRotation s) (euler s)
    (bobTime s) (baseHeightRef s) (collisionBoxes s) (roadMap s)
    (camera_position s) (camera_quaternion s).
Definition set_rotateRight (v : bool) (s : Controls) : Controls :=
  mkControls (moveForward s) (moveBackward s) (rotateLeft s) v (moveUp s)
    (moveDown s) (canJump s) (velocity s) (direction s) (isMovingRef s)
    (isOnRoadRef s) (cameraHeightOffset s) (targetPosition s)
    (currentPosition s) (targetRotation s) (currentRotation s) (euler s)
    (bobTime s) (baseHeightRef s) (collisionBoxes s) (roadMap s)
    (camera_position s) (camera_quaternion s).
Definition set_moveUp (v : bool) (s : Controls) : Controls :=
  mkControls (moveForward s) (moveBackward s) (rotateLeft s) (rotateRight s) v
    (moveDown s) (canJump s) (velocity s) (direction s) (isMovingRef s)
    (isOnRoadRef s) (cameraHeightOffset s) (targetPosition s)
    (currentPosition s) (targetRotation s) (currentRotation s) (euler s)
    (bobTime s) (baseHeightRef s) (collisionBoxes s) (roadMap s)
    (camera_position s) (camera_quaternion s).
Definition set_moveDown (v : bool) (s : Controls) : Controls :=
  mkControls (moveForward s) (moveBackward s) (rotateLeft s) (rotateRight s)
    (moveUp s) v (canJump s) (velocity s) (direction s) (isMovingRef s)
    (isOnRoadRef s) (cameraHeightOffset s) (targetPosition s)
    (currentPosition s) (targetRotation s) (currentRotation s) (euler s)
    (bobTime s) (baseHeightRef s) (collisionBoxes s) (roadMap s)
    (camera_position s) (camera_quaternion s).
Definition set_canJump (v : bool) (s : Controls) : Controls :=
  mkControls (moveForward s) (moveBackward s) (rotateLeft s) (rotateRight s)
    (moveUp s) (moveDown s) v (velocity s) (direction s) (isMovingRef s)
    (isOnRoadRef s) (cameraHeightOffset s) (targetPosition s)
    (currentPosition s) (targetRotation s) (currentRotation s) (euler s)
    (bobTime s) (baseHeightRef s) (collisionBoxes s) (roadMap s)
    (camera_position s) (camera_quaternion s).
Definition set_velocity (v : Vector3) (s : Controls) : Controls :=
  mkControls (moveForward s) (moveBackward s) (rotateLeft s) (rotateRight s)
    (moveUp s) (moveDown s) (canJump s) v (direction s) (isMovingRef s)
    (isOnRoadRef s) (cameraHeightOffset s) (targetPosition s)
    (currentPosition s) (targetRotation s) (currentRotation s) (euler s)
    (bobTime s) (baseHeightRef s) (collisionBoxes s) (roadMap s)
    (camera_position s) (camera_quaternion s).
Definition set_direction (v : Vector3) (s : Controls) : Controls :=
  mkControls (moveForward s) (moveBackward s) (rotateLeft s) (rotateRight s)
    (moveUp s) (moveDown s) (canJump s) (velocity s) v (isMovingRef s)
    (isOnRoadRef s) (cameraHeightOffset s) (targetPosition s)
    (currentPosition s) (targetRotation s) (currentRotation s) (euler s)
    (bobTime s) (baseHeightRef s) (collisionBoxes s) (roadMap s)
    (camera_position s) (camera_quaternion s).
Definition set_isMovingRef (v : bool) (s : Controls) : Controls :=
  mkControls (moveForward s) (moveBackward s) (rotateLeft s) (rotateRight s)
    (moveUp s) (moveDown s) (canJump s) (velocity s) (direction s) v
    (isOnRoadRef s) (cameraHeightOffset s) (targetPosition s)
    (currentPosition s) (targetRotation s) (currentRotation s) (euler s)
    (bobTime s) (baseHeightRef s) (collisionBoxes s) (roadMap s)
    (camera_position s) (camera_quaternion s).
Definition set_isOnRoadRef (v : bool) (s : Controls) : Controls :=
  mkControls (moveForward s) (moveBackward s) (rotateLeft s) (rotateRight s)
    (moveUp s) (moveDown s) (canJump s) (velocity s) (direction s)
    (isMovingRef s) v (cameraHeightOffset s) (targetPosition s)
    (currentPosition s) (targetRotation s) (currentRotation s) (euler s)
    (bobTime s) (baseHeightRef s) (collisionBoxes s) (roadMap s)
    (camera_position s) (camera_quaternion s).
Definition set_cameraHeightOffset (v : R) (s : Controls) : Controls :=
  mkControls (moveForward s) (moveBackward s) (rotateLeft s) (rotateRight s)
    (moveUp s) (moveDown s) (canJump s) (velocity s) (direction s)
    (isMovingRef s) (isOnRoadRef s) v (targetPosition s) (currentPosition s)
    (targetRotation s) (currentRotation s) (euler s) (bobTime s)
    (baseHeightRef s) (collisionBoxes s) (roadMap s) (camera_position s)
    (camera_quaternion s).
Definition set_targetPosition (v : Vector3) (s : Controls) : Controls :=
  mkControls (moveForward s) (moveBackward s) (rotateLeft s) (rotateRight s)
    (moveUp s) (moveDown s) (canJump s) (velocity s) (direction s)
    (isMovingRef s) (isOnRoadRef s) (cameraHeightOffset s) v
    (currentPosition s) (targetRotation s) (currentRotation s) (euler s)
    (bobTime s) (baseHeightRef s) (collisionBoxes s) (roadMap s)
    (camera_position s) (camera_quaternion s).
Definition set_currentPosition (v : Vector3) (s : Controls) : Controls :=
  mkControls (moveForward s) (moveBackward s) (rotateLeft s) (rotateRight s)
    (moveUp s) (moveDown s) (canJump s) (velocity s) (direction s)
    (isMovingRef s) (isOnRoadRef s) (cameraHeightOffset s) (targetPosition s)
    v (targetRotation s) (currentRotation s) (euler s) (bobTime s)
    (baseHeightRef s) (collisionBoxes s) (roadMap s) (camera_position s)
    (camera_quaternion s).
Definition set_targetRotation (v : Euler) (s : Controls) : Controls :=
  mkControls (moveForward s) (moveBackward s) (rotateLeft s) (rotateRight s)
    (moveUp s) (moveDown s) (canJump s) (velocity s) (direction s)
    (isMovingRef s) (isOnRoadRef s) (cameraHeightOffset s) (targetPosition s)
    (currentPosition s) v (currentRotation s) (euler s) (bobTime s)
    (baseHeightRef s) (collisionBoxes s) (roadMap s) (camera_position s)
    (camera_quaternion s).
Definition set_currentRotation (v : Euler) (s : Controls) : Controls :=
  mkControls (moveForward s) (moveBackward s) (rotateLeft s) (rotateRight s)
    (moveUp s) (moveDown s) (canJump s) (velocity s) (direction s)
    (isMovingRef s) (isOnRoadRef s) (cameraHeightOffset s) (targetPosition s)
    (currentPosition s) (targetRotation s) v (euler s) (bobTime s)
    (baseHeightRef s) (collisionBoxes s) (roadMap s) (camera_position s)
    (camera_quaternion s).
Definition set_euler (v : Euler) (s : Controls) : Controls :=
  mkControls (moveForward s) (moveBackward s) (rotateLeft s) (rotateRight s)
    (moveUp s) (moveDown s) (canJump s) (velocity s) (direction s)
    (isMovingRef s) (isOnRoadRef s) (cameraHeightOffset s) (targetPosition s)
    (currentPosition s) (targetRotation s) (currentRotation s) v (bobTime s)
    (baseHeightRef s) (collisionBoxes s) (roadMap s) (camera_position s)
    (camera_quaternion s).
Definition set_bobTime (v : R) (s : Controls) : Controls :=
  mkControls (moveForward s) (moveBackward s) (rotateLeft s) (rotateRight s)
    (moveUp s) (moveDown s) (canJump s) (velocity s) (direction s)
    (isMovingRef s) (isOnRoadRef s) (cameraHeightOffset s) (targetPosition s)
    (currentPosition s) (targetRotation s) (currentRotation s) (euler s) v
    (baseHeightRef s) (collisionBoxes s) (roadMap s) (camera_position s)
    (camera_quaternion s).
Definition set_baseHeightRef (v : R) (s : Controls) : Controls :=
  mkControls (moveForward s) (moveBackward s) (rotateLeft s) (rotateRight s)
    (moveUp s) (moveDown s) (canJump s) (velocity s) (direction s)
    (isMovingRef s) (isOnRoadRef s) (cameraHeightOffset s) (targetPosition s)
    (currentPosition s) (targetRotation s) (currentRotation s) (euler s)
    (bobTime s) v (collisionBoxes s) (roadMap s) (camera_position s)
    (camera_quaternion s).
Definition set_collisionBoxes (v : list Box3) (s : Controls) : Controls :=
  mkControls (moveForward s) (moveBackward s) (rotateLeft s) (rotateRight s)
    (moveUp s) (moveDown s) (canJump s) (velocity s) (direction s)
    (isMovingRef s) (isOnRoadRef s) (cameraHeightOffset s) (targetPosition s)
    (currentPosition s) (targetRotation s) (currentRotation s) (euler s)
    (bobTime s) (baseHeightRef s) v (roadMap s) (camera_position s)
    (camera_quaternion s).
Definition set_roadMap (v : list (Z * Z)) (s : Controls) : Controls :=
  mkControls (moveForward s) (moveBackward s) (rotateLeft s) (rotateRight s)
    (moveUp s) (moveDown s) (canJump s) (velocity s) (direction s)
    (isMovingRef s) (isOnRoadRef s) (cameraHeightOffset s) (targetPosition s)
    (currentPosition s) (targetRotation s) (currentRotation s) (euler s)
    (bobTime s) (baseHeightRef s) (collisionBoxes s) v (camera_position s)
    (camera_quaternion s).
Definition set_camera_position (v : Vector3) (s : Controls) : Controls :=
  mkControls (moveForward s) (moveBackward s) (rotateLeft s) (rotateRight s)
    (moveUp s) (moveDown s) (canJump s) (velocity s) (direction s)
    (isMovingRef s) (isOnRoadRef s) (cameraHeightOffset s) (targetPosition s)
    (currentPosition s) (targetRotation s) (currentRotation s) (euler s)
    (bobTime s) (baseHeightRef s) (collisionBoxes s) (roadMap s) v
    (camera_quaternion s).
Definition set_camera_quaternion (v : Quaternion) (s : Controls) : Controls :=
  mkControls (moveForward s) (moveBackward s) (rotateLeft s) (rotateRight s)
    (moveUp s) (moveDown s) (canJump s) (velocity s) (direction s)
    (isMovingRef s) (isOnRoadRef s) (cameraHeightOffset s) (targetPosition s)
    (currentPosition s) (targetRotation s) (currentRotation s) (euler s)
    (bobTime s) (baseHeightRef s) (collisionBoxes s) (roadMap s)
    (camera_position s) v.

(** ** The component *)

Inductive KeyCode : Type :=
  | KeyW | ArrowUp | KeyS | ArrowDown | KeyA | ArrowLeft | KeyD | ArrowRight
  | Space | KeyQ | KeyE | OtherKey.

(** [roadMap.current.has(`${gridX}-${gridY}`)]: the template key is
    injective on pairs of integers, so the set holds the pairs. *)
Definition Set_has (m : list (Z * Z)) (k : Z * Z) : bool :=
  existsb (fun e => (fst e =? fst k)%Z && (snd e =? snd k)%Z) m.

(** The road keys collected by the first [lands.forEach] of the mount effect. *)
Definition build_roadMap (ls : list Land) : list (Z * Z) :=
  map (fun land => (x land, y land))
      (filter (fun land => ZoneType_eqb (zone land) road) ls).

(** [land.building.floors ? land.building.floors * 0.2 + 1 : 1] *)
Definition buildingHeight (b : Building) : R :=
  match floors b with
  | Some f => if (f =? 0)%Z then 1 else IZR f * (2 / 10) + 1
  | None => 1
  end.

Definition building_box (land : Land) (b : Building) : Box3 :=
  let x := IZR (x land) - 15 in
  let z := IZR (y land) - 15 in
  mkBox3 (mkVector3 (x - 35 / 100) 0 (z - 35 / 100))
         (mkVector3 (x + 35 / 100) (buildingHeight b) (z + 35 / 100)).

(** The boxes pushed by the second [lands.forEach] of the mount effect. *)
Fixpoint build_collisionBoxes (ls : list Land) : list Box3 :=
  match ls with
  | [] => []
  | land :: rest =>
      match building land with
      | Some b =>
          if is_complete (stage b) && negb (ZoneType_eqb (zone land) road)
          then building_box land b :: build_collisionBoxes rest
          else build_collisionBoxes rest
      | None => build_collisionBoxes rest
      end
  end.

Section FirstPersonControls.

Variable props : Props.

(** The refs as [useRef] creates them, with the camera as the canvas places
    it, followed by the mount effect that seeds the position, the road set
    and the collision boxes. *)
Definition mount : Controls :=
  let p := mkVector3 0 (playerHeight props) 0 in
  {| moveForward := false; moveBackward := false;
     rotateLeft := false; rotateRight := false;
     moveUp := false; moveDown := false;
     canJump := false;
     velocity := Vector3_zero; direction := Vector3_zero;
     isMovingRef := false; isOnRoadRef := false;
     cameraHeightOffset := 0;
     targetPosition := p; currentPosition := p;
     targetRotation := Euler_default; currentRotation := Euler_default;
     euler := mkEuler 0 0 0 YXZ;
     bobTime := 0; baseHeightRef := playerHeight props;
     collisionBoxes := build_collisionBoxes (lands props);
     roadMap := build_roadMap (lands props);
     camera_position := p;
     camera_quaternion := mkQuaternion 0 0 0 1 |}.

Definition maxHeightOffset : R := 2.
Definition minHeightOffset : R := - (15 / 10).
Definition bobAmount : R := 3 / 100.
Definition bobSpeed : R := 8.
Definition playerRadius : R := 3 / 10.

(** [window.__teleportPlayer] *)
Definition teleportPlayer (x z : R) (s : Controls) : Controls :=
  let groundHeight := 0 in
  let targetY := groundHeight + playerHeight props + cameraHeightOffset s in
  let s := set_targetPosition (mkVector3 x targetY z) s in
  let s := set_currentPosition (mkVector3 x targetY z) s in
  let s := set_camera_position (mkVector3 x targetY z) s in
  let s := set_baseHeightRef targetY s in
  let s := set_velocity (mkVector3 (vx (velocity s)) 0 (vz (velocity s))) s in
  set_canJump true s.

Definition handleKeyDown (code : KeyCode) (s : Controls) : Controls :=
  match code with
  | KeyW | ArrowUp => set_moveForward true s
  | KeyS | ArrowDown => set_moveBackward true s
  | KeyA | ArrowLeft => set_rotateLeft true s
  | KeyD | ArrowRight => set_rotateRight true s
  | Space =>
      if canJump s then
        let v := velocity s in
        let s := set_velocity (mkVector3 (vx v) (vy v + 15 / 100) (vz v)) s in
        set_canJump false s
      else s
  | KeyQ => set_moveUp true s
  | KeyE => set_moveDown true s
  | OtherKey => s
  end.

Definition handleKeyUp (code : KeyCode) (s : Controls) : Controls :=
  match code with
  | KeyW | ArrowUp => set_moveForward false s
  | KeyS | ArrowDown => set_moveBackward false s
  | KeyA | ArrowLeft => set_rotateLeft false s
  | KeyD | ArrowRight => set_rotateRight false s
  | KeyQ => set_moveUp false s
  | KeyE => set_moveDown false s
  | Space | OtherKey => s
  end.

(** [processRotation], with the two accumulators of the mouse handlers as
    arguments. *)
Definition processRotation (accX accY : R) (s : Controls) : Controls :=
  if negb (Reqb accX 0) || negb (Reqb accY 0) then
    let e := setFromQuaternion (euler s) (camera_quaternion s) in
    let e := mkEuler (ex e) (ey e - accY) (ez e) (eorder e) in
    let e := mkEuler (ex e - accX) (ey e) (ez e) (eorder e) in
    let e := mkEuler (Rmax (- (PI / 2)) (Rmin (PI / 2) (ex e)))
                     (ey e) (ez e) (eorder e) in
    set_targetRotation e (set_euler e s)
  else s.

Definition isOnRoad (s : Controls) (x z : R) : bool :=
  let gridX := Math_round (x + 15) in
  let gridY := Math_round (z + 15) in
  Set_has (roadMap s) (gridX, gridY).

Definition checkCollision (s : Controls) (newPosition : Vector3) : bool :=
  if negb (enableCollision props) then false
  else
    let playerBox :=
      setFromCenterAndSize
        (mkVector3 (vx newPosition)
                   (vy newPosition + playerHeight props / 2)
                   (vz newPosition))
        (mkVector3 (playerRadius * 2) (playerHeight props) (playerRadius * 2))
    in existsb (fun box => intersectsBox playerBox box) (collisionBoxes s).

Definition getGroundHeight (x z : R) : R := 0.

(** *** The frame callback, in the order of its statements *)

(** Rotation from the A/D keys. *)
Definition frame_rotateKeys (delta : R) (s : Controls) : Controls :=
  let rotationAmount := 2 in
  let s :=
    if rotateLeft s then
      let e := setFromQuaternion (euler s) (camera_quaternion s) in
      let e := mkEuler (ex e) (ey e + rotationAmount * delta) (ez e)
                       (eorder e) in
      set_targetRotation e (set_euler e s)
    else s in
  if rotateRight s then
    let e := setFromQuaternion (euler s) (camera_quaternion s) in
    let e := mkEuler (ex e) (ey e - rotationAmount * delta) (ez e)
                     (eorder e) in
    set_targetRotation e (set_euler e s)
  else s.

Definition rotLerpFactor (delta : R) : R := Rmin 1 (delta * 15).

(** The two [if]s that fold the yaw difference by one turn. *)
Definition normalizedDeltaY (deltaY : R) : R :=
  let n := deltaY in
  let n := if Rgtb n PI then n - 2 * PI else n in
  if Rltb n (- PI) then n + 2 * PI else n.

(** Smooth rotation interpolation, then the camera quaternion. *)
Definition frame_smoothRotation (delta : R) (s : Controls) : Controls :=
  let f := rotLerpFactor delta in
  let deltaX := ex (targetRotation s) - ex (currentRotation s) in
  let deltaY := ey (targetRotation s) - ey (currentRotation s) in
  let c := currentRotation s in
  let c := mkEuler (ex c + deltaX * f) (ey c) (ez c) (eorder c) in
  let c := mkEuler (ex c) (ey c + normalizedDeltaY deltaY * f) (ez c)
                   (eorder c) in
  set_camera_quaternion (setFromEuler c) (set_currentRotation c s).

(** The movement direction: forward/backward only, rotated by the camera,
    flattened. *)
Definition frame_direction (s : Controls) : Controls :=
  let d := Vector3_zero in
  let d := if moveForward s then mkVector3 (vx d) (vy d) (vz d - 1) else d in
  let d := if moveBackward s then mkVector3 (vx d) (vy d) (vz d + 1) else d in
  let d := normalize d in
  let d := applyQuaternion d (camera_quaternion s) in
  let d := mkVector3 (vx d) 0 (vz d) in
  set_direction d s.

(** [currentSpeed] for a road test result. *)
Definition currentSpeed (onRoad : bool) : R :=
  let baseSpeed := speed props * 2 in
  if onRoad then baseSpeed else baseSpeed * (5 / 10).

(** Road test, moving flag and the candidate position.  [multiplyScalar]
    works in place, so [direction] ends the frame holding the move vector. *)
Definition frame_candidate (delta : R) (s : Controls) : Controls :=
  let onRoad := isOnRoad s (vx (camera_position s)) (vz (camera_position s)) in
  let s := set_isOnRoadRef onRoad s in
  let s := set_isMovingRef (moveForward s || moveBackward s) s in
  let moveVector :=
    multiplyScalar (direction s) (currentSpeed onRoad * delta * 60) in
  let s := set_direction moveVector s in
  set_targetPosition (add (camera_position s) moveVector) s.

(** The collision test and the two branches it selects. *)
Definition frame_move (delta : R) (s : Controls) : Controls :=
  if negb (checkCollision s (targetPosition s)) then
    let lerpFactor := Rmin 1 (delta * 15) in
    let c := lerp (currentPosition s) (targetPosition s) lerpFactor in
    let s := set_currentPosition c s in
    set_camera_position
      (mkVector3 (vx c) (vy (camera_position s)) (vz c)) s
  else
    let s := set_targetPosition (camera_position s) s in
    set_currentPosition (camera_position s) s.

(** Up/Down movement (Q/E keys). *)
Definition frame_upDown (s : Controls) : Controls :=
  let upDownSpeed := 5 / 100 in
  let s :=
    if moveUp s then
      set_cameraHeightOffset
        (Rmin maxHeightOffset (cameraHeightOffset s + upDownSpeed)) s
    else s in
  if moveDown s then
    set_cameraHeightOffset
      (Rmax minHeightOffset (cameraHeightOffset s - upDownSpeed)) s
  else s.

Definition set_camera_y (v : R) (s : Controls) : Controls :=
  let p := camera_position s in
  set_camera_position (mkVector3 (vx p) v (vz p)) s.

Definition set_velocity_y (v : R) (s : Controls) : Controls :=
  let w := velocity s in
  set_velocity (mkVector3 (vx w) v (vz w)) s.

(** Gravity. *)
Definition frame_gravity (s : Controls) : Controls :=
  if enableGravity props then
    let s := set_velocity_y (vy (velocity s) - 1 / 100) s in
    let groundHeight :=
      getGroundHeight (vx (camera_position s)) (vz (camera_position s)) in
    let targetY := groundHeight + playerHeight props + cameraHeightOffset s in
    let s := set_baseHeightRef targetY s in
    if Rleb (vy (camera_position s)) targetY && Rleb (vy (velocity s)) 0 then
      let s := set_camera_y targetY s in
      let s := set_velocity_y 0 s in
      set_canJump true s
    else
      set_camera_y (vy (camera_position s) + vy (velocity s)) s
  else
    let s :=
      set_baseHeightRef (playerHeight props + cameraHeightOffset s) s in
    set_camera_y (baseHeightRef s) s.

(** Camera bobbing. *)
Definition frame_bob (delta : R) (s : Controls) : Controls :=
  if enableCameraBob props && (moveForward s || moveBackward s) then
    let s := set_bobTime (bobTime s + delta * bobSpeed) s in
    let bobOffset := sin (bobTime s) * bobAmount in
    set_camera_y (baseHeightRef s + bobOffset) s
  else
    let s := set_bobTime 0 s in
    if negb (enableGravity props) || canJump s then
      set_camera_y (baseHeightRef s) s
    else s.

Definition worldSize : R := 15.

(** Clamp position to world bounds. *)
Definition frame_clamp (s : Controls) : Controls :=
  let p := camera_position s in
  let p := mkVector3 (Rmax (- worldSize) (Rmin worldSize (vx p)))
                     (vy p) (vz p) in
  let p := mkVector3 (vx p) (vy p)
                     (Rmax (- worldSize) (Rmin worldSize (vz p))) in
  set_camera_position p s.

(** [useFrame((state, delta) => ...)] *)
Definition useFrame (delta : R) (s : Controls) : Controls :=
  let s := frame_rotateKeys delta s in
  let s := frame_smoothRotation delta s in
  let s := frame_direction s in
  let s := frame_candidate delta s in
  let s := frame_move delta s in
  let s := frame_upDown s in
  let s := frame_gravity s in
  let s := frame_bob delta s in
  frame_clamp s.

(** Consecutive frames, one [delta] each. *)
Fixpoint run_frames (deltas : list R) (s : Controls) : Controls :=
  match deltas with
  | [] => s
  | d :: rest => run_frames rest (useFrame d s)
  end.

End FirstPersonControls.

(** ** Click-to-select ([handleClick]) *)

(** An object of the scene graph as the click handler sees it.  The
    geometric part of [Mesh.raycast] is outside the component: [ray_hits]
    lists the distances along the click ray at which it meets the object's
    surface. *)
Record SceneObject : Type := mkSceneObject {
  isMesh : bool;
  landId : option string;
  visible : bool;
  ray_hits : list R
}.

Record Intersection : Type := mkIntersection {
  distance : R;
  object : SceneObject
}.

(** A string is truthy unless it is empty; a missing property is falsy. *)
Definition truthy (o : option string) : bool :=
  match o with
  | Some s => negb (String.eqb s EmptyString)
  | None => false
  end.

(** The [scene.traverse] that collects the visible meshes with a [landId]. *)
Definition collect_landMeshes (scene : list SceneObject) : list SceneObject :=
  filter (fun o => isMesh o && truthy (landId o) && visible o) scene.

Definition raycaster_near : R := 0.
Definition raycaster_far : R := 50.

(** What one mesh contributes: its hits between [near] and [far]. *)
Definition raycast (o : SceneObject) : list Intersection :=
  map (fun d => mkIntersection d o)
      (filter (fun d => negb (Rltb d raycaster_near || Rgtb d raycaster_far))
              (ray_hits o)).

(** [intersects.sort(ascSort)], a stable sort by ascending distance. *)
Fixpoint insert_asc (i : Intersection) (l : list Intersection)
  : list Intersection :=
  match l with
  | [] => [i]
  | j :: rest =>
      if Rltb (distance i) (distance j) then i :: l
      else j :: insert_asc i rest
  end.

Fixpoint ascSort (l : list Intersection) : list Intersection :=
  match l with
  | [] => []
  | i :: rest => insert_asc i (ascSort rest)
  end.

(** [raycaster.intersectObjects(landMeshes, false)] *)
Definition intersectObjects (meshes : list SceneObject) : list Intersection :=
  ascSort (flat_map raycast meshes).

(** [lands.find(l => l.id === landId)] *)
Definition find_land (ls : list Land) (i : string) : option Land :=
  find (fun l => String.eqb (id l) i) ls.

(** The click handler.  [button] is [event.button], [hasCallback] tells
    whether [onLandClick] was passed.  The result pairs the refs, which the
    handler never assigns, with the argument of the [onLandClick] call when
    there is one. *)
Definition handleClick (props : Props) (hasCallback : bool) (button : Z)
    (scene : list SceneObject) (s : Controls) : Controls * option Land :=
  if negb (button =? 0)%Z then (s, None)
  else if negb hasCallback then (s, None)
  else
    let landMeshes := collect_landMeshes scene in
    match landMeshes with
    | [] => (s, None)
    | _ =>
        match intersectObjects landMeshes with
        | [] => (s, None)
        | closest :: _ =>
            if truthy (landId (object closest)) then
              match landId (object closest) with
              | Some i =>
                  match find_land (lands props) i with
                  | Some land =>
                      if negb (ZoneType_eqb (zone land) road)
                      then (s, Some land)
                      else (s, None)
                  | None => (s, None)
                  end
              | None => (s, None)
              end
            else (s, None)
        end
    end.

(** ** Teleport from the minimap ([Minimap.tsx]) *)

Record DOMRect : Type := mkDOMRect { left : R; top : R }.

Record Minimap : Type := mkMinimap {
  size : R;
  isTeleportMode : bool;
  hasCamera : bool;
  canvasRect : option DOMRect
}.

(** [handleCanvasClick]: the click is converted to world coordinates,
    clamped, and handed to [__teleportPlayer]. *)
Definition handleCanvasClick (props : Props) (m : Minimap)
    (clientX clientY : R) (s : Controls) : Minimap * Controls :=
  if negb (isTeleportMode m) || negb (hasCamera m) then (m, s)
  else
    match canvasRect m with
    | None => (m, s)
    | Some rect =>
        let x := clientX - left rect in
        let y := clientY - top rect in
        let gridSize := 30 in
        let cellSize := size m / gridSize in
        let worldX := x / cellSize - 15 in
        let worldZ := y / cellSize - 15 in
        let clampedX := Rmax (-15) (Rmin 15 worldX) in
        let clampedZ := Rmax (-15) (Rmin 15 worldZ) in
        (mkMinimap (size m) false (hasCamera m) (canvasRect m),
         teleportPlayer props clampedX clampedZ s)
    end.

(** ** Input sequences *)

Inductive Event : Type :=
  | Frame (delta : R)
  | KeyDown (code : KeyCode)
  | KeyUp (code : KeyCode)
  | MouseRotation (accX accY : R)
  | Teleport (x z : R).

Definition step (props : Props) (e : Event) (s : Controls) : Controls :=
  match e with
  | Frame delta => useFrame props delta s
  | KeyDown code => handleKeyDown code s
  | KeyUp code => handleKeyUp code s
  | MouseRotation accX accY => processRotation accX accY s
  | Teleport x z => teleportPlayer props x z s
  end.

Fixpoint run (props : Props) (es : list Event) (s : Controls) : Controls :=
  match es with
  | [] => s
  | e :: rest => run props rest (step props e s)
  end.

(** * Notions used by the properties *)

(** ** World bounds *)

Definition in_bounds (p : Vector3) : Prop :=
  Rabs (vx p) <= 15 /\ Rabs (vz p) <= 15.

(** A minimap in teleport mode. *)
Definition sample_minimap : Minimap :=
  mkMinimap 200 true true (Some (mkDOMRect 10 20)).

(** The landing test of the gravity step, on the values it reads before
    the velocity is decremented. *)
Definition landed (props : Props) (off v y : R) : bool :=
  Rleb y (0 + playerHeight props + off) && Rleb (v - 1 / 100) 0.

(** ** Views of the state

    The frame callback is three machines that share the key flags: the
    rotation smoothing, the horizontal move and the vertical physics.  Each
    view collects the fields one machine owns. *)

Record Keys : Type := mkKeys {
  k_forward : bool; k_backward : bool;
  k_left : bool; k_right : bool;
  k_up : bool; k_down : bool
}.

Definition keys_of (s : Controls) : Keys :=
  mkKeys (moveForward s) (moveBackward s) (rotateLeft s) (rotateRight s)
         (moveUp s) (moveDown s).

Record Rotation : Type := mkRotation {
  r_target : Euler; r_current : Euler; r_euler : Euler; r_camera : Quaternion
}.

Definition rotation_of (s : Controls) : Rotation :=
  mkRotation (targetRotation s) (currentRotation s) (euler s)
             (camera_quaternion s).

Record Vertical : Type := mkVertical {
  v_y : R;          (* camera.position.y *)
  v_velocity : R;   (* velocity.current.y *)
  v_canJump : bool;
  v_offset : R;     (* cameraHeightOffset *)
  v_base : R;       (* baseHeightRef *)
  v_bob : R         (* bobTime *)
}.

Definition vertical_of (s : Controls) : Vertical :=
  mkVertical (vy (camera_position s)) (vy (velocity s)) (canJump s)
             (cameraHeightOffset s) (baseHeightRef s) (bobTime s).

Definition world_of (s : Controls) : list Box3 * list (Z * Z) :=
  (collisionBoxes s, roadMap s).

(** The horizontal camera coordinates with the two smoothing positions. *)
Definition ground_of (s : Controls) : R * R * Vector3 * Vector3 :=
  (vx (camera_position s), vz (camera_position s),
   currentPosition s, targetPosition s).

(** ** The vertical machine

    What the three vertical phases do to the [Vertical] view, as functions
    of that view and the keys, and the proof that the frame callback
    follows them. *)

Definition v_upDown (k : Keys) (w : Vertical) : Vertical :=
  let o := if k_up k then Rmin maxHeightOffset (v_offset w + 5 / 100)
           else v_offset w in
  let o := if k_down k then Rmax minHeightOffset (o - 5 / 100) else o in
  mkVertical (v_y w) (v_velocity w) (v_canJump w) o (v_base w) (v_bob w).

Definition v_gravity (props : Props) (w : Vertical) : Vertical :=
  if enableGravity props then
    let targetY := 0 + playerHeight props + v_offset w in
    if landed props (v_offset w) (v_velocity w) (v_y w)
    then mkVertical targetY 0 true (v_offset w) targetY (v_bob w)
    else mkVertical (v_y w + (v_velocity w - 1 / 100))
                    (v_velocity w - 1 / 100) (v_canJump w) (v_offset w)
                    targetY (v_bob w)
  else
    let b := playerHeight props + v_offset w in
    mkVertical b (v_velocity w) (v_canJump w) (v_offset w) b (v_bob w).

Definition v_bobbing (props : Props) (delta : R) (k : Keys) (w : Vertical)
  : Vertical :=
  if enableCameraBob props && (k_forward k || k_backward k) then
    let t := v_bob w + delta * bobSpeed in
    mkVertical (v_base w + sin t * bobAmount) (v_velocity w) (v_canJump w)
               (v_offset w) (v_base w) t
  else
    mkVertical (if negb (enableGravity props) || v_canJump w
                then v_base w else v_y w)
               (v_velocity w) (v_canJump w) (v_offset w) (v_base w) 0.

Definition vertical_step (props : Props) (delta : R) (k : Keys)
    (w : Vertical) : Vertical :=
  v_bobbing props delta k (v_gravity props (v_upDown k w)).

Fixpoint vertical_run (props : Props) (deltas : list R) (k : Keys)
    (w : Vertical) : Vertical :=
  match deltas with
  | [] => w
  | d :: rest => vertical_run props rest k (vertical_step props d k w)
  end.

(** ** Jump and landing *)

(** No translation key and no height key is held. *)
Definition keys_still (k : Keys) : Prop :=
  k_forward k = false /\ k_backward k = false /\
  k_up k = false /\ k_down k = false.

Fixpoint vertical_iter (props : Props) (k : Keys) (n : nat) (w : Vertical)
  : Vertical :=
  match n with
  | O => w
  | S m => vertical_iter props k m (vertical_step props 0 k w)
  end.

Definition grounded_sample : Controls :=
  teleportPlayer (default_props []) 0 0 (mount (default_props [])).

(** ** Camera bob *)

(** Two vertical views that publish the same height and agree on the height
    offset and the bob phase; velocity, jump eligibility and base height
    are free. *)
Definition height_sync (a b : Vertical) : Prop :=
  v_y a = v_y b /\ v_offset a = v_offset b /\ v_bob a = v_bob b.

Definition keys_moving (k : Keys) : bool := k_forward k || k_backward k.

Definition walking_sample : Controls :=
  handleKeyDown KeyW grounded_sample.

(** ** The rotation machine *)

Definition r_turn (k : R) (e0 : Euler) (q : Quaternion) : Euler :=
  let e := setFromQuaternion e0 q in
  mkEuler (ex e) (ey e + k) (ez e) (eorder e).

Definition r_keys (delta : R) (k : Keys) (r : Rotation) : Rotation :=
  let e1 := if k_left k then r_turn (2 * delta) (r_euler r) (r_camera r)
            else r_euler r in
  let t1 := if k_left k then r_turn (2 * delta) (r_euler r) (r_camera r)
            else r_target r in
  if k_right k then
    let e := r_turn (- (2 * delta)) e1 (r_camera r) in
    mkRotation e (r_current r) e (r_camera r)
  else mkRotation t1 (r_current r) e1 (r_camera r).

Definition r_smooth (delta : R) (r : Rotation) : Rotation :=
  let f := rotLerpFactor delta in
  let c := r_current r in
  let c' :=
    mkEuler (ex c + (ex (r_target r) - ex c) * f)
            (ey c + normalizedDeltaY (ey (r_target r) - ey c) * f)
            (ez c) (eorder c) in
  mkRotation (r_target r) c' (r_euler r) (setFromEuler c').

Definition rotation_step (delta : R) (k : Keys) (r : Rotation) : Rotation :=
  r_smooth delta (r_keys delta k r).

(** The blend the specification words describe: an exponential factor. *)
Definition spec_blend (k delta current target : R) : R :=
  current + (target - current) * (1 - exp (- (k * delta))).

(** A camera at rest whose target pitch is one radian up. *)
Definition pitched_sample : Controls :=
  set_targetRotation (mkEuler 1 0 0 YXZ) (mount (default_props [])).

(** Yaw target zero with the current yaw two turns behind. *)
Definition wound_sample : Controls :=
  set_currentRotation (mkEuler 0 (- (4 * PI)) 0 XYZ)
                      (mount (default_props [])).

(** ** The horizontal machine *)

(** The value [frame_direction] leaves in [direction]. *)
Definition move_direction (k : Keys) (q : Quaternion) : Vector3 :=
  let d := Vector3_zero in
  let d := if k_forward k then mkVector3 (vx d) (vy d) (vz d - 1) else d in
  let d := if k_backward k then mkVector3 (vx d) (vy d) (vz d + 1) else d in
  let d := applyQuaternion (normalize d) q in
  mkVector3 (vx d) 0 (vz d).

(** The move vector of a frame: the direction seen through the orientation
    that the same frame has just smoothed, scaled by the terrain speed. *)
Definition moveVector (props : Props) (delta : R) (s : Controls) : Vector3 :=
  let q := r_camera (rotation_step delta (keys_of s) (rotation_of s)) in
  let onRoad := isOnRoad s (vx (camera_position s)) (vz (camera_position s)) in
  multiplyScalar (move_direction (keys_of s) q)
                 (currentSpeed props onRoad * delta * 60).

(** The state the collision test sees. *)
Definition pre_move (props : Props) (delta : R) (s : Controls) : Controls :=
  frame_candidate props delta
    (frame_direction (frame_smoothRotation delta (frame_rotateKeys delta s))).

(** The state the bounds clamp receives. *)
Definition pre_clamp (props : Props) (delta : R) (s : Controls) : Controls :=
  frame_bob props delta
    (frame_gravity props
       (frame_upDown (frame_move props delta (pre_move props delta s)))).

(** The candidate position of a frame and the outcome of its collision
    test. *)
Definition candidate (props : Props) (delta : R) (s : Controls) : Vector3 :=
  targetPosition (pre_move props delta s).

Definition collides (props : Props) (delta : R) (s : Controls) : bool :=
  checkCollision props (pre_move props delta s) (candidate props delta s).

(** An input sequence without teleports in which every frame's candidate
    collides; keys may change and the mouse may turn the camera between
    frames. *)
Fixpoint all_rejected (props : Props) (es : list Event) (s : Controls)
  : Prop :=
  match es with
  | [] => True
  | Frame delta :: rest =>
      collides props delta s = true /\
      all_rejected props rest (useFrame props delta s)
  | Teleport _ _ :: _ => False
  | e :: rest => all_rejected props rest (step props e s)
  end.

(** ** Walking straight ahead *)

(** Level orientation: current and target pitch and yaw are zero. *)
Definition level (r : Rotation) : Prop :=
  ex (r_current r) = 0 /\ ey (r_current r) = 0 /\ ez (r_current r) = 0 /\
  eorder (r_current r) = XYZ /\
  ex (r_target r) = 0 /\ ey (r_target r) = 0.

(** Forward is the only movement or rotation key held. *)
Definition keys_forward (k : Keys) : Prop :=
  k_forward k = true /\ k_backward k = false /\
  k_left k = false /\ k_right k = false.

(** The smoothed position coincides horizontally with the camera. *)
Definition synced (s : Controls) : Prop :=
  vx (currentPosition s) = vx (camera_position s) /\
  vz (currentPosition s) = vz (camera_position s).

(** The distance one frame of straight walking covers off the road. *)
Definition stride (props : Props) (delta : R) : R :=
  currentSpeed props false * delta * 60 * Rmin 1 (delta * 15).

(** An open world: no road and no building. *)
Definition open_world (s : Controls) : Prop := world_of s = ([], []).

Record straight (s : Controls) : Prop := mkStraight {
  straight_keys : keys_forward (keys_of s);
  straight_level : level (rotation_of s);
  straight_world : open_world s;
  straight_synced : synced s
}.

(** ** One second of walking at two frame rates *)

(** The player at the spawn point of an empty world, forward key down. *)
Definition spawn_walking : Controls :=
  handleKeyDown KeyW (mount (default_props [])).

(** ** A wall to walk into *)

Definition tower : Land :=
  mkLand "15-14" 15 14 commercial (Some (mkBuilding complete (Some 5%Z))).

Definition tower_props : Props := default_props [tower].

(** The player three tenths of a unit in front of the tower, walking
    towards it. *)
Definition at_the_wall : Controls :=
  handleKeyDown KeyW
    (teleportPlayer tower_props 0 (- (3 / 10)) (mount tower_props)).

(** ** Road speed *)

(** The bounds clamp of this frame leaves the position as it is. *)
Definition unclamped (props : Props) (delta : R) (s : Controls) : Prop :=
  in_bounds (camera_position (pre_clamp props delta s)).

(** Frames whose start position always tests [onRoad], whose candidate never
    collides and which the bounds clamp never touches. *)
Fixpoint clear_walk (props : Props) (onRoad : bool) (deltas : list R)
    (s : Controls) : Prop :=
  match deltas with
  | [] => True
  | d :: rest =>
      isOnRoad s (vx (camera_position s)) (vz (camera_position s)) = onRoad /\
      collides props d s = false /\
      unclamped props d s /\
      clear_walk props onRoad rest (useFrame props d s)
  end.

(** Horizontal distance between two positions. *)
Definition hdist (p q : Vector3) : R :=
  sqrt ((vx q - vx p) * (vx q - vx p) + (vz q - vz p) * (vz q - vz p)).

(** The length of the horizontal path the camera follows over the frames. *)
Fixpoint path_length (props : Props) (deltas : list R) (s : Controls) : R :=
  match deltas with
  | [] => 0
  | d :: rest =>
      hdist (camera_position s) (camera_position (useFrame props d s)) +
      path_length props rest (useFrame props d s)
  end.

(** A world whose only cell is a road through the spawn point. *)
Definition road_land : Land := mkLand "15-15" 15 15 road None.

Definition road_props : Props := default_props [road_land].

Definition on_road_walker : Controls :=
  handleKeyDown KeyW (mount road_props).

Definition off_road_walker : Controls :=
  handleKeyDown KeyW (teleportPlayer road_props 5 5 (mount road_props)).

(** ** Click-to-select *)




(** ** The states the component reaches *)

(** From the mount effect through frames, key and mouse handlers, and
    teleports issued by the minimap. *)
Inductive reachable (props : Props) : Controls -> Prop :=
  | reach_mount : reachable props (mount props)
  | reach_frame s delta :
      reachable props s -> reachable props (useFrame props delta s)
  | reach_keyDown s code :
      reachable props s -> reachable props (handleKeyDown code s)
  | reach_keyUp s code :
      reachable props s -> reachable props (handleKeyUp code s)
  | reach_mouse s accX accY :
      reachable props s -> reachable props (processRotation accX accY s)
  | reach_minimap s m clientX clientY :
      reachable props s ->
      reachable props (snd (handleCanvasClick props m clientX clientY s)).


Definition park_tile : SceneObject :=
  mkSceneObject true (Some "15-16"%string) true [5].

Definition park_land : Land := mkLand "15-16" 15 16 park None.

Definition two_tile_props : Props := default_props [road_land; park_land].

(** * Further notions *)

(** ** The world index *)

(** The horizontal extent within which the player box around a position
    meets a collision box, and the vertical one: the player box reaches
    from the position up by one player height. *)
Definition blocks (props : Props) (box : Box3) (p : Vector3) : Prop :=
  vx (bmin box) - 3 / 10 <= vx p <= vx (bmax box) + 3 / 10 /\
  vy (bmin box) - playerHeight props <= vy p <= vy (bmax box) /\
  vz (bmin box) - 3 / 10 <= vz p <= vz (bmax box) + 3 / 10.

(** The unit cell of the grid around a land, in world coordinates: closed
    on the low side, open on the high side. *)
Definition in_cell (land : Land) (px pz : R) : Prop :=
  IZR (x land) - 15 - 1 / 2 <= px < IZR (x land) - 15 + 1 / 2 /\
  IZR (y land) - 15 - 1 / 2 <= pz < IZR (y land) - 15 + 1 / 2.

(** A low house beside the spawn point. *)
Definition cottage : Land :=
  mkLand "15-14" 15 14 residential (Some (mkBuilding complete (Some 2%Z))).


(** ** Keys *)

(** What a key is bound to in the two [switch] statements. *)
Inductive Action : Type :=
  | Forward | Backward | TurnLeft | TurnRight | Rise | Sink.

Definition action_of (code : KeyCode) : option Action :=
  match code with
  | KeyW | ArrowUp => Some Forward
  | KeyS | ArrowDown => Some Backward
  | KeyA | ArrowLeft => Some TurnLeft
  | KeyD | ArrowRight => Some TurnRight
  | KeyQ => Some Rise
  | KeyE => Some Sink
  | Space | OtherKey => None
  end.

Definition held (a : Action) (s : Controls) : bool :=
  match a with
  | Forward => moveForward s
  | Backward => moveBackward s
  | TurnLeft => rotateLeft s
  | TurnRight => rotateRight s
  | Rise => moveUp s
  | Sink => moveDown s
  end.

(** An input sequence made of key events only. *)
Definition key_event (e : Event) : bool :=
  match e with
  | KeyDown _ | KeyUp _ => true
  | _ => false
  end.

Definition is_space_down (e : Event) : bool :=
  match e with
  | KeyDown Space => true
  | _ => false
  end.

(** ** Standing, rising and sinking *)

(** At rest on the ground: jump-eligible, no vertical velocity, the camera
    at the ground target height. *)
Definition grounded (props : Props) (s : Controls) : Prop :=
  canJump s = true /\ vy (velocity s) = 0 /\
  vy (camera_position s) = 0 + playerHeight props + cameraHeightOffset s.

(** Only the rise key, or only the sink key, among the keys that act on the
    vertical machine. *)
Definition keys_rising (k : Keys) : Prop :=
  k_forward k = false /\ k_backward k = false /\
  k_up k = true /\ k_down k = false.

Definition keys_sinking (k : Keys) : Prop :=
  k_forward k = false /\ k_backward k = false /\
  k_up k = false /\ k_down k = true.

(** The player at the top of the height range, sinking. *)
Definition sinking_sample : Controls :=
  handleKeyDown KeyE
    (set_cameraHeightOffset 2
       (teleportPlayer (default_props []) 0 0
          (set_cameraHeightOffset 2 (mount (default_props []))))).


(** ** Orientation *)

(** The share of a pitch error that is left after the frames. *)
Fixpoint remaining (deltas : list R) : R :=
  match deltas with
  | [] => 1
  | d :: rest => (1 - Rmin 1 (15 * d)) * remaining rest
  end.

(** No frame of the sequence has a negative duration. *)
Definition forward_in_time (e : Event) : bool :=
  match e with
  | Frame delta => Rleb 0 delta
  | _ => true
  end.

(** The pitch of the target and of the current orientation are within a
    quarter turn, and the scratch Euler keeps its ['YXZ'] order. *)
Definition pitch_bounded (s : Controls) : Prop :=
  eorder (euler s) = YXZ /\
  - (PI / 2) <= ex (targetRotation s) <= PI / 2 /\
  - (PI / 2) <= ex (currentRotation s) <= PI / 2.

(** The player looking a quarter turn down, about to walk. *)
Definition looking_down : Controls :=
  handleKeyDown KeyW
    (set_currentRotation (mkEuler (- (PI / 2)) 0 0 XYZ)
       (set_targetRotation (mkEuler (- (PI / 2)) 0 0 YXZ)
          (mount (default_props [])))).


(** ** Mouse look

    The closure variables of the mouse effect and its handlers.  [rafId] is
    kept as the flag "an animation frame is requested"; the cursor style is
    left out.  [requestPointerLock] and [exitPointerLock] only ask the
    browser, which answers with a [pointerlockchange] event. *)

Record Mouse : Type := mkMouse {
  isPointerLocked : bool;
  isDragging : bool;
  lastMouseX : R;
  lastMouseY : R;
  rafRequested : bool;
  accumulatedRotationX : R;
  accumulatedRotationY : R
}.

(** The closure as the effect body initialises it. *)
Definition Mouse_init : Mouse := mkMouse false false 0 0 false 0 0.

Definition handleMouseMove (movementX movementY clientX clientY : R)
    (m : Mouse) : Mouse :=
  if isPointerLocked m then
    mkMouse (isPointerLocked m) (isDragging m) (lastMouseX m) (lastMouseY m)
            true
            (accumulatedRotationX m + movementY * (2 / 1000))
            (accumulatedRotationY m + movementX * (2 / 1000))
  else if isDragging m then
    let deltaX := clientX - lastMouseX m in
    let deltaY := clientY - lastMouseY m in
    let m :=
      if Rgtb (Rabs deltaX) (1 / 10) || Rgtb (Rabs deltaY) (1 / 10) then
        mkMouse (isPointerLocked m) (isDragging m) (lastMouseX m)
                (lastMouseY m) true
                (accumulatedRotationX m + deltaY * (3 / 1000))
                (accumulatedRotationY m + deltaX * (3 / 1000))
      else m in
    mkMouse (isPointerLocked m) (isDragging m) clientX clientY
            (rafRequested m) (accumulatedRotationX m)
            (accumulatedRotationY m)
  else m.

Definition handleMouseDown (button : Z) (clientX clientY : R) (m : Mouse)
  : Mouse :=
  if (button =? 0)%Z && negb (isPointerLocked m) then
    mkMouse (isPointerLocked m) true clientX clientY (rafRequested m)
            (accumulatedRotationX m) (accumulatedRotationY m)
  else m.


(** [handlePointerLockChange] of the mouse effect; [locked] is
    [document.pointerLockElement === gl.domElement]. *)
Definition handlePointerLockChange (locked : bool) (m : Mouse) : Mouse :=
  let m := mkMouse locked (isDragging m) (lastMouseX m) (lastMouseY m)
                   (rafRequested m) (accumulatedRotationX m)
                   (accumulatedRotationY m) in
  if isPointerLocked m then
    mkMouse (isPointerLocked m) false (lastMouseX m) (lastMouseY m)
            (rafRequested m) (accumulatedRotationX m)
            (accumulatedRotationY m)
  else m.

(** The requested animation frame arrives: [processRotation] runs on the
    accumulators, clears them when it used them, and clears [rafId]. *)
Definition animationFrame (m : Mouse) (s : Controls) : Mouse * Controls :=
  if rafRequested m then
    let used := negb (Reqb (accumulatedRotationX m) 0)
                || negb (Reqb (accumulatedRotationY m) 0) in
    (mkMouse (isPointerLocked m) (isDragging m) (lastMouseX m)
             (lastMouseY m) false
             (if used then 0 else accumulatedRotationX m)
             (if used then 0 else accumulatedRotationY m),
     processRotation (accumulatedRotationX m) (accumulatedRotationY m) s)
  else (m, s).




(** Pointer-locked moves, as their [(movementX, movementY)] pairs. *)
Definition locked_moves (moves : list (R * R)) (m : Mouse) : Mouse :=
  fold_left (fun m p => handleMouseMove (fst p) (snd p) 0 0 m) moves m.

Definition sum_fst (l : list (R * R)) : R :=
  fold_right (fun p acc => fst p + acc) 0 l.

Definition sum_snd (l : list (R * R)) : R :=
  fold_right (fun p acc => snd p + acc) 0 l.

(** Drag moves, as their [(clientX, clientY)] pairs. *)
Definition drag_moves (moves : list (R * R)) (m : Mouse) : Mouse :=
  fold_left (fun m p => handleMouseMove 0 0 (fst p) (snd p) m) moves m.

(** Every step of the drag moves by more than a tenth of a pixel in [x] or
    in [y], counted from the previous pointer position. *)
Fixpoint big_steps (x0 y0 : R) (moves : list (R * R)) : Prop :=
  match moves with
  | [] => True
  | p :: rest =>
      (1 / 10 < Rabs (fst p - x0) \/ 1 / 10 < Rabs (snd p - y0)) /\
      big_steps (fst p) (snd p) rest
  end.

(** ** The minimap marker and the teleport key *)

(** [handleKeyPress] of the minimap: T toggles the teleport mode. *)
Definition Minimap_handleKeyPress (key : string) (m : Minimap) : Minimap :=
  if String.eqb key "t" || String.eqb key "T" then
    mkMinimap (size m) (negb (isTeleportMode m)) (hasCamera m) (canvasRect m)
  else m.

(** Where [drawDynamic] puts the centre of the player marker, in canvas
    coordinates. *)
Definition marker_position (m : Minimap) (s : Controls) : R * R :=
  let gridSize := 30 in
  let cellSize := size m / gridSize in
  let playerX := (vx (camera_position s) + 15) * cellSize in
  let playerZ := (vz (camera_position s) + 15) * cellSize in
  (Rmax 3 (Rmin (size m - 3) playerX), Rmax 3 (Rmin (size m - 3) playerZ)).

(** ** Published flags *)

Definition flags_of (s : Controls) : bool * bool :=
  (isMovingRef s, isOnRoadRef s).


(** ** Events other than teleports *)

Definition not_teleport (e : Event) : bool :=
  match e with
  | Teleport _ _ => false
  | _ => true
  end.

(** A scene object the click handler collects. *)
Definition pickable (o : SceneObject) : bool :=
  isMesh o && truthy (landId o) && visible o.

(** * Properties *)

(** ** Reflection of the comparisons *)

Lemma Rleb_true a b : Rleb a b = true <-> a <= b.
Proof. unfold Rleb; destruct (Rle_dec a b); split; intros; congruence || lra. Qed.

Lemma Rleb_false a b : Rleb a b = false <-> b < a.
Proof. unfold Rleb; destruct (Rle_dec a b); split; intros; congruence || lra. Qed.

Lemma Rltb_true a b : Rltb a b = true <-> a < b.
Proof. unfold Rltb; destruct (Rlt_dec a b); split; intros; congruence || lra. Qed.

Lemma Rltb_false a b : Rltb a b = false <-> b <= a.
Proof. unfold Rltb; destruct (Rlt_dec a b); split; intros; congruence || lra. Qed.

Lemma Reqb_true a b : Reqb a b = true <-> a = b.
Proof. unfold Reqb; destruct (Req_dec_T a b); split; intros; congruence. Qed.

Lemma Rmin_cases a b : (a <= b /\ Rmin a b = a) \/ (b < a /\ Rmin a b = b).
Proof. unfold Rmin; destruct (Rle_dec a b); [left | right]; split; lra. Qed.

Lemma Rmax_cases a b : (a <= b /\ Rmax a b = b) \/ (b < a /\ Rmax a b = a).
Proof. unfold Rmax; destruct (Rle_dec a b); [left | right]; split; lra. Qed.

Lemma clamp_range lo hi v : lo <= hi -> lo <= Rmax lo (Rmin hi v) <= hi.
Proof.
  intros Hlh.
  destruct (Rmin_cases hi v) as [[? ->] | [? ->]];
    destruct (Rmax_cases lo hi) as [[? ?] | [? ?]];
    destruct (Rmax_cases lo v) as [[? ?] | [? ?]]; lra.
Qed.

Lemma clamp_id lo hi v : lo <= v <= hi -> Rmax lo (Rmin hi v) = v.
Proof.
  intros [Hl Hh].
  destruct (Rmin_cases hi v) as [[? ->] | [? ->]];
    [destruct (Rmax_cases lo hi) as [[? ->] | [? ->]]
    | destruct (Rmax_cases lo v) as [[? ->] | [? ->]]]; lra.
Qed.

Lemma Rabs_le_range a b : Rabs a <= b -> - b <= a <= b.
Proof. unfold Rabs. destruct (Rcase_abs a); lra. Qed.

(** ** World bounds *)

Lemma frame_clamp_in_bounds s : in_bounds (camera_position (frame_clamp s)).
Proof.
  unfold frame_clamp, in_bounds, worldSize; cbn.
  split; apply Rabs_le; apply clamp_range; lra.
Qed.

Lemma useFrame_in_bounds props delta s :
  in_bounds (camera_position (useFrame props delta s)).
Proof. unfold useFrame. apply frame_clamp_in_bounds. Qed.

Lemma run_app props es1 es2 s :
  run props (es1 ++ es2) s = run props es2 (run props es1 s).
Proof. revert s; induction es1 as [| e es1 IH]; intros s; cbn; auto. Qed.

(** C4. Whatever the state and whatever events came before (keys, mouse
    rotation, teleports, earlier frames), when a frame completes the
    published camera position has |x| <= 15 and |z| <= 15. *)
Theorem C4_world_bounds_after_every_frame :
  forall (props : Props) (s : Controls) (es : list Event) (delta : R),
    let p := camera_position (run props (es ++ [Frame delta]) s) in
    Rabs (vx p) <= 15 /\ Rabs (vz p) <= 15.
Proof.
  intros props s es delta. rewrite run_app. cbn [run step].
  apply useFrame_in_bounds.
Qed.

(** ** Teleport *)

(** C5. [__teleportPlayer(x, z)] puts the camera, the smoothed position and
    the target position at [(x, 0 + playerHeight + heightOffset, z)] for the
    height offset in effect before the call, leaves that offset as it was,
    zeroes the vertical velocity and sets [canJump], so that a jump request
    right after the call is honoured. *)
Theorem C5_teleport_preserves_height_trim :
  forall (props : Props) (x z : R) (s : Controls),
    let s' := teleportPlayer props x z s in
    let h := 0 + playerHeight props + cameraHeightOffset s in
    camera_position s' = mkVector3 x h z /\
    currentPosition s' = mkVector3 x h z /\
    targetPosition s' = mkVector3 x h z /\
    cameraHeightOffset s' = cameraHeightOffset s /\
    vy (velocity s') = 0 /\
    canJump s' = true /\
    vy (velocity (handleKeyDown Space s')) = 15 / 100.
Proof.
  intros props x z s; cbn.
  repeat split; try reflexivity. lra.
Qed.

(** C6. A teleport issued from the minimap in teleport mode clamps the
    requested world coordinates to [-15, 15] before [__teleportPlayer]
    applies them: the position applied is the clamped request, and the
    published position is inside the world bounds right after the call. *)
Theorem C6_minimap_teleport_clamps :
  forall (props : Props) (m : Minimap) (rect : DOMRect)
         (clientX clientY : R) (s : Controls),
    isTeleportMode m = true ->
    hasCamera m = true ->
    canvasRect m = Some rect ->
    let worldX := (clientX - left rect) / (size m / 30) - 15 in
    let worldZ := (clientY - top rect) / (size m / 30) - 15 in
    let s' := snd (handleCanvasClick props m clientX clientY s) in
    s' = teleportPlayer props (clamp worldX (-15) 15) (clamp worldZ (-15) 15) s
    /\ vx (camera_position s') = clamp worldX (-15) 15
    /\ vz (camera_position s') = clamp worldZ (-15) 15
    /\ vx (currentPosition s') = clamp worldX (-15) 15
    /\ vz (currentPosition s') = clamp worldZ (-15) 15
    /\ Rabs (vx (camera_position s')) <= 15
    /\ Rabs (vz (camera_position s')) <= 15.
Proof.
  intros props m rect clientX clientY s Hmode Hcam Hrect.
  unfold handleCanvasClick. rewrite Hmode, Hcam, Hrect. cbn.
  repeat split; try reflexivity;
    apply Rabs_le; apply clamp_range; lra.
Qed.

Lemma C6_minimap_teleport_clamps_witness :
  let s' := snd (handleCanvasClick (default_props []) sample_minimap 510 0
                   (mount (default_props []))) in
  Rabs (vx (camera_position s')) <= 15 /\ Rabs (vz (camera_position s')) <= 15.
Proof.
  pose proof (C6_minimap_teleport_clamps (default_props []) sample_minimap
                (mkDOMRect 10 20) 510 0 (mount (default_props []))
                eq_refl eq_refl eq_refl) as H.
  cbv zeta in H. destruct H as (_ & _ & _ & _ & _ & Hx & Hz).
  split; assumption.
Defined.

(** ** Each frame phase as a chain of field assignments

    The phases that branch on the state are rewritten so that the branch
    sits inside the assigned value; projections then compute through them. *)

Lemma frame_upDown_nf s :
  frame_upDown s =
  set_cameraHeightOffset
    (let o := if moveUp s
              then Rmin maxHeightOffset (cameraHeightOffset s + 5 / 100)
              else cameraHeightOffset s in
     if moveDown s then Rmax minHeightOffset (o - 5 / 100) else o) s.
Proof.
  destruct s; unfold frame_upDown; cbn.
  destruct moveUp0, moveDown0; reflexivity.
Qed.

Lemma frame_move_nf props delta s :
  frame_move props delta s =
  let hit := checkCollision props s (targetPosition s) in
  let c := lerp (currentPosition s) (targetPosition s) (Rmin 1 (delta * 15)) in
  set_camera_position
    (if hit then camera_position s
     else mkVector3 (vx c) (vy (camera_position s)) (vz c))
    (set_currentPosition (if hit then camera_position s else c)
       (set_targetPosition
          (if hit then camera_position s else targetPosition s) s)).
Proof.
  unfold frame_move. cbv zeta.
  destruct (checkCollision props s (targetPosition s)); destruct s; reflexivity.
Qed.

Lemma frame_gravity_nf props s :
  frame_gravity props s =
  let off := cameraHeightOffset s in
  let v := vy (velocity s) in
  let y := vy (camera_position s) in
  let g := enableGravity props in
  let l := landed props off v y in
  set_canJump (if g then (if l then true else canJump s) else canJump s)
    (set_camera_position
       (mkVector3 (vx (camera_position s))
          (if g then (if l then 0 + playerHeight props + off
                      else y + (v - 1 / 100))
           else playerHeight props + off)
          (vz (camera_position s)))
       (set_baseHeightRef
          (if g then 0 + playerHeight props + off
           else playerHeight props + off)
          (set_velocity
             (mkVector3 (vx (velocity s))
                (if g then (if l then 0 else v - 1 / 100) else v)
                (vz (velocity s))) s))).
Proof.
  unfold frame_gravity, landed, getGroundHeight. cbv zeta.
  destruct s as [? ? ? ? ? ? ? [? ? ?] ? ? ? ? ? ? ? ? ? ? ? ? ? [? ? ?] ?].
  cbn. destruct (enableGravity props); cbn; [| reflexivity].
  match goal with |- context [if ?b then _ else _] => destruct b end;
    reflexivity.
Qed.

Lemma frame_bob_nf props delta s :
  frame_bob props delta s =
  let moving := enableCameraBob props && (moveForward s || moveBackward s) in
  let t := if moving then bobTime s + delta * bobSpeed else 0 in
  set_camera_position
    (mkVector3 (vx (camera_position s))
       (if moving then baseHeightRef s + sin t * bobAmount
        else if negb (enableGravity props) || canJump s
             then baseHeightRef s else vy (camera_position s))
       (vz (camera_position s)))
    (set_bobTime t s).
Proof.
  unfold frame_bob. cbv zeta.
  destruct s as [? ? ? ? ? ? ? ? ? ? ? ? ? ? ? ? ? ? ? ? ? [? ? ?] ?].
  cbn. destruct (enableCameraBob props && (moveForward0 || moveBackward0));
    cbn; [reflexivity |].
  destruct (negb (enableGravity props) || canJump0); reflexivity.
Qed.

Lemma frame_rotateKeys_nf delta s :
  frame_rotateKeys delta s =
  let turn (k : R) (e0 : Euler) :=
    let e := setFromQuaternion e0 (camera_quaternion s) in
    mkEuler (ex e) (ey e + k) (ez e) (eorder e) in
  let e1 := if rotateLeft s then turn (2 * delta) (euler s) else euler s in
  let t1 := if rotateLeft s then turn (2 * delta) (euler s)
            else targetRotation s in
  set_targetRotation (if rotateRight s then turn (- (2 * delta)) e1 else t1)
    (set_euler (if rotateRight s then turn (- (2 * delta)) e1 else e1) s).
Proof.
  unfold frame_rotateKeys. cbv zeta.
  destruct s; cbn. destruct rotateLeft0, rotateRight0; cbn; try reflexivity.
Qed.

(** ** Frame conditions: which phase leaves which view alone *)

Create Rewrite HintDb frame.

Ltac split_ifs :=
  repeat match goal with
         | |- context [if ?b then _ else _] =>
             lazymatch b with
             | context [if _ then _ else _] => fail
             | _ => destruct b
             end
         end.

Ltac view_tac :=
  intros;
  first [ rewrite frame_upDown_nf | rewrite frame_move_nf
        | rewrite frame_gravity_nf | rewrite frame_bob_nf
        | rewrite frame_rotateKeys_nf
        | unfold frame_smoothRotation, frame_direction, frame_candidate,
            frame_clamp ];
  cbv zeta;
  unfold keys_of, rotation_of, vertical_of, world_of, ground_of;
  cbn;
  try reflexivity;
  split_ifs; reflexivity.

(** Phases that leave [keys_of] alone. *)
Lemma keys_frame_rotateKeys delta s :
  keys_of (frame_rotateKeys delta s) = keys_of s.
Proof. view_tac. Qed.

Lemma keys_frame_smoothRotation delta s :
  keys_of (frame_smoothRotation delta s) = keys_of s.
Proof. view_tac. Qed.

Lemma keys_frame_direction s :
  keys_of (frame_direction s) = keys_of s.
Proof. view_tac. Qed.

Lemma keys_frame_candidate props delta s :
  keys_of (frame_candidate props delta s) = keys_of s.
Proof. view_tac. Qed.

Lemma keys_frame_move props delta s :
  keys_of (frame_move props delta s) = keys_of s.
Proof. view_tac. Qed.

Lemma keys_frame_upDown s :
  keys_of (frame_upDown s) = keys_of s.
Proof. view_tac. Qed.

Lemma keys_frame_gravity props s :
  keys_of (frame_gravity props s) = keys_of s.
Proof. view_tac. Qed.

Lemma keys_frame_bob props delta s :
  keys_of (frame_bob props delta s) = keys_of s.
Proof. view_tac. Qed.

Lemma keys_frame_clamp s :
  keys_of (frame_clamp s) = keys_of s.
Proof. view_tac. Qed.

(** Phases that leave [world_of] alone. *)
Lemma world_frame_rotateKeys delta s :
  world_of (frame_rotateKeys delta s) = world_of s.
Proof. view_tac. Qed.

Lemma world_frame_smoothRotation delta s :
  world_of (frame_smoothRotation delta s) = world_of s.
Proof. view_tac. Qed.

Lemma world_frame_direction s :
  world_of (frame_direction s) = world_of s.
Proof. view_tac. Qed.

Lemma world_frame_candidate props delta s :
  world_of (frame_candidate props delta s) = world_of s.
Proof. view_tac. Qed.

Lemma world_frame_move props delta s :
  world_of (frame_move props delta s) = world_of s.
Proof. view_tac. Qed.

Lemma world_frame_upDown s :
  world_of (frame_upDown s) = world_of s.
Proof. view_tac. Qed.

Lemma world_frame_gravity props s :
  world_of (frame_gravity props s) = world_of s.
Proof. view_tac. Qed.

Lemma world_frame_bob props delta s :
  world_of (frame_bob props delta s) = world_of s.
Proof. view_tac. Qed.

Lemma world_frame_clamp s :
  world_of (frame_clamp s) = world_of s.
Proof. view_tac. Qed.

(** Phases that leave [rotation_of] alone. *)
Lemma rotation_frame_direction s :
  rotation_of (frame_direction s) = rotation_of s.
Proof. view_tac. Qed.

Lemma rotation_frame_candidate props delta s :
  rotation_of (frame_candidate props delta s) = rotation_of s.
Proof. view_tac. Qed.

Lemma rotation_frame_move props delta s :
  rotation_of (frame_move props delta s) = rotation_of s.
Proof. view_tac. Qed.

Lemma rotation_frame_upDown s :
  rotation_of (frame_upDown s) = rotation_of s.
Proof. view_tac. Qed.

Lemma rotation_frame_gravity props s :
  rotation_of (frame_gravity props s) = rotation_of s.
Proof. view_tac. Qed.

Lemma rotation_frame_bob props delta s :
  rotation_of (frame_bob props delta s) = rotation_of s.
Proof. view_tac. Qed.

Lemma rotation_frame_clamp s :
  rotation_of (frame_clamp s) = rotation_of s.
Proof. view_tac. Qed.

(** Phases that leave [vertical_of] alone. *)
Lemma vertical_frame_rotateKeys delta s :
  vertical_of (frame_rotateKeys delta s) = vertical_of s.
Proof. view_tac. Qed.

Lemma vertical_frame_smoothRotation delta s :
  vertical_of (frame_smoothRotation delta s) = vertical_of s.
Proof. view_tac. Qed.

Lemma vertical_frame_direction s :
  vertical_of (frame_direction s) = vertical_of s.
Proof. view_tac. Qed.

Lemma vertical_frame_candidate props delta s :
  vertical_of (frame_candidate props delta s) = vertical_of s.
Proof. view_tac. Qed.

Lemma vertical_frame_move props delta s :
  vertical_of (frame_move props delta s) = vertical_of s.
Proof. view_tac. Qed.

Lemma vertical_frame_clamp s :
  vertical_of (frame_clamp s) = vertical_of s.
Proof. view_tac. Qed.

(** Phases that leave [ground_of] alone. *)
Lemma ground_frame_rotateKeys delta s :
  ground_of (frame_rotateKeys delta s) = ground_of s.
Proof. view_tac. Qed.

Lemma ground_frame_smoothRotation delta s :
  ground_of (frame_smoothRotation delta s) = ground_of s.
Proof. view_tac. Qed.

Lemma ground_frame_direction s :
  ground_of (frame_direction s) = ground_of s.
Proof. view_tac. Qed.

Lemma ground_frame_upDown s :
  ground_of (frame_upDown s) = ground_of s.
Proof. view_tac. Qed.

Lemma ground_frame_gravity props s :
  ground_of (frame_gravity props s) = ground_of s.
Proof. view_tac. Qed.

Lemma ground_frame_bob props delta s :
  ground_of (frame_bob props delta s) = ground_of s.
Proof. view_tac. Qed.

#[export] Hint Rewrite
  keys_frame_rotateKeys keys_frame_smoothRotation keys_frame_direction
  keys_frame_candidate keys_frame_move keys_frame_upDown keys_frame_gravity
  keys_frame_bob keys_frame_clamp world_frame_rotateKeys
  world_frame_smoothRotation world_frame_direction world_frame_candidate
  world_frame_move world_frame_upDown world_frame_gravity world_frame_bob
  world_frame_clamp rotation_frame_direction rotation_frame_candidate
  rotation_frame_move rotation_frame_upDown rotation_frame_gravity
  rotation_frame_bob rotation_frame_clamp vertical_frame_rotateKeys
  vertical_frame_smoothRotation vertical_frame_direction
  vertical_frame_candidate vertical_frame_move vertical_frame_clamp
  ground_frame_rotateKeys ground_frame_smoothRotation ground_frame_direction
  ground_frame_upDown ground_frame_gravity ground_frame_bob
  : frame.

(** ** The frame callback follows the vertical machine *)

Lemma vertical_frame_upDown s :
  vertical_of (frame_upDown s) = v_upDown (keys_of s) (vertical_of s).
Proof. rewrite frame_upDown_nf. reflexivity. Qed.

Lemma vertical_frame_gravity props s :
  vertical_of (frame_gravity props s) = v_gravity props (vertical_of s).
Proof.
  rewrite frame_gravity_nf. unfold v_gravity, vertical_of. cbn.
  destruct (enableGravity props); [| reflexivity].
  destruct (landed props _ _ _); reflexivity.
Qed.

Lemma vertical_frame_bob props delta s :
  vertical_of (frame_bob props delta s) =
  v_bobbing props delta (keys_of s) (vertical_of s).
Proof.
  rewrite frame_bob_nf. unfold v_bobbing, vertical_of. cbn.
  destruct (enableCameraBob props && _); reflexivity.
Qed.

Lemma keys_useFrame props delta s :
  keys_of (useFrame props delta s) = keys_of s.
Proof. unfold useFrame. cbv zeta. autorewrite with frame. reflexivity. Qed.

Lemma world_useFrame props delta s :
  world_of (useFrame props delta s) = world_of s.
Proof. unfold useFrame. cbv zeta. autorewrite with frame. reflexivity. Qed.

(** The vertical view after a frame depends on the vertical view and the
    keys before it, and on nothing else. *)
Lemma vertical_useFrame props delta s :
  vertical_of (useFrame props delta s) =
  vertical_step props delta (keys_of s) (vertical_of s).
Proof.
  unfold useFrame, vertical_step. cbv zeta.
  rewrite vertical_frame_clamp, vertical_frame_bob, vertical_frame_gravity,
    vertical_frame_upDown.
  autorewrite with frame. reflexivity.
Qed.

Lemma keys_run_frames props deltas s :
  keys_of (run_frames props deltas s) = keys_of s.
Proof.
  revert s; induction deltas as [| d ds IH]; intros s; cbn; [reflexivity |].
  rewrite IH. apply keys_useFrame.
Qed.

Lemma vertical_run_frames props deltas s :
  vertical_of (run_frames props deltas s) =
  vertical_run props deltas (keys_of s) (vertical_of s).
Proof.
  revert s; induction deltas as [| d ds IH]; intros s; cbn; [reflexivity |].
  rewrite IH, keys_useFrame, vertical_useFrame. reflexivity.
Qed.

(** ** Jump and landing *)

Lemma vertical_step_still props d k w :
  keys_still k -> vertical_step props d k w = vertical_step props 0 k w.
Proof.
  intros (Hf & Hb & _). unfold vertical_step, v_bobbing.
  rewrite Hf, Hb, andb_false_r. reflexivity.
Qed.

Lemma vertical_run_still props deltas k w :
  keys_still k ->
  vertical_run props deltas k w =
  vertical_iter props k (List.length deltas) w.
Proof.
  intros Hk. revert w.
  induction deltas as [| d ds IH]; intros w; cbn; [reflexivity |].
  rewrite IH, (vertical_step_still props d k w Hk). reflexivity.
Qed.

(** One frame in the air: gravity is integrated, nothing else moves. *)
Lemma airborne_step props k y v off b t :
  enableGravity props = true -> keys_still k ->
  ~ (y <= 0 + playerHeight props + off /\ v - 1 / 100 <= 0) ->
  vertical_step props 0 k (mkVertical y v false off b t) =
  mkVertical (y + (v - 1 / 100)) (v - 1 / 100) false off
             (0 + playerHeight props + off) 0.
Proof.
  intros Hg (Hf & Hb & Hu & Hd) Hair.
  unfold vertical_step, v_bobbing, v_gravity, v_upDown, landed. cbn.
  rewrite Hf, Hb, Hu, Hd, Hg, andb_false_r. cbn.
  destruct (Rleb y _ && Rleb (v - 1 / 100) 0) eqn:E; cbn; [| reflexivity].
  apply andb_true_iff in E. destruct E as [E1 E2].
  apply Rleb_true in E1. apply Rleb_true in E2. tauto.
Qed.

(** The frame that meets the ground: height pinned, velocity zeroed, jump
    re-enabled. *)
Lemma landing_step props k y v c off b t :
  enableGravity props = true -> keys_still k ->
  y <= 0 + playerHeight props + off -> v - 1 / 100 <= 0 ->
  vertical_step props 0 k (mkVertical y v c off b t) =
  mkVertical (0 + playerHeight props + off) 0 true off
             (0 + playerHeight props + off) 0.
Proof.
  intros Hg (Hf & Hb & Hu & Hd) Hy Hv.
  unfold vertical_step, v_bobbing, v_gravity, v_upDown, landed. cbn.
  rewrite Hf, Hb, Hu, Hd, Hg, andb_false_r. cbn.
  apply Rleb_true in Hy. apply Rleb_true in Hv. rewrite Hy, Hv. cbn.
  reflexivity.
Qed.

(** Thirty frames after a jump from rest the player is back on the ground. *)
Lemma jump_arc props k off b t :
  enableGravity props = true -> keys_still k ->
  vertical_iter props k 30
    (mkVertical (0 + playerHeight props + off) (15 / 100) false off b t) =
  mkVertical (0 + playerHeight props + off) 0 true off
             (0 + playerHeight props + off) 0.
Proof.
  intros Hg Hk.
  do 29 (cbn [vertical_iter];
         rewrite (airborne_step props k) by (auto; intros [? ?]; lra)).
  cbn [vertical_iter].
  rewrite (landing_step props k) by (auto; lra).
  reflexivity.
Qed.

Lemma jump_vertical s :
  canJump s = true ->
  vertical_of (handleKeyDown Space s) =
  mkVertical (vy (camera_position s)) (vy (velocity s) + 15 / 100) false
             (cameraHeightOffset s) (baseHeightRef s) (bobTime s).
Proof. intros H. cbn. rewrite H. reflexivity. Qed.

Lemma jump_keys s : keys_of (handleKeyDown Space s) = keys_of s.
Proof. cbn. destruct (canJump s); reflexivity. Qed.

(** C8. From rest on the ground (jump-eligible, zero vertical velocity,
    camera at the ground target height) with gravity enabled, a jump
    request gives a positive vertical velocity and clears jump eligibility;
    the next frame leaves the ground; and with no translation or height key
    held, after thirty frames of any durations the player is jump-eligible
    again with zero vertical velocity at the ground target height. *)
Theorem C8_jump_round_trip :
  forall (props : Props) (s : Controls),
    enableGravity props = true ->
    keys_still (keys_of s) ->
    canJump s = true ->
    vy (velocity s) = 0 ->
    vy (camera_position s) = 0 + playerHeight props + cameraHeightOffset s ->
    let ground := 0 + playerHeight props + cameraHeightOffset s in
    let j := handleKeyDown Space s in
    (vy (velocity j) > 0 /\ canJump j = false) /\
    (forall d, let a := useFrame props d j in
               canJump a = false /\ vy (velocity a) > 0 /\
               vy (camera_position a) > ground) /\
    (forall deltas : list R,
       List.length deltas = 30%nat ->
       let s' := run_frames props deltas j in
       canJump s' = true /\ vy (velocity s') = 0 /\
       vy (camera_position s') = ground).
Proof.
  intros props s Hg Hk Hc Hv Hy ground j.
  assert (Hj : vertical_of j =
               mkVertical ground (15 / 100) false (cameraHeightOffset s)
                          (baseHeightRef s) (bobTime s)).
  { unfold j. rewrite (jump_vertical s Hc), Hv, Hy.
    unfold ground. f_equal. lra. }
  assert (Hkj : keys_of j = keys_of s) by apply jump_keys.
  split; [| split].
  - change (vy (velocity j)) with (v_velocity (vertical_of j)).
    change (canJump j) with (v_canJump (vertical_of j)).
    rewrite Hj. cbn. split; [lra | reflexivity].
  - intros d a.
    change (canJump a) with (v_canJump (vertical_of a)).
    change (vy (velocity a)) with (v_velocity (vertical_of a)).
    change (vy (camera_position a)) with (v_y (vertical_of a)).
    unfold a. rewrite vertical_useFrame, Hkj, Hj.
    rewrite (vertical_step_still props d _ _ Hk).
    unfold ground.
    rewrite (airborne_step props (keys_of s)) by (auto; intros [? ?]; lra).
    cbn. repeat split; lra.
  - intros deltas Hlen s'.
    change (canJump s') with (v_canJump (vertical_of s')).
    change (vy (velocity s')) with (v_velocity (vertical_of s')).
    change (vy (camera_position s')) with (v_y (vertical_of s')).
    unfold s'. rewrite vertical_run_frames, Hkj, Hj.
    rewrite (vertical_run_still props deltas _ _ Hk), Hlen.
    unfold ground. rewrite (jump_arc props (keys_of s)) by assumption.
    cbn. auto.
Qed.

Lemma C8_jump_round_trip_witness :
  let s' := run_frames (default_props []) (repeat (1 / 60) 30)
              (handleKeyDown Space grounded_sample) in
  canJump s' = true /\ vy (velocity s') = 0 /\
  vy (camera_position s') = 0 + 16 / 10 + 0.
Proof.
  exact (proj2 (proj2 (C8_jump_round_trip (default_props []) grounded_sample
                         eq_refl
                         (conj eq_refl (conj eq_refl (conj eq_refl eq_refl)))
                         eq_refl eq_refl eq_refl))
               (repeat (1 / 60) 30) eq_refl).
Defined.

(** ** Camera bob *)

Lemma v_gravity_offset props w :
  v_offset (v_gravity props w) = v_offset w.
Proof.
  unfold v_gravity. destruct (enableGravity props); [| reflexivity].
  destruct (landed props _ _ _); reflexivity.
Qed.

Lemma v_gravity_bob props w : v_bob (v_gravity props w) = v_bob w.
Proof.
  unfold v_gravity. destruct (enableGravity props); [| reflexivity].
  destruct (landed props _ _ _); reflexivity.
Qed.

Lemma v_gravity_base props w :
  v_base (v_gravity props w) = playerHeight props + v_offset w.
Proof.
  unfold v_gravity. destruct (enableGravity props); [| reflexivity].
  destruct (landed props _ _ _); cbn; lra.
Qed.

(** While bobbing, the published height is the base height plus the bob
    offset, whatever gravity computed. *)
Lemma vertical_step_bobbing props delta k w :
  enableCameraBob props = true -> keys_moving k = true ->
  let w' := vertical_step props delta k w in
  v_offset w' = v_offset (v_upDown k w) /\
  v_bob w' = v_bob w + delta * bobSpeed /\
  v_base w' = playerHeight props + v_offset w' /\
  v_y w' = v_base w' + sin (v_bob w') * bobAmount.
Proof.
  intros Hb Hm. unfold keys_moving in Hm.
  unfold vertical_step, v_bobbing. rewrite Hb, Hm. cbn.
  rewrite v_gravity_offset, v_gravity_bob, v_gravity_base.
  repeat split; reflexivity.
Qed.

Lemma vertical_step_height_sync props delta k a b :
  enableCameraBob props = true -> keys_moving k = true ->
  height_sync a b ->
  height_sync (vertical_step props delta k a) (vertical_step props delta k b).
Proof.
  intros Hb Hm (Hy & Ho & Ht).
  destruct (vertical_step_bobbing props delta k a Hb Hm) as (Oa & Ta & Ba & Ya).
  destruct (vertical_step_bobbing props delta k b Hb Hm) as (Ob & Tb & Bb & Yb).
  assert (Hoff : v_offset (vertical_step props delta k a) =
                 v_offset (vertical_step props delta k b)).
  { rewrite Oa, Ob. unfold v_upDown. cbn. rewrite Ho. reflexivity. }
  unfold height_sync. rewrite Ya, Yb, Ba, Bb, Ta, Tb, Hoff, Ht.
  repeat split; reflexivity.
Qed.

Lemma vertical_run_height_sync props deltas k a b :
  enableCameraBob props = true -> keys_moving k = true ->
  height_sync a b ->
  height_sync (vertical_run props deltas k a) (vertical_run props deltas k b).
Proof.
  intros Hb Hm. revert a b.
  induction deltas as [| d ds IH]; intros a b H; cbn; [exact H |].
  apply IH. apply vertical_step_height_sync; assumption.
Qed.

(** C10. With camera bob enabled and forward or backward held, a frame
    publishes [position.y = baseHeight + sin(bobPhase) * bobAmount] for the
    base height and the advanced bob phase of that frame, whatever the
    gravity step computed.  So over any number of frames with the keys
    held, a run that starts with a jump request publishes the same height
    as the run without it, while (under gravity, from rest) the jump has
    made the vertical velocity after the first frame 0.14 instead of 0. *)
Theorem C10_bob_overrides_vertical_physics :
  forall (props : Props) (s : Controls),
    enableCameraBob props = true ->
    moveForward s || moveBackward s = true ->
    (forall delta,
       let s' := useFrame props delta s in
       bobTime s' = bobTime s + delta * bobSpeed /\
       baseHeightRef s' = playerHeight props + cameraHeightOffset s' /\
       vy (camera_position s') =
       baseHeightRef s' + sin (bobTime s') * bobAmount) /\
    (forall deltas,
       vy (camera_position
             (run_frames props deltas (handleKeyDown Space s))) =
       vy (camera_position (run_frames props deltas s))) /\
    (enableGravity props = true -> canJump s = true ->
     vy (velocity s) = 0 ->
     forall delta,
       vy (velocity (useFrame props delta (handleKeyDown Space s))) =
       14 / 100 /\
       vy (velocity (useFrame props delta s)) <= 0).
Proof.
  intros props s Hb Hm.
  assert (Hk : keys_moving (keys_of s) = true) by exact Hm.
  split; [| split].
  - intros delta s'.
    destruct (vertical_step_bobbing props delta (keys_of s) (vertical_of s)
                Hb Hk) as (_ & Ht & Hbase & Hy).
    rewrite <- vertical_useFrame in Ht, Hbase, Hy.
    exact (conj Ht (conj Hbase Hy)).
  - intros deltas.
    change (v_y (vertical_of
                   (run_frames props deltas (handleKeyDown Space s))) =
            v_y (vertical_of (run_frames props deltas s))).
    rewrite !vertical_run_frames, jump_keys.
    apply vertical_run_height_sync; try assumption.
    unfold height_sync. cbn. destruct (canJump s); repeat split; reflexivity.
  - intros Hg Hc Hv delta.
    change (v_velocity (vertical_of
                          (useFrame props delta (handleKeyDown Space s))) =
            14 / 100 /\
            v_velocity (vertical_of (useFrame props delta s)) <= 0).
    rewrite !vertical_useFrame, jump_keys, (jump_vertical s Hc), Hv.
    unfold keys_moving in Hk.
    unfold vertical_step, v_bobbing. rewrite Hb, Hk. cbn.
    unfold v_gravity. rewrite Hg. cbn. unfold landed. cbn.
    replace (Rleb (0 + 15 / 100 - 1 / 100) 0) with false
      by (symmetry; apply Rleb_false; lra).
    rewrite andb_false_r. cbn. split; [lra |].
    destruct (Rleb _ _ && Rleb _ _); cbn; lra.
Qed.

Lemma C10_bob_overrides_vertical_physics_witness :
  vy (camera_position
        (run_frames (default_props []) [1 / 60; 1 / 60; 1 / 30]
           (handleKeyDown Space walking_sample))) =
  vy (camera_position
        (run_frames (default_props []) [1 / 60; 1 / 60; 1 / 30]
           walking_sample)).
Proof.
  exact (proj1 (proj2 (C10_bob_overrides_vertical_physics
                         (default_props []) walking_sample
                         eq_refl eq_refl))
               [1 / 60; 1 / 60; 1 / 30]).
Defined.

(** ** The frame callback follows the rotation machine *)

Lemma rotation_frame_rotateKeys delta s :
  rotation_of (frame_rotateKeys delta s) =
  r_keys delta (keys_of s) (rotation_of s).
Proof.
  rewrite frame_rotateKeys_nf. unfold r_keys, r_turn, rotation_of. cbn.
  destruct (rotateLeft s), (rotateRight s); reflexivity.
Qed.

Lemma rotation_frame_smoothRotation delta s :
  rotation_of (frame_smoothRotation delta s) =
  r_smooth delta (rotation_of s).
Proof. reflexivity. Qed.

(** The rotation view after a frame depends on the rotation view and the
    keys before it, and on nothing else. *)
Lemma rotation_useFrame props delta s :
  rotation_of (useFrame props delta s) =
  rotation_step delta (keys_of s) (rotation_of s).
Proof.
  unfold useFrame, rotation_step. cbv zeta. autorewrite with frame.
  rewrite rotation_frame_smoothRotation, rotation_frame_rotateKeys.
  reflexivity.
Qed.

Lemma normalizedDeltaY_cases d :
  (d > PI /\ d - 2 * PI < - PI /\ normalizedDeltaY d = d) \/
  (d > PI /\ - PI <= d - 2 * PI /\ normalizedDeltaY d = d - 2 * PI) \/
  (d <= PI /\ d < - PI /\ normalizedDeltaY d = d + 2 * PI) \/
  (d <= PI /\ - PI <= d /\ normalizedDeltaY d = d).
Proof.
  unfold normalizedDeltaY, Rgtb. cbv zeta.
  destruct (Rltb PI d) eqn:E1.
  - apply Rltb_true in E1.
    destruct (Rltb (d - 2 * PI) (- PI)) eqn:E2.
    + apply Rltb_true in E2. left. repeat split; lra.
    + apply Rltb_false in E2. right; left. repeat split; lra.
  - apply Rltb_false in E1.
    destruct (Rltb d (- PI)) eqn:E2.
    + apply Rltb_true in E2. right; right; left. repeat split; lra.
    + apply Rltb_false in E2. right; right; right. repeat split; lra.
Qed.

(** The one-turn fold reaches [-PI, PI] exactly from [-3 PI, 3 PI]. *)
Lemma normalizedDeltaY_range d :
  - (3 * PI) <= d <= 3 * PI ->
  - PI <= normalizedDeltaY d <= PI /\
  (normalizedDeltaY d = d \/ normalizedDeltaY d = d - 2 * PI \/
   normalizedDeltaY d = d + 2 * PI).
Proof.
  intros [Hl Hh]. pose proof PI_RGT_0 as Hpi.
  destruct (normalizedDeltaY_cases d)
    as [(? & ? & E) | [(? & ? & E) | [(? & ? & E) | (? & ? & E)]]];
    rewrite E; split; try lra; auto.
Qed.

(** What a frame does to the current orientation. *)
Lemma useFrame_currentRotation props delta s :
  let s' := useFrame props delta s in
  let f := Rmin 1 (15 * delta) in
  ex (currentRotation s') =
  ex (currentRotation s) +
  (ex (targetRotation s') - ex (currentRotation s)) * f /\
  ey (currentRotation s') =
  ey (currentRotation s) +
  normalizedDeltaY (ey (targetRotation s') - ey (currentRotation s)) * f.
Proof.
  intros s' f.
  assert (Hc : currentRotation s' =
               r_current (rotation_step delta (keys_of s) (rotation_of s))).
  { unfold s'. rewrite <- (rotation_useFrame props). reflexivity. }
  assert (Ht : targetRotation s' =
               r_target (rotation_step delta (keys_of s) (rotation_of s))).
  { unfold s'. rewrite <- (rotation_useFrame props). reflexivity. }
  assert (Hcur : r_current (r_keys delta (keys_of s) (rotation_of s)) =
                 currentRotation s).
  { unfold r_keys. cbn. destruct (rotateRight s); reflexivity. }
  assert (Hf : rotLerpFactor delta = f).
  { unfold rotLerpFactor, f. f_equal. lra. }
  rewrite Hc, Ht. unfold rotation_step, r_smooth. cbn.
  rewrite Hcur, Hf. split; reflexivity.
Qed.

(** With no rotation key held the target orientation is left alone. *)
Lemma useFrame_targetRotation_idle props delta s :
  rotateLeft s = false -> rotateRight s = false ->
  targetRotation (useFrame props delta s) = targetRotation s.
Proof.
  intros Hl Hr.
  change (r_target (rotation_of (useFrame props delta s)) = targetRotation s).
  rewrite rotation_useFrame. unfold rotation_step, r_smooth, r_keys. cbn.
  rewrite Hl, Hr. reflexivity.
Qed.

(** C7, as the code has it.  Every frame moves pitch and yaw of the current
    orientation toward the target left by the key handling of that frame
    by the linear factor [min(1, 15 * delta)]; the yaw difference is first
    folded by one turn at most: a difference in [-3 PI, 3 PI] is replaced by
    the congruent one in [-PI, PI]. *)
Theorem C7_rotation_smoothing_law :
  forall (props : Props) (delta : R) (s : Controls),
    let s' := useFrame props delta s in
    let f := Rmin 1 (15 * delta) in
    let dx := ex (targetRotation s') - ex (currentRotation s) in
    let dy := ey (targetRotation s') - ey (currentRotation s) in
    ex (currentRotation s') = ex (currentRotation s) + dx * f /\
    ey (currentRotation s') =
    ey (currentRotation s) + normalizedDeltaY dy * f /\
    (- (3 * PI) <= dy <= 3 * PI ->
     - PI <= normalizedDeltaY dy <= PI /\
     (normalizedDeltaY dy = dy \/ normalizedDeltaY dy = dy - 2 * PI \/
      normalizedDeltaY dy = dy + 2 * PI)).
Proof.
  intros props delta s s' f dx dy.
  destruct (useFrame_currentRotation props delta s) as [Hx Hy].
  split; [exact Hx | split; [exact Hy |]].
  apply normalizedDeltaY_range.
Qed.

(** C7 fails as stated: with [delta = 1/10] the frame reaches the target
    pitch at once, which no exponential factor does; and a yaw difference of
    two turns is folded to one turn, which is outside [(-PI, PI]]. *)
Lemma C7_counterexample :
  (~ exists k : R,
       ex (currentRotation (useFrame (default_props []) (1 / 10)
                              pitched_sample)) =
       spec_blend k (1 / 10) (ex (currentRotation pitched_sample))
                  (ex (targetRotation pitched_sample))) /\
  ey (currentRotation (useFrame (default_props []) (1 / 10) wound_sample)) -
  ey (currentRotation wound_sample) = 2 * PI /\
  ~ (- PI < normalizedDeltaY (ey (targetRotation wound_sample) -
                              ey (currentRotation wound_sample)) <= PI).
Proof.
  pose proof PI_RGT_0 as Hpi.
  assert (Hn4 : normalizedDeltaY (0 - - (4 * PI)) = 2 * PI).
  { destruct (normalizedDeltaY_cases (0 - - (4 * PI)))
      as [(? & ? & E) | [(? & ? & E) | [(? & ? & E) | (? & ? & E)]]];
      rewrite E; lra. }
  assert (Hf : Rmin 1 (15 * (1 / 10)) = 1).
  { destruct (Rmin_cases 1 (15 * (1 / 10))) as [[_ E] | [? _]]; [exact E | lra]. }
  split; [| split].
  - intros [k Hk].
    destruct (useFrame_currentRotation (default_props []) (1 / 10)
                pitched_sample) as (Hx & _). cbv zeta in Hx.
    rewrite Hx in Hk. clear Hx. rewrite Hf in Hk.
    rewrite useFrame_targetRotation_idle in Hk by reflexivity.
    unfold spec_blend in Hk. cbn in Hk.
    pose proof (exp_pos (- (k * (1 / 10)))). lra.
  - destruct (useFrame_currentRotation (default_props []) (1 / 10)
                wound_sample) as (_ & Hy). cbv zeta in Hy.
    rewrite Hy. clear Hy. rewrite Hf.
    rewrite useFrame_targetRotation_idle by reflexivity.
    cbn. rewrite Hn4. lra.
  - cbn. rewrite Hn4. lra.
Qed.

(** ** Candidate position and the move phase *)

Lemma useFrame_pre_clamp props delta s :
  useFrame props delta s = frame_clamp (pre_clamp props delta s).
Proof. reflexivity. Qed.

Lemma pre_move_camera_position props delta s :
  camera_position (pre_move props delta s) = camera_position s.
Proof.
  unfold pre_move, frame_candidate, frame_direction, frame_smoothRotation.
  rewrite frame_rotateKeys_nf. reflexivity.
Qed.

Lemma pre_move_currentPosition props delta s :
  currentPosition (pre_move props delta s) = currentPosition s.
Proof.
  unfold pre_move, frame_candidate, frame_direction, frame_smoothRotation.
  rewrite frame_rotateKeys_nf. reflexivity.
Qed.

Lemma pre_move_world props delta s :
  world_of (pre_move props delta s) = world_of s.
Proof. unfold pre_move. autorewrite with frame. reflexivity. Qed.

Lemma isOnRoad_world a b x z :
  world_of a = world_of b -> isOnRoad a x z = isOnRoad b x z.
Proof. unfold world_of, isOnRoad. intros H. injection H as _ ->. reflexivity. Qed.

Lemma checkCollision_world props a b p :
  world_of a = world_of b -> checkCollision props a p = checkCollision props b p.
Proof.
  unfold world_of, checkCollision. intros H. injection H as -> _. reflexivity.
Qed.

Lemma candidate_eq props delta s :
  candidate props delta s = add (camera_position s) (moveVector props delta s).
Proof.
  unfold candidate, moveVector, pre_move, rotation_step.
  rewrite <- rotation_frame_rotateKeys, <- rotation_frame_smoothRotation.
  unfold frame_candidate, frame_direction, frame_smoothRotation.
  rewrite frame_rotateKeys_nf. reflexivity.
Qed.

Lemma collides_eq props delta s :
  collides props delta s =
  checkCollision props s (add (camera_position s) (moveVector props delta s)).
Proof.
  unfold collides. rewrite candidate_eq.
  apply checkCollision_world, pre_move_world.
Qed.

Lemma frame_move_ground_free props delta u s :
  checkCollision props u (targetPosition u) = false ->
  currentPosition u = currentPosition s ->
  ground_of (frame_move props delta u) =
  (vx (lerp (currentPosition s) (targetPosition u) (Rmin 1 (delta * 15))),
   vz (lerp (currentPosition s) (targetPosition u) (Rmin 1 (delta * 15))),
   lerp (currentPosition s) (targetPosition u) (Rmin 1 (delta * 15)),
   targetPosition u).
Proof.
  intros Hfree Hcur.
  rewrite frame_move_nf. cbv zeta. rewrite Hfree, Hcur. reflexivity.
Qed.

Lemma frame_move_ground_hit props delta u s :
  checkCollision props u (targetPosition u) = true ->
  camera_position u = camera_position s ->
  ground_of (frame_move props delta u) =
  (vx (camera_position s), vz (camera_position s),
   camera_position s, camera_position s).
Proof.
  intros Hhit Hcam.
  rewrite frame_move_nf. cbv zeta. rewrite Hhit, Hcam. reflexivity.
Qed.

Lemma tail_ground props delta m :
  ground_of (frame_bob props delta (frame_gravity props (frame_upDown m))) =
  ground_of m.
Proof. autorewrite with frame; reflexivity. Qed.

Lemma ground_of_inj s a b c d :
  ground_of s = (a, b, c, d) ->
  vx (camera_position s) = a /\ vz (camera_position s) = b /\
  currentPosition s = c /\ targetPosition s = d.
Proof. unfold ground_of. intros H. injection H as -> -> -> ->. auto. Qed.

(** The positions after the move phase when the candidate is free. *)
Lemma pre_clamp_free props delta s :
  collides props delta s = false ->
  let c := lerp (currentPosition s) (candidate props delta s)
                (Rmin 1 (delta * 15)) in
  let t := pre_clamp props delta s in
  vx (camera_position t) = vx c /\ vz (camera_position t) = vz c /\
  currentPosition t = c /\ targetPosition t = candidate props delta s.
Proof.
  intros Hfree c t.
  apply ground_of_inj.
  unfold t, pre_clamp. rewrite tail_ground.
  apply frame_move_ground_free.
  - exact Hfree.
  - apply pre_move_currentPosition.
Qed.

(** The positions after the move phase when the candidate collides. *)
Lemma pre_clamp_hit props delta s :
  collides props delta s = true ->
  let t := pre_clamp props delta s in
  vx (camera_position t) = vx (camera_position s) /\
  vz (camera_position t) = vz (camera_position s) /\
  currentPosition t = camera_position s /\
  targetPosition t = camera_position s.
Proof.
  intros Hhit t.
  apply ground_of_inj.
  unfold t, pre_clamp. rewrite tail_ground.
  apply frame_move_ground_hit.
  - exact Hhit.
  - apply pre_move_camera_position.
Qed.

Lemma frame_clamp_ground s :
  let s' := frame_clamp s in
  vx (camera_position s') = clamp (vx (camera_position s)) (-15) 15 /\
  vz (camera_position s') = clamp (vz (camera_position s)) (-15) 15 /\
  currentPosition s' = currentPosition s /\
  targetPosition s' = targetPosition s.
Proof. unfold frame_clamp, clamp, worldSize. cbn. repeat split; reflexivity. Qed.

Lemma frame_clamp_in_bounds_id s :
  in_bounds (camera_position s) ->
  vx (camera_position (frame_clamp s)) = vx (camera_position s) /\
  vz (camera_position (frame_clamp s)) = vz (camera_position s).
Proof.
  intros [Hx Hz]. apply Rabs_le_range in Hx. apply Rabs_le_range in Hz.
  destruct (frame_clamp_ground s) as (-> & -> & _).
  unfold clamp. split; apply clamp_id; lra.
Qed.

(** ** Collision rejection *)

Lemma handleKeyDown_camera_position code s :
  camera_position (handleKeyDown code s) = camera_position s.
Proof. destruct code; cbn; try reflexivity. destruct (canJump s); reflexivity. Qed.

Lemma handleKeyUp_camera_position code s :
  camera_position (handleKeyUp code s) = camera_position s.
Proof. destruct code; reflexivity. Qed.

Lemma processRotation_camera_position ax ay s :
  camera_position (processRotation ax ay s) = camera_position s.
Proof. unfold processRotation. destruct (_ || _); reflexivity. Qed.

(** A frame whose candidate collides, started inside the world bounds. *)
Lemma useFrame_rejected props delta s :
  in_bounds (camera_position s) ->
  collides props delta s = true ->
  let s' := useFrame props delta s in
  vx (camera_position s') = vx (camera_position s) /\
  vz (camera_position s') = vz (camera_position s) /\
  currentPosition s' = camera_position s /\
  targetPosition s' = camera_position s.
Proof.
  intros Hin Hhit s'.
  destruct (pre_clamp_hit props delta s Hhit) as (Hx & Hz & Hc & Ht).
  unfold s'. rewrite useFrame_pre_clamp.
  destruct (frame_clamp_ground (pre_clamp props delta s))
    as (_ & _ & -> & ->).
  destruct (frame_clamp_in_bounds_id (pre_clamp props delta s)) as (-> & ->).
  { unfold in_bounds. rewrite Hx, Hz. exact Hin. }
  auto.
Qed.

Lemma all_rejected_position props es :
  forall s,
    in_bounds (camera_position s) ->
    all_rejected props es s ->
    vx (camera_position (run props es s)) = vx (camera_position s) /\
    vz (camera_position (run props es s)) = vz (camera_position s).
Proof.
  induction es as [| e es IH]; intros s Hin Hrej; cbn; [auto |].
  destruct e as [delta | code | code | ax ay | tx tz]; cbn in Hrej |- *.
  - destruct Hrej as [Hhit Hrest].
    destruct (useFrame_rejected props delta s Hin Hhit) as (Hx & Hz & _).
    cbv zeta in Hx, Hz.
    destruct (IH (useFrame props delta s)) as [Hx' Hz'];
      [unfold in_bounds; rewrite Hx, Hz; exact Hin | exact Hrest |].
    rewrite Hx', Hz'. split; assumption.
  - destruct (IH (handleKeyDown code s)) as [Hx' Hz'];
      [rewrite handleKeyDown_camera_position; exact Hin | exact Hrej |].
    rewrite Hx', Hz', handleKeyDown_camera_position. auto.
  - destruct (IH (handleKeyUp code s)) as [Hx' Hz'];
      [rewrite handleKeyUp_camera_position; exact Hin | exact Hrej |].
    rewrite Hx', Hz', handleKeyUp_camera_position. auto.
  - destruct (IH (processRotation ax ay s)) as [Hx' Hz'];
      [rewrite processRotation_camera_position; exact Hin | exact Hrej |].
    rewrite Hx', Hz', processRotation_camera_position. auto.
  - contradiction.
Qed.

(** C3. From a position inside the world bounds (where every state the
    component reaches has its camera), a frame whose candidate
    position's player box intersects a collision box leaves the horizontal
    camera position where it was and collapses the target and the smoothed
    position onto the position the camera had before the frame; and through
    any sequence of such frames, with key and mouse events between them, the
    horizontal position never changes. *)
Theorem C3_collision_rejection :
  forall (props : Props) (s : Controls),
    in_bounds (camera_position s) ->
    (forall delta,
       collides props delta s = true ->
       let s' := useFrame props delta s in
       vx (camera_position s') = vx (camera_position s) /\
       vz (camera_position s') = vz (camera_position s) /\
       currentPosition s' = camera_position s /\
       targetPosition s' = camera_position s) /\
    (forall es,
       all_rejected props es s ->
       vx (camera_position (run props es s)) = vx (camera_position s) /\
       vz (camera_position (run props es s)) = vz (camera_position s)).
Proof.
  intros props s Hin. split.
  - intros delta Hhit. apply useFrame_rejected; assumption.
  - intros es Hrej. apply all_rejected_position; assumption.
Qed.

(** ** Walking straight ahead *)

Lemma Reqb_1_0 : Reqb 1 0 = false.
Proof. unfold Reqb. destruct (Req_dec_T 1 0); [lra | reflexivity]. Qed.

Lemma normalizedDeltaY_small d : - PI <= d <= PI -> normalizedDeltaY d = d.
Proof.
  intros [Hl Hh].
  destruct (normalizedDeltaY_cases d)
    as [(? & ? & E) | [(? & ? & E) | [(? & ? & E) | (? & ? & E)]]];
    rewrite E; lra.
Qed.

Lemma setFromEuler_level e :
  ex e = 0 -> ey e = 0 -> ez e = 0 -> eorder e = XYZ ->
  setFromEuler e = mkQuaternion 0 0 0 1.
Proof.
  destruct e as [x0 y0 z0 o]. cbn. intros -> -> -> ->.
  unfold setFromEuler. cbn.
  replace (0 / 2) with 0 by lra. rewrite cos_0, sin_0.
  f_equal; ring.
Qed.

Lemma move_direction_forward k :
  k_forward k = true -> k_backward k = false ->
  move_direction k (mkQuaternion 0 0 0 1) = mkVector3 0 0 (-1).
Proof.
  intros Hf Hb. unfold move_direction, normalize, length, Vector3_zero.
  rewrite Hf, Hb. cbn.
  replace (0 * 0 + 0 * 0 + (0 - 1) * (0 - 1)) with 1 by ring.
  rewrite sqrt_1, Reqb_1_0. f_equal; field.
Qed.

Lemma rotation_step_level delta k r :
  k_left k = false -> k_right k = false -> level r ->
  level (rotation_step delta k r) /\
  r_camera (rotation_step delta k r) = mkQuaternion 0 0 0 1.
Proof.
  intros Hl Hr (Hx & Hy & Hz & Ho & Tx & Ty).
  pose proof PI_RGT_0 as Hpi.
  unfold rotation_step, r_keys. rewrite Hl, Hr. unfold r_smooth. cbn.
  rewrite Hx, Hy, Tx, Ty.
  rewrite (normalizedDeltaY_small (0 - 0)) by lra.
  assert (E1 : 0 + (0 - 0) * rotLerpFactor delta = 0) by ring.
  split.
  - unfold level. cbn. rewrite E1. repeat split; auto.
  - apply setFromEuler_level; cbn; rewrite ?E1; auto.
Qed.

Lemma moveVector_straight props delta s :
  keys_forward (keys_of s) -> level (rotation_of s) ->
  let c := currentSpeed props
             (isOnRoad s (vx (camera_position s)) (vz (camera_position s)))
           * delta * 60 in
  moveVector props delta s = mkVector3 (0 * c) (0 * c) (-1 * c).
Proof.
  intros (Hf & Hb & Hl & Hr) Hlev c. unfold moveVector.
  destruct (rotation_step_level delta (keys_of s) (rotation_of s) Hl Hr Hlev)
    as [_ ->].
  rewrite (move_direction_forward _ Hf Hb). reflexivity.
Qed.

Lemma open_world_isOnRoad s x z : open_world s -> isOnRoad s x z = false.
Proof.
  unfold open_world, world_of, isOnRoad. intros H. injection H as _ ->.
  reflexivity.
Qed.

Lemma open_world_checkCollision props s p :
  open_world s -> checkCollision props s p = false.
Proof.
  unfold open_world, world_of, checkCollision. intros H. injection H as -> _.
  destruct (enableCollision props); reflexivity.
Qed.

(** One frame of straight walking in an open world, away from the bounds:
    the camera advances by one stride along [-z]. *)
Lemma straight_useFrame props delta s :
  straight s ->
  - 15 <= vx (camera_position s) <= 15 ->
  - 15 <= vz (camera_position s) - stride props delta <= 15 ->
  let s' := useFrame props delta s in
  straight s' /\
  vx (camera_position s') = vx (camera_position s) /\
  vz (camera_position s') = vz (camera_position s) - stride props delta.
Proof.
  intros [Hk Hlev Hw [Sx Sz]] Hx Hz s'.
  assert (Hfree : collides props delta s = false).
  { rewrite collides_eq. apply open_world_checkCollision, Hw. }
  destruct (pre_clamp_free props delta s Hfree) as (Cx & Cz & Cc & _).
  rewrite candidate_eq, (moveVector_straight props delta s Hk Hlev) in Cx, Cz, Cc.
  rewrite (open_world_isOnRoad s _ _ Hw) in Cx, Cz, Cc.
  cbn in Cx, Cz. rewrite Sx in Cx. rewrite Sz in Cz.
  assert (Ex : vx (camera_position (pre_clamp props delta s)) =
               vx (camera_position s)).
  { rewrite Cx. ring. }
  assert (Ez : vz (camera_position (pre_clamp props delta s)) =
               vz (camera_position s) - stride props delta)
    by (rewrite Cz; unfold stride, currentSpeed; ring).
  assert (Hin : in_bounds (camera_position (pre_clamp props delta s))).
  { unfold in_bounds. rewrite Ex, Ez. split; apply Rabs_le; lra. }
  destruct (frame_clamp_in_bounds_id _ Hin) as [Fx Fz].
  destruct (frame_clamp_ground (pre_clamp props delta s)) as (_ & _ & Fc & _).
  rewrite <- useFrame_pre_clamp in Fx, Fz, Fc.
  subst s'. split; [| split].
  - constructor.
    + rewrite keys_useFrame. exact Hk.
    + rewrite rotation_useFrame.
      destruct Hk as (_ & _ & Hl & Hr).
      apply (rotation_step_level delta _ _ Hl Hr Hlev).
    + unfold open_world. rewrite world_useFrame. exact Hw.
    + unfold synced. rewrite Fc, Fx, Fz, Cc. cbn. rewrite Cx, Cz, Sx, Sz. auto.
  - rewrite Fx. exact Ex.
  - rewrite Fz. exact Ez.
Qed.

(** [n] equal frames of straight walking that stay inside the bounds. *)
Lemma straight_run props delta n :
  forall s,
    straight s ->
    0 <= stride props delta ->
    - 15 <= vx (camera_position s) <= 15 ->
    vz (camera_position s) <= 15 ->
    - 15 <= vz (camera_position s) - INR n * stride props delta ->
    let s' := run_frames props (repeat delta n) s in
    vx (camera_position s') = vx (camera_position s) /\
    vz (camera_position s') =
    vz (camera_position s) - INR n * stride props delta.
Proof.
  induction n as [| n IH]; intros s Hs Hd Hx Hhi Hlo.
  - cbn. split; [reflexivity | ring].
  - rewrite S_INR in Hlo |- *.
    assert (Hn : 0 <= INR n) by apply pos_INR.
    assert (Hnd : 0 <= INR n * stride props delta)
      by (apply Rmult_le_pos; assumption).
    assert (Hz : - 15 <= vz (camera_position s) - stride props delta <= 15)
      by lra.
    destruct (straight_useFrame props delta s Hs Hx Hz) as (Hs' & Ex & Ez).
    cbn [repeat run_frames]. cbv zeta.
    assert (Hx' : - 15 <= vx (camera_position (useFrame props delta s)) <= 15)
      by (rewrite Ex; lra).
    assert (Hhi' : vz (camera_position (useFrame props delta s)) <= 15)
      by (rewrite Ez; lra).
    assert (Hlo' : - 15 <= vz (camera_position (useFrame props delta s))
                           - INR n * stride props delta)
      by (rewrite Ez; lra).
    destruct (IH (useFrame props delta s) Hs' Hd Hx' Hhi' Hlo') as [Rx Rz].
    rewrite Rx, Rz, Ex, Ez. split; [reflexivity | ring].
Qed.

(** ** One second of walking at two frame rates *)

Lemma spawn_walking_straight : straight spawn_walking.
Proof.
  constructor.
  - repeat split; reflexivity.
  - repeat split; reflexivity.
  - reflexivity.
  - split; reflexivity.
Qed.

Lemma stride_30 : stride (default_props []) (1 / 30) = 1 / 10.
Proof.
  unfold stride, currentSpeed. cbn.
  rewrite Rmin_right by lra. field.
Qed.

Lemma stride_240 : stride (default_props []) (1 / 240) = 1 / 640.
Proof.
  unfold stride, currentSpeed. cbn.
  rewrite Rmin_right by lra. field.
Qed.

Lemma INR_30 : INR 30 = 30.
Proof. rewrite INR_IZR_INZ. reflexivity. Qed.

Lemma INR_240 : INR 240 = 240.
Proof. rewrite INR_IZR_INZ. reflexivity. Qed.

(** C1, evaluated.  With the default configuration in an empty world,
    holding forward from the spawn point for one second moves the camera by
    3 units along [-z] when the second is 30 frames of 1/30 s, and by 3/8 of
    a unit when it is 240 frames of 1/240 s: the displacement is eight
    times larger at the lower frame rate. *)
Theorem C1_displacement_depends_on_frame_rate :
  let slow := run_frames (default_props []) (repeat (1 / 30) 30)
                spawn_walking in
  let fast := run_frames (default_props []) (repeat (1 / 240) 240)
                spawn_walking in
  vx (camera_position slow) = 0 /\ vz (camera_position slow) = - 3 /\
  vx (camera_position fast) = 0 /\ vz (camera_position fast) = - (3 / 8).
Proof.
  pose proof spawn_walking_straight as Hs.
  assert (Hz0 : vz (camera_position spawn_walking) = 0) by reflexivity.
  assert (Hx0 : vx (camera_position spawn_walking) = 0) by reflexivity.
  destruct (straight_run (default_props []) (1 / 30) 30 spawn_walking Hs)
    as [Sx Sz]; rewrite ?stride_30, ?INR_30, ?Hx0, ?Hz0; try lra.
  destruct (straight_run (default_props []) (1 / 240) 240 spawn_walking Hs)
    as [Fx Fz]; rewrite ?stride_240, ?INR_240, ?Hx0, ?Hz0; try lra.
  cbv zeta. rewrite Sx, Sz, Fx, Fz, stride_30, stride_240, INR_30, INR_240,
    Hx0, Hz0.
  repeat split; lra.
Qed.

(** ** A wall to walk into *)

Lemma at_the_wall_in_bounds : in_bounds (camera_position at_the_wall).
Proof. split; cbn; apply Rabs_le; lra. Qed.

Lemma at_the_wall_collides : collides tower_props (1 / 60) at_the_wall = true.
Proof.
  rewrite collides_eq, moveVector_straight;
    [| repeat split; reflexivity | repeat split; reflexivity].
  unfold checkCollision, intersectsBox, Rgeb, currentSpeed. cbn.
  rewrite orb_false_r.
  repeat (apply andb_true_iff; split); apply Rleb_true;
    unfold playerRadius; lra.
Qed.

Lemma C3_collision_rejection_witness :
  let s' := useFrame tower_props (1 / 60) at_the_wall in
  vx (camera_position s') = vx (camera_position at_the_wall) /\
  vz (camera_position s') = vz (camera_position at_the_wall) /\
  currentPosition s' = camera_position at_the_wall /\
  targetPosition s' = camera_position at_the_wall.
Proof.
  exact (proj1 (C3_collision_rejection tower_props at_the_wall
                  at_the_wall_in_bounds)
               (1 / 60) at_the_wall_collides).
Defined.

(** ** Road speed *)

(** A free, unclamped frame from a synced state moves the camera by the
    move vector times the smoothing factor, and stays synced. *)
Lemma free_frame_displacement props delta s :
  synced s -> collides props delta s = false -> unclamped props delta s ->
  let s' := useFrame props delta s in
  synced s' /\
  vx (camera_position s') - vx (camera_position s) =
  vx (moveVector props delta s) * Rmin 1 (delta * 15) /\
  vz (camera_position s') - vz (camera_position s) =
  vz (moveVector props delta s) * Rmin 1 (delta * 15).
Proof.
  intros [Sx Sz] Hfree Hin s'.
  destruct (pre_clamp_free props delta s Hfree) as (Cx & Cz & Cc & _).
  destruct (frame_clamp_in_bounds_id _ Hin) as [Fx Fz].
  destruct (frame_clamp_ground (pre_clamp props delta s)) as (_ & _ & Fc & _).
  rewrite <- useFrame_pre_clamp in Fx, Fz, Fc.
  subst s'. unfold synced. rewrite Fc, Fx, Fz, Cc, Cx, Cz.
  rewrite candidate_eq. cbn. rewrite Sx, Sz.
  repeat split; ring.
Qed.

Lemma moveVector_road_ratio props delta a b :
  keys_of a = keys_of b -> rotation_of a = rotation_of b ->
  isOnRoad a (vx (camera_position a)) (vz (camera_position a)) = true ->
  isOnRoad b (vx (camera_position b)) (vz (camera_position b)) = false ->
  vx (moveVector props delta a) = 2 * vx (moveVector props delta b) /\
  vz (moveVector props delta a) = 2 * vz (moveVector props delta b).
Proof.
  intros Hk Hr Ha Hb. unfold moveVector.
  rewrite Hk, Hr, Ha, Hb.
  generalize (move_direction (keys_of b)
                (r_camera (rotation_step delta (keys_of b) (rotation_of b)))).
  intros d. unfold multiplyScalar, currentSpeed. cbn [vx vz]. split; field.
Qed.

Lemma hdist_double p q p' q' :
  vx q - vx p = 2 * (vx q' - vx p') ->
  vz q - vz p = 2 * (vz q' - vz p') ->
  hdist p q = 2 * hdist p' q'.
Proof.
  intros Hx Hz. unfold hdist. rewrite Hx, Hz.
  set (u := vx q' - vx p'). set (w := vz q' - vz p').
  replace (2 * u * (2 * u) + 2 * w * (2 * w))
    with ((2 * 2) * (u * u + w * w)) by ring.
  rewrite sqrt_mult by nra.
  rewrite sqrt_square by lra. reflexivity.
Qed.

(** One frame on the road against one frame off it. *)
Lemma road_ratio_frame props delta a b :
  keys_of a = keys_of b -> rotation_of a = rotation_of b ->
  synced a -> synced b ->
  clear_walk props true [delta] a -> clear_walk props false [delta] b ->
  let a' := useFrame props delta a in
  let b' := useFrame props delta b in
  (keys_of a' = keys_of b' /\ rotation_of a' = rotation_of b' /\
   synced a' /\ synced b') /\
  vx (camera_position a') - vx (camera_position a) =
  2 * (vx (camera_position b') - vx (camera_position b)) /\
  vz (camera_position a') - vz (camera_position a) =
  2 * (vz (camera_position b') - vz (camera_position b)).
Proof.
  intros Hk Hr Sa Sb (Ra & Fa & Ua & _) (Rb & Fb & Ub & _) a' b'.
  destruct (free_frame_displacement props delta a Sa Fa Ua) as (Sa' & Xa & Za).
  destruct (free_frame_displacement props delta b Sb Fb Ub) as (Sb' & Xb & Zb).
  destruct (moveVector_road_ratio props delta a b Hk Hr Ra Rb) as [Mx Mz].
  subst a' b'. split; [split; [| split; [| split]] | split].
  - rewrite !keys_useFrame. exact Hk.
  - rewrite !rotation_useFrame, Hk, Hr. reflexivity.
  - exact Sa'.
  - exact Sb'.
  - rewrite Xa, Xb, Mx. ring.
  - rewrite Za, Zb, Mz. ring.
Qed.

(** Where [synced] comes from: the mount effect, a teleport and a rejected
    move establish it, and a free unclamped frame keeps it
    ([free_frame_displacement]). *)
Lemma synced_mount props : synced (mount props).
Proof. split; reflexivity. Qed.

Lemma synced_teleportPlayer props x z s : synced (teleportPlayer props x z s).
Proof. split; reflexivity. Qed.

Lemma synced_rejected props delta s :
  in_bounds (camera_position s) -> collides props delta s = true ->
  synced (useFrame props delta s).
Proof.
  intros Hin Hhit.
  destruct (useFrame_rejected props delta s Hin Hhit) as (Hx & Hz & Hc & _).
  unfold synced. rewrite Hc, Hx, Hz. split; reflexivity.
Qed.

(** C2. Two runs over the same frame durations, with the same keys held,
    the same orientation and the same configuration, both starting with
    the smoothed position on the camera, neither meeting a collision nor
    the world bounds: if every frame of the first starts on a road cell and
    every frame of the second starts off the road, the first covers exactly
    twice the horizontal displacement of the second, in both coordinates,
    in straight-line distance and in path length. *)
Theorem C2_road_speed_ratio :
  forall (props : Props) (deltas : list R) (a b : Controls),
    keys_of a = keys_of b ->
    rotation_of a = rotation_of b ->
    synced a -> synced b ->
    clear_walk props true deltas a ->
    clear_walk props false deltas b ->
    let a' := run_frames props deltas a in
    let b' := run_frames props deltas b in
    vx (camera_position a') - vx (camera_position a) =
    2 * (vx (camera_position b') - vx (camera_position b)) /\
    vz (camera_position a') - vz (camera_position a) =
    2 * (vz (camera_position b') - vz (camera_position b)) /\
    hdist (camera_position a) (camera_position a') =
    2 * hdist (camera_position b) (camera_position b') /\
    path_length props deltas a = 2 * path_length props deltas b.
Proof.
  intros props deltas.
  assert (H : forall a b,
             keys_of a = keys_of b -> rotation_of a = rotation_of b ->
             synced a -> synced b ->
             clear_walk props true deltas a ->
             clear_walk props false deltas b ->
             vx (camera_position (run_frames props deltas a))
             - vx (camera_position a) =
             2 * (vx (camera_position (run_frames props deltas b))
                  - vx (camera_position b)) /\
             vz (camera_position (run_frames props deltas a))
             - vz (camera_position a) =
             2 * (vz (camera_position (run_frames props deltas b))
                  - vz (camera_position b)) /\
             path_length props deltas a = 2 * path_length props deltas b).
  { induction deltas as [| d ds IH]; intros a b Hk Hr Sa Sb Ca Cb.
    - cbn. repeat split; ring.
    - assert (Ca1 : clear_walk props true [d] a)
        by (destruct Ca as (? & ? & ? & _); cbn; auto).
      assert (Cb1 : clear_walk props false [d] b)
        by (destruct Cb as (? & ? & ? & _); cbn; auto).
      destruct (road_ratio_frame props d a b Hk Hr Sa Sb Ca1 Cb1)
        as ((Hk' & Hr' & Sa' & Sb') & Dx & Dz).
      destruct Ca as (_ & _ & _ & Ca'). destruct Cb as (_ & _ & _ & Cb').
      destruct (IH _ _ Hk' Hr' Sa' Sb' Ca' Cb') as (Rx & Rz & Rp).
      cbn [run_frames path_length].
      rewrite Rp, (hdist_double _ _ _ _ Dx Dz).
      repeat split; lra. }
  intros a b Hk Hr Sa Sb Ca Cb a' b'.
  destruct (H a b Hk Hr Sa Sb Ca Cb) as (Rx & Rz & Rp).
  repeat split; try assumption.
  apply hdist_double; assumption.
Qed.

(** A straight, free frame in any world, before the bounds clamp. *)
Lemma straight_pre_clamp props delta s :
  keys_forward (keys_of s) -> level (rotation_of s) -> synced s ->
  collides props delta s = false ->
  let onRoad := isOnRoad s (vx (camera_position s)) (vz (camera_position s)) in
  let t := pre_clamp props delta s in
  vx (camera_position t) = vx (camera_position s) /\
  vz (camera_position t) =
  vz (camera_position s)
  - currentSpeed props onRoad * delta * 60 * Rmin 1 (delta * 15).
Proof.
  intros Hk Hlev [Sx Sz] Hfree onRoad t.
  destruct (pre_clamp_free props delta s Hfree) as (Cx & Cz & _).
  rewrite candidate_eq, (moveVector_straight props delta s Hk Hlev) in Cx, Cz.
  fold onRoad in Cx, Cz. cbn [lerp add vx vz] in Cx, Cz.
  rewrite Sx in Cx. rewrite Sz in Cz.
  subst t. rewrite Cx, Cz. split; ring.
Qed.

Lemma no_boxes_collides props delta s :
  collisionBoxes s = [] -> collides props delta s = false.
Proof.
  intros H. rewrite collides_eq. unfold checkCollision. rewrite H.
  destruct (enableCollision props); reflexivity.
Qed.

Lemma on_road_walker_onRoad : isOnRoad on_road_walker 0 0 = true.
Proof.
  unfold isOnRoad, Math_round.
  rewrite (Zfloor_eq 15) by lra. reflexivity.
Qed.

Lemma off_road_walker_offRoad : isOnRoad off_road_walker 5 5 = false.
Proof.
  unfold isOnRoad, Math_round.
  rewrite (Zfloor_eq 20) by lra. reflexivity.
Qed.

Lemma on_road_walker_clear :
  clear_walk road_props true [1 / 60] on_road_walker.
Proof.
  assert (Hfree : collides road_props (1 / 60) on_road_walker = false)
    by (apply no_boxes_collides; reflexivity).
  cbn [clear_walk]. repeat split; try assumption.
  - apply on_road_walker_onRoad.
  - destruct (straight_pre_clamp road_props (1 / 60) on_road_walker)
      as [Ex _]; try assumption; try (repeat split; reflexivity).
    rewrite Ex. cbn. apply Rabs_le; lra.
  - destruct (straight_pre_clamp road_props (1 / 60) on_road_walker)
      as [_ Ez]; try assumption; try (repeat split; reflexivity).
    rewrite Ez.
    change (camera_position on_road_walker) with (mkVector3 0 (16 / 10) 0).
    cbn [vx vz]. rewrite on_road_walker_onRoad.
    unfold currentSpeed. cbn. rewrite Rmin_right by lra.
    apply Rabs_le; lra.
Qed.

Lemma off_road_walker_clear :
  clear_walk road_props false [1 / 60] off_road_walker.
Proof.
  assert (Hfree : collides road_props (1 / 60) off_road_walker = false)
    by (apply no_boxes_collides; reflexivity).
  cbn [clear_walk]. repeat split; try assumption.
  - apply off_road_walker_offRoad.
  - destruct (straight_pre_clamp road_props (1 / 60) off_road_walker)
      as [Ex _]; try assumption; try (repeat split; reflexivity).
    rewrite Ex. cbn. apply Rabs_le; lra.
  - destruct (straight_pre_clamp road_props (1 / 60) off_road_walker)
      as [_ Ez]; try assumption; try (repeat split; reflexivity).
    rewrite Ez.
    change (camera_position off_road_walker)
      with (mkVector3 5 (0 + 16 / 10 + 0) 5).
    cbn [vx vz]. rewrite off_road_walker_offRoad.
    unfold currentSpeed. cbn. rewrite Rmin_right by lra.
    apply Rabs_le; lra.
Qed.

Lemma C2_road_speed_ratio_witness :
  let a' := run_frames road_props [1 / 60] on_road_walker in
  let b' := run_frames road_props [1 / 60] off_road_walker in
  vz (camera_position a') - vz (camera_position on_road_walker) =
  2 * (vz (camera_position b') - vz (camera_position off_road_walker)) /\
  hdist (camera_position on_road_walker) (camera_position a') =
  2 * hdist (camera_position off_road_walker) (camera_position b').
Proof.
  destruct (C2_road_speed_ratio road_props [1 / 60]
              on_road_walker off_road_walker eq_refl eq_refl
              (conj eq_refl eq_refl) (conj eq_refl eq_refl)
              on_road_walker_clear off_road_walker_clear)
    as (_ & Hz & Hd & _).
  exact (conj Hz Hd).
Defined.

(** ** Click-to-select *)

Lemma In_insert_asc x i l : In x (insert_asc i l) <-> x = i \/ In x l.
Proof.
  induction l as [| j l IH]; cbn.
  - intuition.
  - destruct (Rltb (distance i) (distance j)); cbn; [intuition |].
    rewrite IH. intuition.
Qed.

Lemma In_ascSort x l : In x (ascSort l) <-> In x l.
Proof.
  induction l as [| i l IH]; cbn; [tauto |].
  rewrite In_insert_asc, IH. intuition.
Qed.



Lemma In_raycast h o :
  In h (raycast o) <->
  object h = o /\ In (distance h) (ray_hits o) /\ 0 <= distance h <= 50.
Proof.
  unfold raycast, raycaster_near, raycaster_far, Rgtb.
  rewrite in_map_iff. split.
  - intros (d & <- & Hd). apply filter_In in Hd. destruct Hd as [Hin Hr].
    apply negb_true_iff, orb_false_iff in Hr. destruct Hr as [H0 H50].
    apply Rltb_false in H0. apply Rltb_false in H50. cbn. auto.
  - intros (<- & Hin & H0 & H50). exists (distance h). split.
    + destruct h; reflexivity.
    + apply filter_In. split; [exact Hin |].
      apply negb_true_iff, orb_false_iff.
      split; apply Rltb_false; assumption.
Qed.

Lemma In_intersectObjects h meshes :
  In h (intersectObjects meshes) <->
  In (object h) meshes /\ In (distance h) (ray_hits (object h)) /\
  0 <= distance h <= 50.
Proof.
  unfold intersectObjects. rewrite In_ascSort, in_flat_map. split.
  - intros (o & Ho & Hh). apply In_raycast in Hh.
    destruct Hh as (<- & ? & ?). auto.
  - intros (Ho & Hd & Hr). exists (object h). split; [exact Ho |].
    apply In_raycast. auto.
Qed.





(** ** The states the component reaches *)

Lemma handleCanvasClick_in_bounds props m clientX clientY s :
  in_bounds (camera_position s) ->
  in_bounds (camera_position (snd (handleCanvasClick props m clientX clientY s))).
Proof.
  intros Hin. unfold handleCanvasClick.
  destruct (negb (isTeleportMode m) || negb (hasCamera m)); [exact Hin |].
  destruct (canvasRect m) as [rect |]; [| exact Hin].
  cbn. split; apply Rabs_le; apply clamp_range; lra.
Qed.

(** Every reachable state has its camera inside the world bounds. *)
Lemma reachable_in_bounds props s :
  reachable props s -> in_bounds (camera_position s).
Proof.
  induction 1.
  - split; cbn; apply Rabs_le; lra.
  - apply useFrame_in_bounds.
  - rewrite handleKeyDown_camera_position. assumption.
  - rewrite handleKeyUp_camera_position. assumption.
  - rewrite processRotation_camera_position. assumption.
  - apply handleCanvasClick_in_bounds. assumption.
Qed.

(** ** Two checks on samples *)

Lemma C7_rotation_smoothing_law_witness :
  let s' := useFrame (default_props []) (1 / 10) pitched_sample in
  let dy := ey (targetRotation s') - ey (currentRotation pitched_sample) in
  - PI <= normalizedDeltaY dy <= PI.
Proof.
  pose proof PI_RGT_0 as Hpi.
  destruct (C7_rotation_smoothing_law (default_props []) (1 / 10)
              pitched_sample) as (_ & _ & H).
  cbv zeta in H |- *.
  rewrite useFrame_targetRotation_idle in H |- * by reflexivity.
  apply H. cbn. lra.
Defined.



(** * Further properties of the component *)

(** ** The world index *)

Lemma ZoneType_eqb_eq a b : ZoneType_eqb a b = true <-> a = b.
Proof. destruct a, b; cbn; split; intros H; congruence. Qed.

Lemma Math_round_spec v g :
  Math_round v = g <-> IZR g - 1 / 2 <= v < IZR g + 1 / 2.
Proof.
  unfold Math_round. split.
  - intros <-. pose proof (Zfloor_bound (v + 1 / 2)). lra.
  - intros H. apply Zfloor_eq. lra.
Qed.

Lemma Set_has_In m k : Set_has m k = true <-> In k m.
Proof.
  unfold Set_has. rewrite existsb_exists. split.
  - intros ([a b] & Hin & H). cbn in H. apply andb_true_iff in H.
    destruct H as [Ha Hb]. apply Z.eqb_eq in Ha. apply Z.eqb_eq in Hb.
    destruct k as [k1 k2]. cbn in Ha, Hb. subst. exact Hin.
  - intros Hin. exists k. split; [exact Hin |].
    rewrite !Z.eqb_refl. reflexivity.
Qed.

Lemma build_roadMap_In ls gx gy :
  In (gx, gy) (build_roadMap ls) <->
  exists land, In land ls /\ zone land = road /\ x land = gx /\ y land = gy.
Proof.
  unfold build_roadMap. rewrite in_map_iff. split.
  - intros (land & E & Hin). apply filter_In in Hin. destruct Hin as [Hin Hz].
    apply ZoneType_eqb_eq in Hz. injection E as Ex Ey.
    exists land. auto.
  - intros (land & Hin & Hz & Ex & Ey). exists land. split.
    + rewrite Ex, Ey. reflexivity.
    + apply filter_In. split; [exact Hin |]. apply ZoneType_eqb_eq, Hz.
Qed.

Lemma build_collisionBoxes_In ls b :
  In b (build_collisionBoxes ls) <->
  exists land bld,
    In land ls /\ building land = Some bld /\ stage bld = complete /\
    zone land <> road /\ b = building_box land bld.
Proof.
  induction ls as [| land ls IH]; cbn.
  - split; [tauto | intros (? & ? & [] & _)].
  - destruct (building land) as [bld |] eqn:Eb.
    + destruct (is_complete (stage bld) && negb (ZoneType_eqb (zone land) road))
        eqn:E.
      * apply andb_true_iff in E. destruct E as [Ec Er].
        assert (Hc : stage bld = complete)
          by (destruct (stage bld); cbn in Ec; congruence).
        assert (Hr : zone land <> road).
        { intros Hz. rewrite Hz in Er. discriminate. }
        cbn. rewrite IH. split.
        -- intros [<- | (l & d & Hin & ?)].
           ++ exists land, bld. auto.
           ++ exists l, d. tauto.
        -- intros (l & d & [<- | Hin] & Hb & Hs & Hz & ->).
           ++ left. rewrite Eb in Hb. injection Hb as <-. reflexivity.
           ++ right. exists l, d. auto.
      * rewrite IH. split.
        -- intros (l & d & Hin & ?). exists l, d. tauto.
        -- intros (l & d & [<- | Hin] & Hb & Hs & Hz & ->).
           ++ exfalso. rewrite Eb in Hb. injection Hb as <-.
              rewrite Hs in E. cbn in E.
              apply negb_false_iff, ZoneType_eqb_eq in E. contradiction.
           ++ exists l, d. auto.
    + rewrite IH. split.
      * intros (l & d & Hin & ?). exists l, d. tauto.
      * intros (l & d & [<- | Hin] & Hb & ?).
        -- rewrite Eb in Hb. discriminate.
        -- exists l, d. auto.
Qed.

(** No event assigns the road set or the collision boxes. *)
Lemma world_step props e s : world_of (step props e s) = world_of s.
Proof.
  destruct e as [delta | code | code | ax ay | tx tz]; cbn.
  - apply world_useFrame.
  - destruct code; cbn; try reflexivity. destruct (canJump s); reflexivity.
  - destruct code; reflexivity.
  - unfold processRotation. destruct (_ || _); reflexivity.
  - reflexivity.
Qed.

Lemma world_run props es s : world_of (run props es s) = world_of s.
Proof.
  revert s. induction es as [| e es IH]; intros s; cbn; [reflexivity |].
  rewrite IH. apply world_step.
Qed.

Lemma world_mount props :
  world_of (mount props) =
  (build_collisionBoxes (lands props), build_roadMap (lands props)).
Proof. reflexivity. Qed.

(** X1. At any moment of play (after the mount effect and any sequence of
    frames, key events, mouse rotations and teleports), a position tests as
    on-road exactly when it lies in the unit cell of some land whose zone
    is road. *)
Theorem X1_isOnRoad_iff_in_road_cell :
  forall (props : Props) (es : list Event) (px pz : R),
    isOnRoad (run props es (mount props)) px pz = true <->
    exists land,
      In land (lands props) /\ zone land = road /\ in_cell land px pz.
Proof.
  intros props es px pz.
  rewrite (isOnRoad_world _ (mount props)) by (apply world_run).
  unfold isOnRoad. rewrite Set_has_In. cbn [roadMap mount].
  rewrite build_roadMap_In. unfold in_cell. split.
  - intros (land & Hin & Hz & Ex & Ey).
    symmetry in Ex, Ey.
    apply Math_round_spec in Ex. apply Math_round_spec in Ey.
    exists land. repeat split; try assumption; lra.
  - intros (land & Hin & Hz & Hx & Hy). exists land.
    repeat split; try assumption; symmetry; apply Math_round_spec; lra.
Qed.

Lemma collisionBoxes_run_mount props es b :
  In b (collisionBoxes (run props es (mount props))) <->
  exists land bld,
    In land (lands props) /\ building land = Some bld /\
    stage bld = complete /\ zone land <> road /\
    b = building_box land bld.
Proof.
  change (collisionBoxes (run props es (mount props)))
    with (fst (world_of (run props es (mount props)))).
  rewrite world_run, world_mount. cbn [fst].
  apply build_collisionBoxes_In.
Qed.

(** X2. At any moment of play the collision boxes are exactly the boxes of
    the lands that carry a completed building and are not roads: 0.7 wide
    and deep around the land's world position, from the ground up to the
    building height.  Roads, empty lands and buildings under construction
    never contribute a box. *)
Theorem X2_collision_boxes_are_completed_buildings :
  forall (props : Props) (es : list Event) (b : Box3),
    In b (collisionBoxes (run props es (mount props))) <->
    exists land bld,
      In land (lands props) /\ building land = Some bld /\
      stage bld = complete /\ zone land <> road /\
      b = mkBox3
            (mkVector3 (IZR (x land) - 15 - 35 / 100) 0
                       (IZR (y land) - 15 - 35 / 100))
            (mkVector3 (IZR (x land) - 15 + 35 / 100) (buildingHeight bld)
                       (IZR (y land) - 15 + 35 / 100)).
Proof. intros props es b. apply collisionBoxes_run_mount. Qed.

Lemma intersectsBox_true a box :
  intersectsBox a box = true <->
  vx (bmin a) <= vx (bmax box) /\ vx (bmin box) <= vx (bmax a) /\
  vy (bmin a) <= vy (bmax box) /\ vy (bmin box) <= vy (bmax a) /\
  vz (bmin a) <= vz (bmax box) /\ vz (bmin box) <= vz (bmax a).
Proof.
  unfold intersectsBox, Rgeb. rewrite !andb_true_iff, !Rleb_true. tauto.
Qed.

Lemma checkCollision_blocks props s p :
  checkCollision props s p = true <->
  enableCollision props = true /\
  exists box, In box (collisionBoxes s) /\ blocks props box p.
Proof.
  unfold checkCollision.
  destruct (enableCollision props); cbn [negb].
  - rewrite existsb_exists. split.
    + intros (box & Hin & H). split; [reflexivity |]. exists box.
      split; [exact Hin |]. apply intersectsBox_true in H.
      unfold playerRadius in H. cbn in H. unfold blocks. lra.
    + intros (_ & box & Hin & H). exists box. split; [exact Hin |].
      apply intersectsBox_true. unfold playerRadius, blocks in *. cbn. lra.
  - split; [discriminate | intros [H _]; discriminate].
Qed.

(** X3. The collision test answers true exactly when collisions are enabled
    and some collision box is within the player radius of the position
    horizontally and overlaps, vertically, the span from the position up by
    one player height: the tested position is the bottom of the player box,
    not its middle or its top. *)
Theorem X3_checkCollision_iff_blocks :
  forall (props : Props) (s : Controls) (p : Vector3),
    checkCollision props s p = true <->
    enableCollision props = true /\
    exists box, In box (collisionBoxes s) /\ blocks props box p.
Proof. intros props s p. apply checkCollision_blocks. Qed.

Lemma candidate_y props delta s :
  vy (candidate props delta s) = vy (camera_position s).
Proof.
  rewrite candidate_eq. unfold moveVector, move_direction, multiplyScalar.
  cbn. ring.
Qed.

(** X4. A building lower than the camera never stops the player: when every
    building of the world is lower than the camera height at the start of a
    frame, that frame's candidate position does not collide, wherever the
    player stands and whichever way the player walks. *)
Theorem X4_low_buildings_do_not_block :
  forall (props : Props) (es : list Event) (delta : R),
    let s := run props es (mount props) in
    (forall land bld,
       In land (lands props) -> building land = Some bld ->
       buildingHeight bld < vy (camera_position s)) ->
    collides props delta s = false.
Proof.
  intros props es delta s Hlow.
  destruct (collides props delta s) eqn:E; [| reflexivity].
  unfold collides in E. apply checkCollision_blocks in E.
  destruct E as (_ & box & Hin & _ & [_ Hy] & _).
  rewrite candidate_y in Hy.
  assert (Hb : In box (collisionBoxes s)).
  { change (In box (fst (world_of s))).
    rewrite <- (pre_move_world props delta s). exact Hin. }
  apply collisionBoxes_run_mount in Hb.
  destruct Hb as (land & bld & Hl & Hbld & _ & _ & ->).
  specialize (Hlow land bld Hl Hbld). cbn in Hy. fold s in Hy. lra.
Qed.


Lemma X4_low_buildings_do_not_block_witness :
  collides (default_props [cottage]) (1 / 60)
    (run (default_props [cottage]) [KeyDown KeyW]
       (mount (default_props [cottage]))) = false.
Proof.
  apply (X4_low_buildings_do_not_block (default_props [cottage])
           [KeyDown KeyW] (1 / 60)).
  intros land bld [<- | []] Hb. injection Hb as <-.
  unfold buildingHeight. cbn. lra.
Defined.

(** ** Keys *)

Lemma not_space_down_step props e s :
  key_event e = true -> is_space_down e = false ->
  velocity (step props e s) = velocity s /\
  canJump (step props e s) = canJump s.
Proof.
  destruct e as [d | code | code | ax ay | tx tz]; try discriminate;
    destruct code; cbn; intros _ H; try discriminate; auto.
Qed.

(** X5. Key events alone change the vertical velocity at most once: over a
    sequence of key events the velocity grows by 0.15 exactly when the
    player was jump-eligible and Space was pressed, and jump eligibility is
    gone exactly then; further presses of Space, and every other key, leave
    velocity and eligibility alone.  There is no double jump. *)
Theorem X5_no_double_jump :
  forall (props : Props) (es : list Event) (s : Controls),
    forallb key_event es = true ->
    let jumped := canJump s && existsb is_space_down es in
    vy (velocity (run props es s)) =
    vy (velocity s) + (if jumped then 15 / 100 else 0) /\
    vx (velocity (run props es s)) = vx (velocity s) /\
    vz (velocity (run props es s)) = vz (velocity s) /\
    canJump (run props es s) = canJump s && negb (existsb is_space_down es).
Proof.
  intros props es. induction es as [| e es IH]; intros s Hk.
  - cbn. rewrite andb_false_r, andb_true_r. repeat split; lra.
  - cbn in Hk. apply andb_true_iff in Hk. destruct Hk as [He Hes].
    cbn [run existsb]. specialize (IH (step props e s) Hes).
    cbv zeta in IH |- *. destruct IH as (Vy & Vx & Vz & Cj).
    rewrite Vy, Vx, Vz, Cj. clear Vy Vx Vz Cj.
    destruct (is_space_down e) eqn:Es.
    + destruct e as [d | code | code | ax ay | tx tz]; try discriminate.
      destruct code; try discriminate. cbn.
      destruct (canJump s) eqn:Ec; cbn; rewrite ?Ec; cbn;
        repeat split; try reflexivity; lra.
    + destruct (not_space_down_step props e s He Es) as [-> ->].
      cbn. repeat split; reflexivity.
Qed.

Lemma X5_no_double_jump_witness :
  vy (velocity (run (default_props [])
                  [KeyDown Space; KeyUp Space; KeyDown Space; KeyDown KeyW]
                  grounded_sample)) = 0 + 15 / 100.
Proof.
  exact (proj1 (X5_no_double_jump (default_props [])
                  [KeyDown Space; KeyUp Space; KeyDown Space; KeyDown KeyW]
                  grounded_sample eq_refl)).
Defined.

Lemma Action_eq_dec (a b : Action) : {a = b} + {a <> b}.
Proof. decide equality. Qed.

(** X6. Each movement flag is one boolean shared by the keys bound to it:
    pressing a bound key sets its flag and releasing it clears the flag,
    whatever other key bound to the same flag is still held, and no other
    flag changes.  So with W and ArrowUp both down, releasing either one
    stops forward movement. *)
Theorem X6_key_flags :
  forall (code : KeyCode) (a : Action) (s : Controls),
    action_of code = Some a ->
    held a (handleKeyDown code s) = true /\
    held a (handleKeyUp code s) = false /\
    (forall b, b <> a ->
       held b (handleKeyDown code s) = held b s /\
       held b (handleKeyUp code s) = held b s) /\
    (forall other, action_of other = Some a ->
       held a (handleKeyUp code (handleKeyDown other (handleKeyDown code s)))
       = false).
Proof.
  intros code a s Ha.
  destruct code; cbn in Ha; try discriminate; injection Ha as <-;
    (split; [reflexivity | split; [reflexivity | split]]);
    try (intros b Hb; destruct b; try contradiction; split; reflexivity);
    intros other Ho; destruct other; cbn in Ho; try discriminate;
    reflexivity.
Qed.

Lemma X6_key_flags_witness :
  moveForward (handleKeyUp ArrowUp
                 (handleKeyDown KeyW (handleKeyDown ArrowUp grounded_sample)))
  = false.
Proof.
  exact (proj2 (proj2 (proj2 (X6_key_flags ArrowUp Forward grounded_sample
                                 eq_refl)))
               KeyW eq_refl).
Defined.


(** ** Height offset *)

Lemma v_bobbing_offset props delta k w :
  v_offset (v_bobbing props delta k w) = v_offset w.
Proof. unfold v_bobbing. destruct (_ && _); reflexivity. Qed.

Lemma useFrame_offset props delta s :
  cameraHeightOffset (useFrame props delta s) =
  v_offset (v_upDown (keys_of s) (vertical_of s)).
Proof.
  change (cameraHeightOffset (useFrame props delta s))
    with (v_offset (vertical_of (useFrame props delta s))).
  rewrite vertical_useFrame. unfold vertical_step.
  rewrite v_bobbing_offset, v_gravity_offset. reflexivity.
Qed.

Lemma v_upDown_range k w :
  minHeightOffset <= v_offset w <= maxHeightOffset ->
  minHeightOffset <= v_offset (v_upDown k w) <= maxHeightOffset.
Proof.
  unfold v_upDown, minHeightOffset, maxHeightOffset. cbn. intros H.
  destruct (k_up k), (k_down k);
    repeat match goal with
           | |- context [Rmin ?a ?b] =>
               destruct (Rmin_cases a b) as [[? ->] | [? ->]]
           | |- context [Rmax ?a ?b] =>
               destruct (Rmax_cases a b) as [[? ->] | [? ->]]
           end; lra.
Qed.

Lemma offset_step props e s :
  minHeightOffset <= cameraHeightOffset s <= maxHeightOffset ->
  minHeightOffset <= cameraHeightOffset (step props e s) <= maxHeightOffset.
Proof.
  intros H. destruct e as [delta | code | code | ax ay | tx tz]; cbn [step].
  - rewrite useFrame_offset. apply v_upDown_range. exact H.
  - destruct code; cbn; try exact H. destruct (canJump s); exact H.
  - destruct code; exact H.
  - unfold processRotation. destruct (_ || _); exact H.
  - exact H.
Qed.

(** X7. The operator height offset never leaves its range: after the mount
    effect and any sequence of frames, key events, mouse rotations and
    teleports it lies between -1.5 and 2. *)
Theorem X7_height_offset_range :
  forall (props : Props) (es : list Event),
    - (15 / 10) <= cameraHeightOffset (run props es (mount props)) <= 2.
Proof.
  intros props es.
  assert (H : forall s,
             minHeightOffset <= cameraHeightOffset s <= maxHeightOffset ->
             minHeightOffset <= cameraHeightOffset (run props es s)
             <= maxHeightOffset).
  { induction es as [| e es IH]; intros s Hs; cbn; [exact Hs |].
    apply IH, offset_step, Hs. }
  specialize (H (mount props)). unfold minHeightOffset, maxHeightOffset in H.
  apply H. cbn. lra.
Qed.

Lemma Rmin_saturate o a : 0 <= a -> Rmin 2 (Rmin 2 o + a) = Rmin 2 (o + a).
Proof.
  intros Ha.
  destruct (Rmin_cases 2 o) as [[? ->] | [? ->]];
    destruct (Rmin_cases 2 (o + a)) as [[? ->] | [? ->]];
    try lra;
    destruct (Rmin_cases 2 (2 + a)) as [[? ->] | [? ->]]; lra.
Qed.

Lemma Rmax_saturate o a :
  0 <= a -> Rmax (- (15 / 10)) (Rmax (- (15 / 10)) o - a)
            = Rmax (- (15 / 10)) (o - a).
Proof.
  intros Ha.
  destruct (Rmax_cases (- (15 / 10)) o) as [[? ->] | [? ->]];
    destruct (Rmax_cases (- (15 / 10)) (o - a)) as [[? ->] | [? ->]];
    try lra;
    destruct (Rmax_cases (- (15 / 10)) (- (15 / 10) - a))
      as [[? ->] | [? ->]]; lra.
Qed.

Lemma keys_useFrame_up_down props delta s :
  moveUp (useFrame props delta s) = moveUp s /\
  moveDown (useFrame props delta s) = moveDown s.
Proof.
  pose proof (keys_useFrame props delta s) as H. unfold keys_of in H.
  injection H as _ _ _ _ Hu Hd. auto.
Qed.

(** X8. Holding Q alone raises the height offset by 0.05 per frame,
    whatever the frame durations, until it saturates at 2; holding E alone
    lowers it by 0.05 per frame until it saturates at -1.5.  Both are
    counted in frames, not in seconds. *)
Theorem X8_height_keys_closed_form :
  forall (props : Props) (deltas : list R) (s : Controls),
    - (15 / 10) <= cameraHeightOffset s <= 2 ->
    (moveUp s = true -> moveDown s = false ->
     cameraHeightOffset (run_frames props deltas s) =
     Rmin 2 (cameraHeightOffset s + INR (List.length deltas) * (5 / 100))) /\
    (moveUp s = false -> moveDown s = true ->
     cameraHeightOffset (run_frames props deltas s) =
     Rmax (- (15 / 10))
          (cameraHeightOffset s - INR (List.length deltas) * (5 / 100))).
Proof.
  intros props deltas. induction deltas as [| d ds IH]; intros s Hr.
  - cbn. split; intros Hu Hd.
    + rewrite Rmin_right by lra. lra.
    + rewrite Rmax_right by lra. lra.
  - assert (Hr' : - (15 / 10) <= cameraHeightOffset (useFrame props d s) <= 2)
      by (apply (offset_step props (Frame d) s); exact Hr).
    destruct (keys_useFrame_up_down props d s) as [Ku Kd].
    assert (Hn : 0 <= INR (List.length ds) * (5 / 100)).
    { apply Rmult_le_pos; [apply pos_INR | lra]. }
    destruct (IH (useFrame props d s) Hr') as [IHu IHd].
    cbn [run_frames List.length]. rewrite S_INR.
    split; intros Hu Hd.
    + rewrite IHu by (rewrite ?Ku, ?Kd; assumption).
      rewrite useFrame_offset. unfold v_upDown. cbn.
      rewrite Hu, Hd. unfold maxHeightOffset.
      rewrite Rmin_saturate by exact Hn. f_equal. lra.
    + rewrite IHd by (rewrite ?Ku, ?Kd; assumption).
      rewrite useFrame_offset. unfold v_upDown. cbn.
      rewrite Hu, Hd. unfold minHeightOffset.
      rewrite Rmax_saturate by exact Hn. f_equal. lra.
Qed.

Lemma X8_height_keys_closed_form_witness :
  cameraHeightOffset
    (run_frames (default_props []) (repeat (1 / 60) 50)
       (handleKeyDown KeyQ grounded_sample)) =
  Rmin 2 (0 + INR 50 * (5 / 100)).
Proof.
  assert (H : - (15 / 10) <=
              cameraHeightOffset (handleKeyDown KeyQ grounded_sample) <= 2)
    by (cbn; lra).
  exact (proj1 (X8_height_keys_closed_form (default_props [])
                  (repeat (1 / 60) 50)
                  (handleKeyDown KeyQ grounded_sample) H)
               eq_refl eq_refl).
Defined.

(** ** Standing, sinking and jumping without gravity *)

Lemma vertical_step_not_moving props d k w :
  k_forward k = false -> k_backward k = false ->
  vertical_step props d k w = vertical_step props 0 k w.
Proof.
  intros Hf Hb. unfold vertical_step, v_bobbing.
  rewrite Hf, Hb, andb_false_r. reflexivity.
Qed.

Lemma vertical_run_not_moving props deltas k w :
  k_forward k = false -> k_backward k = false ->
  vertical_run props deltas k w =
  vertical_iter props k (List.length deltas) w.
Proof.
  intros Hf Hb. revert w.
  induction deltas as [| d ds IH]; intros w; cbn; [reflexivity |].
  rewrite IH, (vertical_step_not_moving props d k w Hf Hb). reflexivity.
Qed.

Lemma grounded_iter props k n off c b t :
  enableGravity props = true -> keys_still k ->
  vertical_iter props k (S n)
    (mkVertical (0 + playerHeight props + off) 0 c off b t) =
  mkVertical (0 + playerHeight props + off) 0 true off
             (0 + playerHeight props + off) 0.
Proof.
  intros Hg Hk. revert c b t.
  induction n as [| n IH]; intros c b t.
  - cbn [vertical_iter]. apply landing_step; auto; lra.
  - change (vertical_iter props k (S (S n)) ?w)
      with (vertical_iter props k (S n) (vertical_step props 0 k w)).
    rewrite landing_step by (auto; lra). apply IH.
Qed.

(** X9. Standing is stable.  With gravity enabled and no translation or
    height key held, a player at rest on the ground is at rest on the
    ground after every further frame: same height, zero vertical velocity,
    jump-eligible, same height offset. *)
Theorem X9_grounded_is_stable :
  forall (props : Props) (deltas : list R) (s : Controls),
    enableGravity props = true ->
    keys_still (keys_of s) ->
    grounded props s ->
    let s' := run_frames props deltas s in
    grounded props s' /\
    cameraHeightOffset s' = cameraHeightOffset s /\
    vy (camera_position s') = vy (camera_position s).
Proof.
  intros props deltas s Hg Hk (Hc & Hv & Hy) s'.
  assert (Hw : vertical_of s =
               mkVertical (0 + playerHeight props + cameraHeightOffset s) 0
                          true (cameraHeightOffset s) (baseHeightRef s)
                          (bobTime s)).
  { unfold vertical_of. rewrite Hc, Hv, Hy. reflexivity. }
  destruct deltas as [| d ds].
  - cbn in s'. subst s'. unfold grounded. auto.
  - assert (Hs' : vertical_of s' =
                  mkVertical (0 + playerHeight props + cameraHeightOffset s) 0
                             true (cameraHeightOffset s)
                             (0 + playerHeight props + cameraHeightOffset s)
                             0).
    { unfold s'. rewrite vertical_run_frames, Hw.
      rewrite (vertical_run_still props _ _ _ Hk).
      cbn [List.length]. apply grounded_iter; assumption. }
    unfold grounded.
    change (canJump s') with (v_canJump (vertical_of s')).
    change (vy (velocity s')) with (v_velocity (vertical_of s')).
    change (vy (camera_position s')) with (v_y (vertical_of s')).
    change (cameraHeightOffset s') with (v_offset (vertical_of s')).
    rewrite Hs', Hy. cbn. auto.
Qed.

Lemma X9_grounded_is_stable_witness :
  grounded (default_props [])
    (run_frames (default_props []) [1 / 60; 1 / 30; 1 / 144] grounded_sample).
Proof.
  exact (proj1 (X9_grounded_is_stable (default_props [])
                  [1 / 60; 1 / 30; 1 / 144] grounded_sample eq_refl
                  (conj eq_refl (conj eq_refl (conj eq_refl eq_refl)))
                  (conj eq_refl (conj eq_refl eq_refl)))).
Defined.


Lemma pinned_iter props k n y v c off b t :
  enableGravity props = false -> keys_still k ->
  vertical_iter props k (S n) (mkVertical y v c off b t) =
  mkVertical (playerHeight props + off) v c off (playerHeight props + off) 0.
Proof.
  intros Hg (Hf & Hb & Hu & Hd).
  assert (Hstep : forall y b t,
             vertical_step props 0 k (mkVertical y v c off b t) =
             mkVertical (playerHeight props + off) v c off
                        (playerHeight props + off) 0).
  { intros. unfold vertical_step, v_bobbing, v_gravity, v_upDown. cbn.
    rewrite Hf, Hb, Hu, Hd, Hg, andb_false_r. reflexivity. }
  revert y b t. induction n as [| n IH]; intros y b t.
  - cbn [vertical_iter]. apply Hstep.
  - change (vertical_iter props k (S (S n)) ?w)
      with (vertical_iter props k (S n) (vertical_step props 0 k w)).
    rewrite Hstep. apply IH.
Qed.

(** X10. With gravity disabled a jump request is never paid back: it adds
    0.15 to the vertical velocity and clears jump eligibility, and then,
    with no translation or height key held, every frame pins the camera to
    [playerHeight + heightOffset], keeps the velocity at that value and
    never restores eligibility.  The camera never leaves the ground and
    Space stays dead until a teleport. *)
Theorem X10_jump_without_gravity :
  forall (props : Props) (d : R) (deltas : list R) (s : Controls),
    enableGravity props = false ->
    keys_still (keys_of s) ->
    canJump s = true ->
    let s' := run_frames props (d :: deltas) (handleKeyDown Space s) in
    canJump s' = false /\
    vy (velocity s') = vy (velocity s) + 15 / 100 /\
    vy (camera_position s') = playerHeight props + cameraHeightOffset s /\
    velocity (handleKeyDown Space s') = velocity s'.
Proof.
  intros props d deltas s Hg Hk Hc s'.
  assert (Hs' : vertical_of s' =
                mkVertical (playerHeight props + cameraHeightOffset s)
                           (vy (velocity s) + 15 / 100) false
                           (cameraHeightOffset s)
                           (playerHeight props + cameraHeightOffset s) 0).
  { unfold s'. rewrite vertical_run_frames, jump_keys, (jump_vertical s Hc).
    rewrite (vertical_run_still props _ _ _ Hk). cbn [List.length].
    apply pinned_iter; assumption. }
  assert (Hcj : canJump s' = false).
  { change (v_canJump (vertical_of s') = false). rewrite Hs'. reflexivity. }
  split; [exact Hcj | split; [| split]].
  - change (v_velocity (vertical_of s') = vy (velocity s) + 15 / 100).
    rewrite Hs'. reflexivity.
  - change (v_y (vertical_of s') = playerHeight props + cameraHeightOffset s).
    rewrite Hs'. reflexivity.
  - cbv beta iota delta [handleKeyDown]. rewrite Hcj. reflexivity.
Qed.

Lemma X10_jump_without_gravity_witness :
  canJump
    (run_frames (mkProps [] (1 / 10) (16 / 10) false true true)
       [1 / 60; 1 / 60]
       (handleKeyDown Space
          (teleportPlayer (mkProps [] (1 / 10) (16 / 10) false true true) 0 0
             (mount (mkProps [] (1 / 10) (16 / 10) false true true)))))
  = false.
Proof.
  exact (proj1 (X10_jump_without_gravity
                  (mkProps [] (1 / 10) (16 / 10) false true true)
                  (1 / 60) [1 / 60]
                  (teleportPlayer
                     (mkProps [] (1 / 10) (16 / 10) false true true) 0 0
                     (mount (mkProps [] (1 / 10) (16 / 10) false true true)))
                  eq_refl
                  (conj eq_refl (conj eq_refl (conj eq_refl eq_refl)))
                  eq_refl)).
Defined.

Lemma sinking_iter props k n :
  enableGravity props = true -> keys_sinking k ->
  forall off v b t,
    - (15 / 10) <= off - INR n * (5 / 100) ->
    vertical_iter props k n
      (mkVertical (0 + playerHeight props + off) v true off b t) =
    match n with
    | O => mkVertical (0 + playerHeight props + off) v true off b t
    | S _ =>
        mkVertical (0 + playerHeight props + (off - INR n * (5 / 100)))
                   (v - INR n * (1 / 100)) true (off - INR n * (5 / 100))
                   (0 + playerHeight props + (off - INR n * (5 / 100))) 0
    end.
Proof.
  intros Hg (Hf & Hb & Hu & Hd).
  assert (Hstep : forall off v b t,
             - (15 / 10) <= off - 5 / 100 ->
             vertical_step props 0 k
               (mkVertical (0 + playerHeight props + off) v true off b t) =
             mkVertical (0 + playerHeight props + (off - 5 / 100))
                        (v - 1 / 100) true (off - 5 / 100)
                        (0 + playerHeight props + (off - 5 / 100)) 0).
  { intros off v b t Hr.
    unfold vertical_step, v_bobbing, v_gravity, v_upDown, landed. cbn.
    rewrite Hf, Hb, Hu, Hd, Hg, andb_false_r. cbn.
    unfold minHeightOffset. rewrite Rmax_right by lra.
    replace (Rleb (0 + playerHeight props + off)
                  (0 + playerHeight props + (off - 5 / 100)))
      with false by (symmetry; apply Rleb_false; lra).
    reflexivity. }
  induction n as [| n IH]; intros off v b t Hr; [reflexivity |].
  rewrite S_INR in Hr.
  assert (Hn : 0 <= INR n) by apply pos_INR.
  cbn [vertical_iter]. rewrite Hstep by lra.
  rewrite IH by lra. rewrite S_INR.
  destruct n as [| n]; cbn [INR]; f_equal; try lra.
  all: rewrite <- ?S_INR; lra.
Qed.

(** X11. Sinking builds up downward velocity.  From rest on the ground with
    gravity enabled, holding E alone for [n] frames that stay inside the
    height range lowers the offset by 0.05 per frame and keeps the camera
    on the sinking ground target and jump-eligible, while the vertical
    velocity falls to [-n/100]; a jump requested then starts with velocity
    [0.15 - n/100], which is not upward once [n] is 15 or more. *)
Theorem X11_sinking_accumulates_velocity :
  forall (props : Props) (deltas : list R) (s : Controls),
    enableGravity props = true ->
    keys_sinking (keys_of s) ->
    grounded props s ->
    let n := INR (List.length deltas) in
    - (15 / 10) <= cameraHeightOffset s - n * (5 / 100) ->
    let s' := run_frames props deltas s in
    cameraHeightOffset s' = cameraHeightOffset s - n * (5 / 100) /\
    vy (camera_position s') = 0 + playerHeight props + cameraHeightOffset s' /\
    canJump s' = true /\
    vy (velocity s') = - (n / 100) /\
    vy (velocity (handleKeyDown Space s')) = 15 / 100 - n / 100.
Proof.
  intros props deltas s Hg Hk (Hc & Hv & Hy) n Hr s'.
  assert (Hw : vertical_of s =
               mkVertical (0 + playerHeight props + cameraHeightOffset s) 0
                          true (cameraHeightOffset s) (baseHeightRef s)
                          (bobTime s)).
  { unfold vertical_of. rewrite Hc, Hv, Hy. reflexivity. }
  assert (Hs' : vertical_of s' =
                vertical_iter props (keys_of s) (List.length deltas)
                  (vertical_of s)).
  { unfold s'. rewrite vertical_run_frames.
    destruct Hk as (Hf & Hb & _).
    apply vertical_run_not_moving; assumption. }
  rewrite Hw, (sinking_iter props _ _ Hg Hk) in Hs' by exact Hr.
  assert (Hfields :
            v_offset (vertical_of s') = cameraHeightOffset s - n * (5 / 100) /\
            v_y (vertical_of s') =
            0 + playerHeight props + v_offset (vertical_of s') /\
            v_canJump (vertical_of s') = true /\
            v_velocity (vertical_of s') = - (n / 100)).
  { rewrite Hs'. subst n. destruct (List.length deltas) eqn:El; cbn.
    - repeat split; lra.
    - repeat split; lra. }
  destruct Hfields as (Ho & Hy' & Hc' & Hv').
  change (v_offset (vertical_of s')) with (cameraHeightOffset s') in Ho, Hy'.
  change (v_y (vertical_of s')) with (vy (camera_position s')) in Hy'.
  change (v_canJump (vertical_of s')) with (canJump s') in Hc'.
  change (v_velocity (vertical_of s')) with (vy (velocity s')) in Hv'.
  repeat split; try assumption.
  cbv beta iota delta [handleKeyDown]. rewrite Hc'. cbn. rewrite Hv'. lra.
Qed.

Lemma sinking_sample_grounded : grounded (default_props []) sinking_sample.
Proof. repeat split; reflexivity. Qed.

Lemma X11_sinking_accumulates_velocity_witness :
  vy (velocity
        (handleKeyDown Space
           (run_frames (default_props []) (repeat (1 / 60) 20)
              sinking_sample))) =
  15 / 100 - INR 20 / 100.
Proof.
  assert (Hr : - (15 / 10) <=
               cameraHeightOffset sinking_sample
               - INR (List.length (repeat (1 / 60) 20)) * (5 / 100)).
  { rewrite repeat_length, INR_IZR_INZ. cbn. lra. }
  exact (proj2 (proj2 (proj2 (proj2
           (X11_sinking_accumulates_velocity (default_props [])
              (repeat (1 / 60) 20) sinking_sample eq_refl
              (conj eq_refl (conj eq_refl (conj eq_refl eq_refl)))
              sinking_sample_grounded Hr))))).
Defined.


(** ** Orientation *)

Lemma keys_useFrame_rotate props delta s :
  rotateLeft (useFrame props delta s) = rotateLeft s /\
  rotateRight (useFrame props delta s) = rotateRight s.
Proof.
  pose proof (keys_useFrame props delta s) as H. unfold keys_of in H.
  injection H as _ _ Hl Hr _ _. auto.
Qed.

(** X12. With no rotation key held and no mouse input, frames leave the
    target orientation alone and shrink the pitch error geometrically:
    after the frames the difference between current and target pitch is the
    initial difference times the product of [1 - min(1, 15 * delta)] over
    the frames.  A single frame of 1/15 s or longer closes it entirely. *)
Theorem X12_pitch_error_decay :
  forall (props : Props) (deltas : list R) (s : Controls),
    rotateLeft s = false -> rotateRight s = false ->
    let s' := run_frames props deltas s in
    targetRotation s' = targetRotation s /\
    ex (currentRotation s') - ex (targetRotation s) =
    remaining deltas * (ex (currentRotation s) - ex (targetRotation s)) /\
    (forall d, In d deltas -> 1 / 15 <= d ->
               ex (currentRotation s') = ex (targetRotation s)).
Proof.
  intros props deltas.
  induction deltas as [| d ds IH]; intros s Hl Hr.
  - cbn. repeat split; try ring. intros d [].
  - destruct (keys_useFrame_rotate props d s) as [Kl Kr].
    destruct (IH (useFrame props d s)) as (Ht & He & Hsnap);
      [rewrite Kl; exact Hl | rewrite Kr; exact Hr |].
    pose proof (useFrame_targetRotation_idle props d s Hl Hr) as Hid.
    destruct (useFrame_currentRotation props d s) as [Hx _].
    cbv zeta in Hx, Ht, He, Hsnap. rewrite Hid in Hx, Ht, He, Hsnap.
    cbn [run_frames remaining]. cbv zeta.
    assert (Herr : ex (currentRotation (useFrame props d s))
                   - ex (targetRotation s) =
                   (1 - Rmin 1 (15 * d))
                   * (ex (currentRotation s) - ex (targetRotation s)))
      by (rewrite Hx; ring).
    split; [exact Ht | split].
    + rewrite He, Herr. ring.
    + intros d' [<- | Hin] Hd.
      * rewrite Rmin_left in Herr by lra.
        rewrite Herr in He.
        assert (E : ex (currentRotation
                          (run_frames props ds (useFrame props d s)))
                    - ex (targetRotation s) = 0) by (rewrite He; ring).
        lra.
      * apply (Hsnap d' Hin Hd).
Qed.

Lemma X12_pitch_error_decay_witness :
  ex (currentRotation
        (run_frames (default_props []) [1 / 60; 1 / 10] pitched_sample)) =
  ex (targetRotation pitched_sample).
Proof.
  assert (H : 1 / 15 <= 1 / 10) by lra.
  exact (proj2 (proj2 (X12_pitch_error_decay (default_props [])
                         [1 / 60; 1 / 10] pitched_sample eq_refl eq_refl))
               (1 / 10) (or_intror (or_introl eq_refl)) H).
Defined.

Lemma setFromQuaternion_order e q :
  eorder (setFromQuaternion e q) = eorder e.
Proof.
  unfold setFromQuaternion. destruct (eorder e); cbv zeta;
    destruct (Rltb _ _); reflexivity.
Qed.

Lemma setFromQuaternion_receiver e e' q :
  eorder e = eorder e' -> setFromQuaternion e q = setFromQuaternion e' q.
Proof. unfold setFromQuaternion. intros ->. reflexivity. Qed.

(** X13. The two rotation keys do not cancel.  With D held, a frame turns
    the target yaw right by [2 * delta] from the camera's yaw whether or
    not A is held as well: the second branch reads the camera again and
    overwrites what the first one wrote. *)
Theorem X13_turn_right_wins :
  forall (props : Props) (delta : R) (s : Controls),
    rotateRight s = true ->
    let s' := useFrame props delta s in
    rotation_of s' = rotation_of (useFrame props delta (set_rotateLeft false s))
    /\ ey (targetRotation s') =
       ey (setFromQuaternion (euler s) (camera_quaternion s)) - 2 * delta.
Proof.
  intros props delta s Hr s'.
  assert (Hstep : rotation_step delta (keys_of s) (rotation_of s) =
                  rotation_step delta (keys_of (set_rotateLeft false s))
                    (rotation_of (set_rotateLeft false s))).
  { unfold rotation_step. f_equal. unfold r_keys. cbn. rewrite Hr.
    destruct (rotateLeft s); [| reflexivity].
    unfold r_turn.
    rewrite (setFromQuaternion_receiver
               (mkEuler _ _ _ _) (euler s) (camera_quaternion s))
      by (cbn; apply setFromQuaternion_order).
    reflexivity. }
  split.
  - unfold s'. rewrite !rotation_useFrame. exact Hstep.
  - change (ey (r_target (rotation_of s')) =
            ey (setFromQuaternion (euler s) (camera_quaternion s))
            - 2 * delta).
    unfold s'. rewrite rotation_useFrame, Hstep.
    unfold rotation_step, r_smooth, r_keys, r_turn. cbn. rewrite Hr. cbn.
    ring.
Qed.

Lemma X13_turn_right_wins_witness :
  rotation_of
    (useFrame (default_props []) (1 / 60)
       (handleKeyDown KeyD (handleKeyDown KeyA grounded_sample))) =
  rotation_of
    (useFrame (default_props []) (1 / 60)
       (set_rotateLeft false
          (handleKeyDown KeyD (handleKeyDown KeyA grounded_sample)))).
Proof.
  exact (proj1 (X13_turn_right_wins (default_props []) (1 / 60)
                  (handleKeyDown KeyD (handleKeyDown KeyA grounded_sample))
                  eq_refl)).
Defined.


Lemma setFromQuaternion_pitch e q :
  eorder e = YXZ ->
  - (PI / 2) <= ex (setFromQuaternion e q) <= PI / 2.
Proof.
  intros Ho. unfold setFromQuaternion. rewrite Ho. cbv zeta.
  destruct (Rltb _ _); cbn; apply asin_bound.
Qed.

Lemma rotLerpFactor_range delta :
  0 <= delta -> 0 <= rotLerpFactor delta <= 1.
Proof.
  intros Hd. unfold rotLerpFactor.
  destruct (Rmin_cases 1 (delta * 15)) as [[? ->] | [? ->]]; lra.
Qed.

Lemma pitch_bounded_useFrame props delta s :
  0 <= delta -> pitch_bounded s -> pitch_bounded (useFrame props delta s).
Proof.
  intros Hd (Ho & Ht & Hc).
  pose proof (rotLerpFactor_range delta Hd) as Hf.
  assert (Hr : rotation_of (useFrame props delta s) =
               rotation_step delta (keys_of s) (rotation_of s))
    by apply rotation_useFrame.
  assert (Hk : eorder (r_euler (r_keys delta (keys_of s) (rotation_of s)))
               = YXZ /\
               - (PI / 2)
               <= ex (r_target (r_keys delta (keys_of s) (rotation_of s)))
               <= PI / 2 /\
               r_current (r_keys delta (keys_of s) (rotation_of s))
               = currentRotation s).
  { unfold r_keys, r_turn. cbn.
    destruct (rotateLeft s), (rotateRight s); cbn;
      rewrite ?setFromQuaternion_order; cbn;
      rewrite ?setFromQuaternion_order;
      repeat split; try assumption;
      try (apply setFromQuaternion_pitch; cbn;
           rewrite ?setFromQuaternion_order; assumption);
      apply Ht. }
  destruct Hk as (Ko & Kt & Kc).
  unfold pitch_bounded.
  change (euler (useFrame props delta s))
    with (r_euler (rotation_of (useFrame props delta s))).
  change (targetRotation (useFrame props delta s))
    with (r_target (rotation_of (useFrame props delta s))).
  change (currentRotation (useFrame props delta s))
    with (r_current (rotation_of (useFrame props delta s))).
  rewrite Hr. unfold rotation_step, r_smooth. cbn.
  rewrite Kc. repeat split; try assumption; try apply Kt.
  - set (t := ex (r_target (r_keys delta (keys_of s) (rotation_of s)))) in *.
    set (c := ex (currentRotation s)) in *.
    set (f := rotLerpFactor delta) in *.
    replace (c + (t - c) * f) with ((1 - f) * c + f * t) by ring.
    nra.
  - set (t := ex (r_target (r_keys delta (keys_of s) (rotation_of s)))) in *.
    set (c := ex (currentRotation s)) in *.
    set (f := rotLerpFactor delta) in *.
    replace (c + (t - c) * f) with ((1 - f) * c + f * t) by ring.
    nra.
Qed.

Lemma pitch_bounded_step props e s :
  forward_in_time e = true -> pitch_bounded s ->
  pitch_bounded (step props e s).
Proof.
  intros He Hs. destruct e as [delta | code | code | ax ay | tx tz];
    cbn [step].
  - apply pitch_bounded_useFrame; [| exact Hs].
    cbn in He. apply Rleb_true in He. exact He.
  - destruct code; cbn; try exact Hs. destruct (canJump s); exact Hs.
  - destruct code; exact Hs.
  - destruct Hs as (Ho & Ht & Hc). unfold processRotation.
    destruct (_ || _); [| exact (conj Ho (conj Ht Hc))].
    unfold pitch_bounded. cbn. rewrite setFromQuaternion_order.
    pose proof PI_RGT_0.
    repeat split; try assumption; try apply Hc;
      apply clamp_range; lra.
  - exact Hs.
Qed.

(** X14. The pitch never passes a quarter turn.  After the mount effect and
    any sequence of key events, mouse rotations, teleports and frames of
    non-negative duration, the target pitch and the current pitch both lie
    in [[-PI/2, PI/2]]. *)
Theorem X14_pitch_stays_within_quarter_turn :
  forall (props : Props) (es : list Event),
    forallb forward_in_time es = true ->
    let s := run props es (mount props) in
    - (PI / 2) <= ex (targetRotation s) <= PI / 2 /\
    - (PI / 2) <= ex (currentRotation s) <= PI / 2.
Proof.
  intros props es Hes.
  assert (H : forall s, pitch_bounded s -> pitch_bounded (run props es s)).
  { induction es as [| e es IH]; intros s Hs; cbn; [exact Hs |].
    cbn in Hes. apply andb_true_iff in Hes. destruct Hes as [He Hes].
    apply (IH Hes). apply pitch_bounded_step; assumption. }
  destruct (H (mount props)) as (_ & Ht & Hc).
  - pose proof PI_RGT_0. unfold pitch_bounded. cbn. repeat split; lra.
  - split; assumption.
Qed.

Lemma forward_in_time_sample :
  forallb forward_in_time
    [MouseRotation 3 0; Frame (1 / 60); KeyDown KeyA; Frame (1 / 30)] = true.
Proof.
  cbn. rewrite !andb_true_r. apply andb_true_iff.
  split; apply Rleb_true; lra.
Qed.

Lemma X14_pitch_stays_within_quarter_turn_witness :
  let s := run (default_props [])
             [MouseRotation 3 0; Frame (1 / 60); KeyDown KeyA; Frame (1 / 30)]
             (mount (default_props [])) in
  - (PI / 2) <= ex (currentRotation s) <= PI / 2.
Proof.
  exact (proj2 (X14_pitch_stays_within_quarter_turn (default_props []) _
                  forward_in_time_sample)).
Defined.


(** ** Where the player can walk *)

Lemma half_angle_sin a : sin a = 2 * sin (a / 2) * cos (a / 2).
Proof. rewrite <- sin_2a. f_equal. field. Qed.

Lemma half_angle_cos a : cos a = 1 - 2 * sin (a / 2) * sin (a / 2).
Proof. rewrite <- cos_2a_sin. f_equal. field. Qed.

Lemma sin_cos_one a : sin a * sin a + cos a * cos a = 1.
Proof. exact (sin2_cos2 a). Qed.

(** The forward direction seen through a camera with pitch [p], yaw [w] and
    no roll, in the ['XYZ'] order of the current orientation. *)
Lemma move_direction_forward_euler k p w :
  k_forward k = true -> k_backward k = false ->
  move_direction k (setFromEuler (mkEuler p w 0 XYZ)) =
  mkVector3 (- sin w) 0 (- (cos p * cos w)).
Proof.
  intros Hf Hb. unfold move_direction, normalize, length, Vector3_zero.
  rewrite Hf, Hb. cbn.
  replace (0 * 0 + 0 * 0 + (0 - 1) * (0 - 1)) with 1 by ring.
  rewrite sqrt_1, Reqb_1_0.
  replace (0 / 2) with 0 by lra. rewrite cos_0, sin_0.
  rewrite (half_angle_sin w), (half_angle_cos p), (half_angle_cos w).
  pose proof (sin_cos_one (p / 2)) as H1.
  pose proof (sin_cos_one (w / 2)) as H2.
  generalize dependent (sin (p / 2)). generalize dependent (cos (p / 2)).
  generalize dependent (sin (w / 2)). generalize dependent (cos (w / 2)).
  intros c2 s2 H2 c1 s1 H1.
  assert (C1 : c1 * c1 = 1 - s1 * s1) by lra.
  assert (C2 : c2 * c2 = 1 - s2 * s2) by lra.
  f_equal.
  - match goal with |- ?l = _ =>
      replace l with (- (2 * s2 * c2) * (s1 * s1 + c1 * c1)) by field
    end.
    rewrite H1. ring.
  - match goal with |- ?l = _ =>
      replace l
        with (- 1 + 2 * (s1 * s1) * (c2 * c2) + 2 * (c1 * c1) * (s2 * s2))
        by field
    end.
    rewrite C1, C2. ring.
Qed.

(** X15. Ground speed depends on where the player looks.  With forward
    alone held, a level roll and the ['XYZ'] order of the current
    orientation, the move vector of a frame is the terrain speed times
    [(- sin yaw, 0, - cos pitch * cos yaw)] for the pitch and yaw the frame
    has just smoothed: the vertical part of the rotated direction is
    dropped without renormalising, so pitch shortens the step along [z]
    and leaves the step along [x] alone. *)
Theorem X15_move_vector_from_orientation :
  forall (props : Props) (delta : R) (s : Controls),
    moveForward s = true -> moveBackward s = false ->
    ez (currentRotation s) = 0 -> eorder (currentRotation s) = XYZ ->
    let s' := useFrame props delta s in
    let pitch := ex (currentRotation s') in
    let yaw := ey (currentRotation s') in
    let c := currentSpeed props
               (isOnRoad s (vx (camera_position s)) (vz (camera_position s)))
             * delta * 60 in
    moveVector props delta s =
    mkVector3 (- sin yaw * c) (0 * c) (- (cos pitch * cos yaw) * c).
Proof.
  intros props delta s Hf Hb Hz Ho s' pitch yaw c.
  assert (Hcur : currentRotation s' =
                 r_current (rotation_step delta (keys_of s) (rotation_of s))).
  { unfold s'. rewrite <- (rotation_useFrame props). reflexivity. }
  assert (Hkc : r_current (r_keys delta (keys_of s) (rotation_of s)) =
                currentRotation s).
  { unfold r_keys. cbn. destruct (rotateRight s); reflexivity. }
  assert (Hq : r_camera (rotation_step delta (keys_of s) (rotation_of s)) =
               setFromEuler (mkEuler pitch yaw 0 XYZ)).
  { unfold pitch, yaw. rewrite Hcur. unfold rotation_step, r_smooth.
    cbn. rewrite Hkc, Hz, Ho. reflexivity. }
  unfold moveVector. rewrite Hq.
  rewrite (move_direction_forward_euler (keys_of s) pitch yaw Hf Hb).
  reflexivity.
Qed.

Lemma X15_move_vector_from_orientation_witness :
  let s' := useFrame (default_props []) (1 / 60) looking_down in
  let c := currentSpeed (default_props [])
             (isOnRoad looking_down (vx (camera_position looking_down))
                (vz (camera_position looking_down)))
           * (1 / 60) * 60 in
  moveVector (default_props []) (1 / 60) looking_down =
  mkVector3 (- sin (ey (currentRotation s')) * c) (0 * c)
            (- (cos (ex (currentRotation s')) * cos (ey (currentRotation s')))
             * c).
Proof.
  exact (X15_move_vector_from_orientation (default_props []) (1 / 60)
           looking_down eq_refl eq_refl eq_refl eq_refl).
Defined.

Lemma move_direction_cancel k q :
  k_forward k = true -> k_backward k = true ->
  move_direction k q = mkVector3 0 0 0.
Proof.
  intros Hf Hb. unfold move_direction, normalize, length, Vector3_zero.
  rewrite Hf, Hb. cbn.
  replace (0 * 0 + 0 * 0 + (0 - 1 + 1) * (0 - 1 + 1)) with 0 by ring.
  rewrite sqrt_0.
  replace (Reqb 0 0) with true by (symmetry; apply Reqb_true; reflexivity).
  unfold applyQuaternion. cbn. f_equal; field.
Qed.

(** X16. Opposing translation keys cancel.  With forward and backward both
    held the move vector is zero, so a frame that starts inside the world
    bounds with the smoothed position on the camera, and whose candidate
    is free, leaves the camera where it is horizontally. *)
Theorem X16_opposing_keys_cancel :
  forall (props : Props) (delta : R) (s : Controls),
    moveForward s = true -> moveBackward s = true ->
    moveVector props delta s = mkVector3 0 0 0 /\
    (synced s -> in_bounds (camera_position s) ->
     collides props delta s = false ->
     vx (camera_position (useFrame props delta s)) = vx (camera_position s) /\
     vz (camera_position (useFrame props delta s)) = vz (camera_position s)).
Proof.
  intros props delta s Hf Hb.
  assert (Hmv : moveVector props delta s = mkVector3 0 0 0).
  { unfold moveVector. rewrite (move_direction_cancel (keys_of s) _ Hf Hb).
    unfold multiplyScalar. cbn. f_equal; ring. }
  split; [exact Hmv |].
  intros [Sx Sz] Hin Hfree.
  destruct (pre_clamp_free props delta s Hfree) as (Cx & Cz & _).
  rewrite candidate_eq, Hmv in Cx, Cz. cbn in Cx, Cz.
  rewrite Sx in Cx. rewrite Sz in Cz.
  assert (Ex : vx (camera_position (pre_clamp props delta s)) =
               vx (camera_position s)) by (rewrite Cx; ring).
  assert (Ez : vz (camera_position (pre_clamp props delta s)) =
               vz (camera_position s)) by (rewrite Cz; ring).
  destruct (frame_clamp_in_bounds_id (pre_clamp props delta s)) as [Fx Fz].
  { unfold in_bounds. rewrite Ex, Ez. exact Hin. }
  rewrite <- useFrame_pre_clamp in Fx, Fz.
  rewrite Fx, Fz. auto.
Qed.

Lemma X16_opposing_keys_cancel_witness :
  moveVector (default_props []) (1 / 60)
    (handleKeyDown KeyS (handleKeyDown KeyW grounded_sample)) =
  mkVector3 0 0 0.
Proof.
  exact (proj1 (X16_opposing_keys_cancel (default_props []) (1 / 60)
                  (handleKeyDown KeyS (handleKeyDown KeyW grounded_sample))
                  eq_refl eq_refl)).
Defined.

(** X17. Walking straight ahead in an open world, level and with forward
    alone held: [n] frames of the same duration [delta] that stay inside
    the world bounds advance the camera along [-z] by exactly
    [n * speed * 60 * delta * min(1, 15 * delta)] and leave [x] alone.  The
    distance per frame is quadratic in [delta] below 1/15 s. *)
Theorem X17_straight_walk_distance :
  forall (props : Props) (delta : R) (n : nat) (s : Controls),
    straight s ->
    0 <= speed props -> 0 <= delta ->
    let step_length := speed props * 60 * delta * Rmin 1 (15 * delta) in
    - 15 <= vx (camera_position s) <= 15 ->
    vz (camera_position s) <= 15 ->
    - 15 <= vz (camera_position s) - INR n * step_length ->
    let s' := run_frames props (repeat delta n) s in
    vx (camera_position s') = vx (camera_position s) /\
    vz (camera_position s') = vz (camera_position s) - INR n * step_length.
Proof.
  intros props delta n s Hs Hsp Hd step_length Hx Hhi Hlo s'.
  assert (Est : stride props delta = step_length).
  { unfold stride, step_length, currentSpeed.
    replace (delta * 15) with (15 * delta) by ring. field. }
  assert (H0 : 0 <= stride props delta).
  { rewrite Est. unfold step_length.
    destruct (Rmin_cases 1 (15 * delta)) as [[? ->] | [? ->]]; nra. }
  rewrite <- Est in Hlo |- *.
  exact (straight_run props delta n s Hs H0 Hx Hhi Hlo).
Qed.

Lemma X17_straight_walk_distance_witness :
  vz (camera_position
        (run_frames (default_props []) (repeat (1 / 60) 60) spawn_walking)) =
  0 - INR 60 * (1 / 10 * 60 * (1 / 60) * Rmin 1 (15 * (1 / 60))).
Proof.
  assert (H60 : INR 60 = 60) by (rewrite INR_IZR_INZ; reflexivity).
  assert (Hn : - 15 <= vz (camera_position spawn_walking)
                       - INR 60 * (speed (default_props []) * 60 * (1 / 60)
                                   * Rmin 1 (15 * (1 / 60)))).
  { rewrite H60, Rmin_right by lra. cbn. lra. }
  assert (Hx : - 15 <= vx (camera_position spawn_walking) <= 15)
    by (cbn; lra).
  assert (Hz : vz (camera_position spawn_walking) <= 15) by (cbn; lra).
  assert (Hsp : 0 <= speed (default_props [])) by (cbn; lra).
  assert (Hd : 0 <= 1 / 60) by lra.
  exact (proj2 (X17_straight_walk_distance (default_props []) (1 / 60) 60
                  spawn_walking spawn_walking_straight Hsp Hd Hx Hz Hn)).
Defined.


(** ** Published flags *)

Lemma flags_frame_move props delta s :
  flags_of (frame_move props delta s) = flags_of s.
Proof. rewrite frame_move_nf. reflexivity. Qed.

Lemma flags_frame_upDown s : flags_of (frame_upDown s) = flags_of s.
Proof. rewrite frame_upDown_nf. reflexivity. Qed.

Lemma flags_frame_gravity props s :
  flags_of (frame_gravity props s) = flags_of s.
Proof. rewrite frame_gravity_nf. reflexivity. Qed.

Lemma flags_frame_bob props delta s :
  flags_of (frame_bob props delta s) = flags_of s.
Proof. rewrite frame_bob_nf. reflexivity. Qed.

Lemma flags_frame_clamp s : flags_of (frame_clamp s) = flags_of s.
Proof. reflexivity. Qed.

Lemma flags_frame_candidate props delta s :
  flags_of (frame_candidate props delta s) =
  (k_forward (keys_of s) || k_backward (keys_of s),
   isOnRoad s (fst (fst (fst (ground_of s)))) (snd (fst (fst (ground_of s))))).
Proof. reflexivity. Qed.

(** X18. What a frame publishes for the audio: the moving flag is
    forward-or-backward held, so turning alone does not count and pushing
    against a wall does; the road flag is the road test at the position
    the camera had when the frame began, not at the position it moved
    to. *)
Theorem X18_published_flags :
  forall (props : Props) (delta : R) (s : Controls),
    isMovingRef (useFrame props delta s) = moveForward s || moveBackward s /\
    isOnRoadRef (useFrame props delta s) =
    isOnRoad s (vx (camera_position s)) (vz (camera_position s)).
Proof.
  intros props delta s.
  assert (H : flags_of (useFrame props delta s) =
              (moveForward s || moveBackward s,
               isOnRoad s (vx (camera_position s))
                        (vz (camera_position s)))).
  { unfold useFrame. cbv zeta.
    rewrite flags_frame_clamp, flags_frame_bob, flags_frame_gravity,
      flags_frame_upDown, flags_frame_move, flags_frame_candidate.
    autorewrite with frame.
    rewrite (isOnRoad_world _ s) by (autorewrite with frame; reflexivity).
    reflexivity. }
  unfold flags_of in H. injection H as H1 H2. auto.
Qed.

(** ** Mouse look *)

Lemma locked_moves_cons p rest m :
  locked_moves (p :: rest) m =
  locked_moves rest (handleMouseMove (fst p) (snd p) 0 0 m).
Proof. reflexivity. Qed.

Lemma drag_moves_cons p rest m :
  drag_moves (p :: rest) m =
  drag_moves rest (handleMouseMove 0 0 (fst p) (snd p) m).
Proof. reflexivity. Qed.

Lemma locked_moves_acc moves :
  forall m,
    isPointerLocked m = true ->
    let m' := locked_moves moves m in
    isPointerLocked m' = true /\
    accumulatedRotationX m' =
    accumulatedRotationX m + sum_snd moves * (2 / 1000) /\
    accumulatedRotationY m' =
    accumulatedRotationY m + sum_fst moves * (2 / 1000) /\
    rafRequested m' = match moves with [] => rafRequested m | _ => true end.
Proof.
  induction moves as [| p rest IH]; intros m Hl.
  - cbn. repeat split; try assumption; ring.
  - rewrite locked_moves_cons.
    set (m1 := handleMouseMove (fst p) (snd p) 0 0 m).
    assert (H1 : m1 =
                 mkMouse true (isDragging m) (lastMouseX m) (lastMouseY m)
                         true
                         (accumulatedRotationX m + snd p * (2 / 1000))
                         (accumulatedRotationY m + fst p * (2 / 1000))).
    { unfold m1, handleMouseMove. rewrite Hl. reflexivity. }
    destruct (IH m1) as (L & X & Y & Rq); [rewrite H1; reflexivity |].
    cbv zeta in L, X, Y, Rq |- *. rewrite L, X, Y, Rq, H1.
    cbn [accumulatedRotationX accumulatedRotationY rafRequested].
    change (sum_snd (p :: rest)) with (snd p + sum_snd rest).
    change (sum_fst (p :: rest)) with (fst p + sum_fst rest).
    split; [reflexivity | split; [ring | split; [ring |]]].
    destruct rest; reflexivity.
Qed.

(** X19. Mouse movement between two animation frames is not lost.  In
    pointer-lock mode, starting with empty accumulators, any non-empty burst
    of mouse moves followed by the requested animation frame turns the
    camera target exactly as one move by the summed movement would: the
    rotation handler runs once, on 0.002 times the sums, and leaves the
    accumulators empty and no frame requested. *)
Theorem X19_mouse_moves_accumulate :
  forall (moves : list (R * R)) (m : Mouse) (s : Controls),
    isPointerLocked m = true ->
    accumulatedRotationX m = 0 -> accumulatedRotationY m = 0 ->
    moves <> [] ->
    let r := animationFrame (locked_moves moves m) s in
    snd r = processRotation (sum_snd moves * (2 / 1000))
                            (sum_fst moves * (2 / 1000)) s /\
    accumulatedRotationX (fst r) = 0 /\
    accumulatedRotationY (fst r) = 0 /\
    rafRequested (fst r) = false /\
    isPointerLocked (fst r) = true.
Proof.
  intros moves m s Hl Hx Hy Hne r.
  destruct (locked_moves_acc moves m Hl) as (L & X & Y & Rq).
  cbv zeta in L, X, Y, Rq. rewrite Hx in X. rewrite Hy in Y.
  assert (Rq' : rafRequested (locked_moves moves m) = true)
    by (rewrite Rq; destruct moves; [congruence | reflexivity]).
  unfold r, animationFrame. rewrite Rq'. cbn [fst snd].
  rewrite X, Y, L.
  replace (0 + sum_snd moves * (2 / 1000)) with (sum_snd moves * (2 / 1000))
    by ring.
  replace (0 + sum_fst moves * (2 / 1000)) with (sum_fst moves * (2 / 1000))
    by ring.
  cbn. repeat split; try reflexivity.
  - destruct (Reqb (sum_snd moves * (2 / 1000)) 0) eqn:E1; cbn;
      [| reflexivity].
    destruct (Reqb (sum_fst moves * (2 / 1000)) 0) eqn:E2; cbn;
      [| reflexivity].
    apply Reqb_true in E1. exact E1.
  - destruct (Reqb (sum_snd moves * (2 / 1000)) 0) eqn:E1; cbn;
      [| reflexivity].
    destruct (Reqb (sum_fst moves * (2 / 1000)) 0) eqn:E2; cbn;
      [| reflexivity].
    apply Reqb_true in E2. exact E2.
Qed.

Lemma X19_mouse_moves_accumulate_witness :
  snd (animationFrame
         (locked_moves [(10, 0); (5, -2); (1, 1)]
            (handlePointerLockChange true Mouse_init))
         grounded_sample) =
  processRotation (sum_snd [(10, 0); (5, -2); (1, 1)] * (2 / 1000))
                  (sum_fst [(10, 0); (5, -2); (1, 1)] * (2 / 1000))
                  grounded_sample.
Proof.
  assert (Hne : [(10, 0); (5, -2); (1, 1)] <> @nil (R * R)) by discriminate.
  exact (proj1 (X19_mouse_moves_accumulate [(10, 0); (5, -2); (1, 1)]
                  (handlePointerLockChange true Mouse_init) grounded_sample
                  eq_refl eq_refl eq_refl Hne)).
Defined.

Lemma Rgtb_true a b : Rgtb a b = true <-> b < a.
Proof. unfold Rgtb. apply Rltb_true. Qed.

Lemma last_default_irrelevant {A} (l : list A) (a d d' : A) :
  last (a :: l) d = last (a :: l) d'.
Proof.
  revert a. induction l as [| b l IH]; intros a; [reflexivity |].
  change (last (b :: l) d = last (b :: l) d'). apply IH.
Qed.

Lemma last_cons_as_default {A} (l : list A) (a d : A) :
  last (a :: l) d = last l a.
Proof.
  destruct l as [| b l]; [reflexivity |].
  change (last (b :: l) d = last (b :: l) a). apply last_default_irrelevant.
Qed.

Lemma drag_moves_spec moves :
  forall m,
    isPointerLocked m = false -> isDragging m = true ->
    big_steps (lastMouseX m) (lastMouseY m) moves ->
    let m' := drag_moves moves m in
    let final := last moves (lastMouseX m, lastMouseY m) in
    lastMouseX m' = fst final /\ lastMouseY m' = snd final /\
    accumulatedRotationY m' =
    accumulatedRotationY m + (fst final - lastMouseX m) * (3 / 1000) /\
    accumulatedRotationX m' =
    accumulatedRotationX m + (snd final - lastMouseY m) * (3 / 1000).
Proof.
  induction moves as [| p rest IH]; intros m Hl Hd Hb.
  - cbn. repeat split; ring.
  - destruct Hb as [Hbig Hrest]. destruct p as [px py]. cbn [fst snd] in *.
    rewrite drag_moves_cons. cbn [fst snd].
    set (m1 := handleMouseMove 0 0 px py m).
    assert (H1 : m1 =
                 mkMouse false true px py true
                   (accumulatedRotationX m + (py - lastMouseY m) * (3 / 1000))
                   (accumulatedRotationY m
                    + (px - lastMouseX m) * (3 / 1000))).
    { unfold m1, handleMouseMove. rewrite Hl, Hd.
      replace (Rgtb (Rabs (px - lastMouseX m)) (1 / 10)
               || Rgtb (Rabs (py - lastMouseY m)) (1 / 10)) with true.
      - reflexivity.
      - symmetry. apply orb_true_iff.
        destruct Hbig as [H | H]; [left | right]; apply Rgtb_true; exact H. }
    destruct (IH m1) as (Lx & Ly & Y & X);
      [rewrite H1; reflexivity | rewrite H1; reflexivity
       | rewrite H1; exact Hrest |].
    cbv zeta in Lx, Ly, Y, X |- *.
    rewrite last_cons_as_default.
    rewrite Lx, Ly, Y, X. rewrite H1.
    cbn [lastMouseX lastMouseY accumulatedRotationX accumulatedRotationY].
    repeat split; ring.
Qed.

(** X20. In drag mode the rotation depends only on where the pointer ends
    up: when every step of a drag moves by more than a tenth of a pixel in
    [x] or in [y], the accumulated yaw and pitch grow by 0.003 times the net
    pointer displacement from the start of the drag to the last event,
    however the path is cut into mouse events. *)
Theorem X20_drag_rotation_telescopes :
  forall (moves : list (R * R)) (m : Mouse),
    isPointerLocked m = false -> isDragging m = true ->
    big_steps (lastMouseX m) (lastMouseY m) moves ->
    let m' := drag_moves moves m in
    let final := last moves (lastMouseX m, lastMouseY m) in
    lastMouseX m' = fst final /\ lastMouseY m' = snd final /\
    accumulatedRotationY m' =
    accumulatedRotationY m + (fst final - lastMouseX m) * (3 / 1000) /\
    accumulatedRotationX m' =
    accumulatedRotationX m + (snd final - lastMouseY m) * (3 / 1000).
Proof. intros moves m. apply drag_moves_spec. Qed.

Lemma Rabs_big a : 1 / 10 < a -> 1 / 10 < Rabs a.
Proof. intros H. rewrite Rabs_right; lra. Qed.

Lemma X20_drag_rotation_telescopes_witness :
  accumulatedRotationY
    (drag_moves [(101, 50); (103, 50); (110, 57)]
       (handleMouseDown 0 100 50 Mouse_init)) =
  0 + (110 - 100) * (3 / 1000).
Proof.
  assert (Hb : big_steps 100 50 [(101, 50); (103, 50); (110, 57)]).
  { cbn. repeat split; try (left; apply Rabs_big; lra). }
  exact (proj1 (proj2 (proj2
           (X20_drag_rotation_telescopes [(101, 50); (103, 50); (110, 57)]
              (handleMouseDown 0 100 50 Mouse_init) eq_refl eq_refl Hb)))).
Defined.




(** ** The minimap *)

Lemma canvas_to_world_to_canvas sz px :
  0 < sz -> 0 <= px <= sz ->
  (Rmax (-15) (Rmin 15 (px / (sz / 30) - 15)) + 15) * (sz / 30) = px.
Proof.
  intros Hs [H0 H1].
  assert (Hq : px / (sz / 30) = 30 * (px / sz)) by (field; lra).
  assert (Hi : 0 < / sz) by (apply Rinv_0_lt_compat; exact Hs).
  assert (Hr : 0 <= px / sz <= 1).
  { unfold Rdiv. split; [nra |].
    replace 1 with (sz * / sz) by (field; lra). nra. }
  rewrite clamp_id by (rewrite Hq; lra).
  field. lra.
Qed.

(** X22. The marker lands where the player clicked.  In teleport mode, a
    click inside a minimap of positive size teleports the player to the
    world position whose marker is drawn at the clicked canvas point, kept
    3 pixels inside the canvas edge by the marker's own clamp. *)
Theorem X22_minimap_click_marker_round_trip :
  forall (props : Props) (m : Minimap) (rect : DOMRect)
         (clientX clientY : R) (s : Controls),
    isTeleportMode m = true -> hasCamera m = true ->
    canvasRect m = Some rect ->
    0 < size m ->
    0 <= clientX - left rect <= size m ->
    0 <= clientY - top rect <= size m ->
    let r := handleCanvasClick props m clientX clientY s in
    marker_position (fst r) (snd r) =
    (Rmax 3 (Rmin (size m - 3) (clientX - left rect)),
     Rmax 3 (Rmin (size m - 3) (clientY - top rect))).
Proof.
  intros props m rect cx cy s Hmode Hcam Hrect Hs Hx Hy r.
  unfold r, handleCanvasClick. rewrite Hmode, Hcam, Hrect. cbn.
  unfold marker_position. cbn.
  rewrite (canvas_to_world_to_canvas (size m) (cx - left rect) Hs Hx).
  rewrite (canvas_to_world_to_canvas (size m) (cy - top rect) Hs Hy).
  reflexivity.
Qed.

Lemma X22_minimap_click_marker_round_trip_witness :
  marker_position
    (fst (handleCanvasClick (default_props []) sample_minimap 110 70
            (mount (default_props []))))
    (snd (handleCanvasClick (default_props []) sample_minimap 110 70
            (mount (default_props [])))) =
  (Rmax 3 (Rmin (200 - 3) (110 - 10)), Rmax 3 (Rmin (200 - 3) (70 - 20))).
Proof.
  assert (Hs : 0 < size sample_minimap) by (cbn; lra).
  assert (Hx : 0 <= 110 - left (mkDOMRect 10 20) <= size sample_minimap)
    by (cbn; lra).
  assert (Hy : 0 <= 70 - top (mkDOMRect 10 20) <= size sample_minimap)
    by (cbn; lra).
  exact (X22_minimap_click_marker_round_trip (default_props [])
           sample_minimap (mkDOMRect 10 20) 110 70
           (mount (default_props [])) eq_refl eq_refl eq_refl Hs Hx Hy).
Defined.

(** X23. One teleport per arming.  A click on a minimap that is not in
    teleport mode changes nothing; a click that teleports switches the mode
    off; so of two clicks in a row the second never moves the player.
    Pressing T twice restores the mode. *)
Theorem X23_teleport_is_one_shot :
  forall (props : Props) (m : Minimap) (x1 y1 x2 y2 : R) (s : Controls),
    let r1 := handleCanvasClick props m x1 y1 s in
    (isTeleportMode m = false -> r1 = (m, s)) /\
    (snd r1 <> s -> isTeleportMode (fst r1) = false) /\
    snd (handleCanvasClick props (fst r1) x2 y2 (snd r1)) = snd r1 /\
    isTeleportMode
      (Minimap_handleKeyPress "t" (Minimap_handleKeyPress "T" m)) =
    isTeleportMode m.
Proof.
  intros props m x1 y1 x2 y2 s r1. unfold r1, handleCanvasClick.
  destruct (isTeleportMode m) eqn:Hm, (hasCamera m) eqn:Hc;
    destruct (canvasRect m) as [rect |] eqn:Hr; cbn;
    rewrite ?Hm, ?Hc, ?Hr; cbn;
    repeat split; try reflexivity; try congruence;
    try (intros H; exfalso; apply H; reflexivity).
Qed.

(** ** Click-to-select, for every click *)

Lemma collect_landMeshes_In scene o :
  In o (collect_landMeshes scene) <-> In o scene /\ pickable o = true.
Proof. unfold collect_landMeshes, pickable. apply filter_In. Qed.

(** X24. Whatever a click reports is selectable: the handler reports a
    land only for a left click with a callback, and then the land is one of
    the component's lands, is not a road, and its id is the [landId] of a
    visible mesh of the scene that the click ray meets within 50 units. *)
Theorem X24_reported_land_is_selectable :
  forall (props : Props) (hasCallback : bool) (button : Z)
         (scene : list SceneObject) (s : Controls) (land : Land),
    snd (handleClick props hasCallback button scene s) = Some land ->
    button = 0%Z /\ hasCallback = true /\
    In land (lands props) /\ zone land <> road /\
    exists o d,
      In o scene /\ isMesh o = true /\ visible o = true /\
      landId o = Some (id land) /\
      In d (ray_hits o) /\ 0 <= d <= 50.
Proof.
  intros props cb button scene s land. unfold handleClick.
  destruct (button =? 0)%Z eqn:Eb; cbn [negb]; [| discriminate].
  destruct cb; cbn [negb]; [| discriminate].
  destruct (collect_landMeshes scene) as [| m0 ms] eqn:Ec; [discriminate |].
  rewrite <- Ec.
  destruct (intersectObjects (collect_landMeshes scene)) as [| h rest] eqn:Ei;
    [discriminate |].
  destruct (truthy (landId (object h))) eqn:Et; [| discriminate].
  destruct (landId (object h)) as [i |] eqn:El; [| discriminate].
  destruct (find_land (lands props) i) as [l |] eqn:Ef; [| discriminate].
  destruct (negb (ZoneType_eqb (zone l) road)) eqn:Ez; [| discriminate].
  cbn. intros H. injection H as <-.
  apply Z.eqb_eq in Eb.
  unfold find_land in Ef. apply find_some in Ef. destruct Ef as [Hin Hid].
  apply String.eqb_eq in Hid.
  assert (Hh : In h (intersectObjects (collect_landMeshes scene)))
    by (rewrite Ei; left; reflexivity).
  apply In_intersectObjects in Hh. destruct Hh as (Ho & Hd & Hr).
  apply collect_landMeshes_In in Ho. destruct Ho as [Hs Hp].
  unfold pickable in Hp. apply andb_true_iff in Hp. destruct Hp as [Hp Hv].
  apply andb_true_iff in Hp. destruct Hp as [Hm _].
  split; [exact Eb | split; [reflexivity | split; [exact Hin | split]]].
  - intros Hroad. rewrite Hroad in Ez. discriminate.
  - exists (object h), (distance h). rewrite Hid, El.
    repeat split; try assumption; apply Hr.
Qed.

Lemma X24_reported_land_is_selectable_witness :
  zone park_land <> road.
Proof.
  assert (H : snd (handleClick two_tile_props true 0 [park_tile]
                     (mount two_tile_props)) = Some park_land).
  { unfold handleClick, intersectObjects, raycast, raycaster_near,
      raycaster_far, Rgtb. cbn.
    replace (Rltb 5 0) with false by (symmetry; apply Rltb_false; lra).
    replace (Rltb 50 5) with false by (symmetry; apply Rltb_false; lra).
    reflexivity. }
  exact (proj1 (proj2 (proj2 (proj2
           (X24_reported_land_is_selectable two_tile_props true 0
              [park_tile] (mount two_tile_props) park_land H))))).
Defined.

Lemma collect_landMeshes_skip scene1 o scene2 :
  pickable o = false ->
  collect_landMeshes (scene1 ++ o :: scene2) =
  collect_landMeshes (scene1 ++ scene2).
Proof.
  intros H. unfold collect_landMeshes. rewrite !filter_app. cbn.
  unfold pickable in H. rewrite H. reflexivity.
Qed.

(** X25. Picking looks through everything it does not collect: an object
    that is not a mesh, carries no [landId] or is invisible can be added
    to or removed from the scene, anywhere and however near the camera,
    without changing what a click reports. *)
Theorem X25_unpickable_objects_are_transparent :
  forall (props : Props) (hasCallback : bool) (button : Z)
         (scene1 scene2 : list SceneObject) (o : SceneObject) (s : Controls),
    isMesh o && truthy (landId o) && visible o = false ->
    handleClick props hasCallback button (scene1 ++ o :: scene2) s =
    handleClick props hasCallback button (scene1 ++ scene2) s.
Proof.
  intros props cb button scene1 scene2 o s H.
  unfold handleClick. rewrite (collect_landMeshes_skip scene1 o scene2 H).
  reflexivity.
Qed.

Lemma X25_unpickable_objects_are_transparent_witness :
  handleClick two_tile_props true 0
    ([] ++ mkSceneObject true None true [1] :: [park_tile])
    (mount two_tile_props) =
  handleClick two_tile_props true 0 ([] ++ [park_tile])
    (mount two_tile_props).
Proof.
  exact (X25_unpickable_objects_are_transparent two_tile_props true 0 []
           [park_tile] (mkSceneObject true None true [1])
           (mount two_tile_props) eq_refl).
Defined.

(** ** Jump eligibility from the spawn *)

Lemma vertical_step_no_gravity props d k w :
  enableGravity props = false ->
  v_canJump (vertical_step props d k w) = v_canJump w /\
  v_velocity (vertical_step props d k w) = v_velocity w.
Proof.
  intros Hg. unfold vertical_step, v_bobbing, v_gravity. rewrite Hg.
  destruct (_ && _); cbn; auto.
Qed.

Lemma no_gravity_step props e s :
  enableGravity props = false -> not_teleport e = true ->
  canJump s = false ->
  canJump (step props e s) = false /\
  vy (velocity (step props e s)) = vy (velocity s).
Proof.
  intros Hg He Hc. destruct e as [d | code | code | ax ay | tx tz];
    cbn [step]; try discriminate.
  - change (v_canJump (vertical_of (useFrame props d s)) = false /\
            v_velocity (vertical_of (useFrame props d s)) = vy (velocity s)).
    rewrite vertical_useFrame.
    destruct (vertical_step_no_gravity props d (keys_of s) (vertical_of s) Hg)
      as [-> ->]. auto.
  - destruct code; cbn; rewrite ?Hc; auto.
  - destruct code; cbn; auto.
  - unfold processRotation. destruct (_ || _); cbn; auto.
Qed.

(** X26. With gravity disabled and no teleport, the player can never jump:
    after the mount effect jump eligibility is off, only a landing frame or
    a teleport turns it on, and without gravity no frame lands.  Through
    any sequence of frames, key events and mouse rotations Space does
    nothing and the vertical velocity stays zero. *)
Theorem X26_no_jump_without_gravity_or_teleport :
  forall (props : Props) (es : list Event),
    enableGravity props = false ->
    forallb not_teleport es = true ->
    let s := run props es (mount props) in
    canJump s = false /\ vy (velocity s) = 0 /\
    handleKeyDown Space s = s.
Proof.
  intros props es Hg Hes.
  assert (H : forall s,
             canJump s = false ->
             canJump (run props es s) = false /\
             vy (velocity (run props es s)) = vy (velocity s)).
  { induction es as [| e es IH]; intros s Hc; [cbn; auto |].
    cbn in Hes. apply andb_true_iff in Hes. destruct Hes as [He Hes].
    destruct (no_gravity_step props e s Hg He Hc) as [Hc' Hv'].
    destruct (IH Hes (step props e s) Hc') as [Hc'' Hv''].
    cbn [run]. rewrite Hc'', Hv'', Hv'. auto. }
  destruct (H (mount props) eq_refl) as [Hc Hv].
  cbv zeta. rewrite Hc, Hv. repeat split; try reflexivity.
  cbv beta iota delta [handleKeyDown]. rewrite Hc. reflexivity.
Qed.

Lemma X26_no_jump_without_gravity_or_teleport_witness :
  canJump
    (run (mkProps [] (1 / 10) (16 / 10) false true true)
       [Frame (1 / 60); KeyDown Space; Frame (1 / 60)]
       (mount (mkProps [] (1 / 10) (16 / 10) false true true))) = false.
Proof.
  exact (proj1 (X26_no_jump_without_gravity_or_teleport
                  (mkProps [] (1 / 10) (16 / 10) false true true)
                  [Frame (1 / 60); KeyDown Space; Frame (1 / 60)]
                  eq_refl eq_refl)).
Defined.

(** X27. With gravity enabled the spawn is not yet on the ground: Space
    does nothing right after the mount effect, and the first frame, of any
    duration, puts the player at rest on the ground and makes the jump
    available. *)
Theorem X27_first_frame_grounds_the_player :
  forall (props : Props) (delta : R),
    enableGravity props = true ->
    handleKeyDown Space (mount props) = mount props /\
    grounded props (useFrame props delta (mount props)) /\
    vy (camera_position (useFrame props delta (mount props))) =
    0 + playerHeight props + 0.
Proof.
  intros props delta Hg. split; [reflexivity |].
  assert (Hk : keys_still (keys_of (mount props)))
    by (repeat split; reflexivity).
  assert (Hv : vertical_of (useFrame props delta (mount props)) =
               mkVertical (0 + playerHeight props + 0) 0 true 0
                          (0 + playerHeight props + 0) 0).
  { rewrite vertical_useFrame, (vertical_step_still props delta _ _ Hk).
    apply landing_step; auto; cbn; lra. }
  unfold grounded.
  change (canJump (useFrame props delta (mount props)))
    with (v_canJump (vertical_of (useFrame props delta (mount props)))).
  change (vy (velocity (useFrame props delta (mount props))))
    with (v_velocity (vertical_of (useFrame props delta (mount props)))).
  change (vy (camera_position (useFrame props delta (mount props))))
    with (v_y (vertical_of (useFrame props delta (mount props)))).
  change (cameraHeightOffset (useFrame props delta (mount props)))
    with (v_offset (vertical_of (useFrame props delta (mount props)))).
  rewrite Hv. cbn. auto.
Qed.

Lemma X27_first_frame_grounds_the_player_witness :
  grounded (default_props [])
    (useFrame (default_props []) (1 / 60) (mount (default_props []))).
Proof.
  exact (proj1 (proj2 (X27_first_frame_grounds_the_player (default_props [])
                         (1 / 60) eq_refl))).
Defined.


(** ** Standing still *)

Lemma move_direction_idle k q :
  k_forward k = false -> k_backward k = false ->
  move_direction k q = mkVector3 0 0 0.
Proof.
  intros Hf Hb. unfold move_direction, normalize, length, Vector3_zero.
  rewrite Hf, Hb. cbn.
  replace (0 * 0 + 0 * 0 + 0 * 0) with 0 by ring.
  rewrite sqrt_0.
  replace (Reqb 0 0) with true by (symmetry; apply Reqb_true; reflexivity).
  unfold applyQuaternion. cbn. f_equal; field.
Qed.

Lemma idle_useFrame props delta s :
  moveForward s = false -> moveBackward s = false ->
  synced s -> in_bounds (camera_position s) ->
  let s' := useFrame props delta s in
  (synced s' /\ in_bounds (camera_position s')) /\
  vx (camera_position s') = vx (camera_position s) /\
  vz (camera_position s') = vz (camera_position s).
Proof.
  intros Hf Hb [Sx Sz] Hin s'.
  assert (Hmv : moveVector props delta s = mkVector3 0 0 0).
  { unfold moveVector. rewrite (move_direction_idle (keys_of s) _ Hf Hb).
    unfold multiplyScalar. cbn. f_equal; ring. }
  destruct (collides props delta s) eqn:Ec.
  - destruct (useFrame_rejected props delta s Hin Ec) as (Hx & Hz & Hc & _).
    fold s' in Hx, Hz, Hc.
    repeat split; try assumption.
    + rewrite Hc. symmetry. exact Hx.
    + rewrite Hc. symmetry. exact Hz.
    + rewrite Hx. apply Hin.
    + rewrite Hz. apply Hin.
  - destruct (pre_clamp_free props delta s Ec) as (Cx & Cz & Cc & _).
    rewrite candidate_eq, Hmv in Cx, Cz, Cc.
    assert (Ex : vx (camera_position (pre_clamp props delta s)) =
                 vx (camera_position s))
      by (rewrite Cx; cbn; rewrite Sx; ring).
    assert (Ez : vz (camera_position (pre_clamp props delta s)) =
                 vz (camera_position s))
      by (rewrite Cz; cbn; rewrite Sz; ring).
    destruct (frame_clamp_in_bounds_id (pre_clamp props delta s)) as [Fx Fz].
    { unfold in_bounds. rewrite Ex, Ez. exact Hin. }
    destruct (frame_clamp_ground (pre_clamp props delta s))
      as (_ & _ & Fc & _).
    rewrite <- useFrame_pre_clamp in Fx, Fz, Fc. fold s' in Fx, Fz, Fc.
    assert (Hx : vx (camera_position s') = vx (camera_position s))
      by (rewrite Fx; exact Ex).
    assert (Hz : vz (camera_position s') = vz (camera_position s))
      by (rewrite Fz; exact Ez).
    repeat split; try assumption.
    + rewrite Fc, Cc, Hx. cbn. rewrite Sx. ring.
    + rewrite Fc, Cc, Hz. cbn. rewrite Sz. ring.
    + rewrite Hx. apply Hin.
    + rewrite Hz. apply Hin.
Qed.

Lemma keys_useFrame_move props delta s :
  moveForward (useFrame props delta s) = moveForward s /\
  moveBackward (useFrame props delta s) = moveBackward s.
Proof.
  pose proof (keys_useFrame props delta s) as H. unfold keys_of in H.
  injection H as Hf Hb _ _ _ _. auto.
Qed.

(** X28. Without a translation key the player stays put.  From a position
    inside the world bounds with the smoothed position on the camera,
    frames in which neither forward nor backward is held never change the
    horizontal camera position, whatever else happens in them: turning,
    height keys, gravity, jumps, or standing inside a collision box. *)
Theorem X28_no_translation_key_no_horizontal_motion :
  forall (props : Props) (deltas : list R) (s : Controls),
    moveForward s = false -> moveBackward s = false ->
    synced s -> in_bounds (camera_position s) ->
    vx (camera_position (run_frames props deltas s)) = vx (camera_position s)
    /\
    vz (camera_position (run_frames props deltas s)) = vz (camera_position s).
Proof.
  intros props deltas.
  induction deltas as [| d ds IH]; intros s Hf Hb Hs Hin; [cbn; auto |].
  destruct (idle_useFrame props d s Hf Hb Hs Hin) as ((Hs' & Hin') & Hx & Hz).
  destruct (keys_useFrame_move props d s) as [Kf Kb].
  destruct (IH (useFrame props d s)) as [Rx Rz]; try assumption;
    try (rewrite ?Kf, ?Kb; assumption).
  cbn [run_frames]. rewrite Rx, Rz. auto.
Qed.

Lemma grounded_sample_in_bounds : in_bounds (camera_position grounded_sample).
Proof. split; cbn; apply Rabs_le; lra. Qed.

Lemma X28_no_translation_key_no_horizontal_motion_witness :
  vx (camera_position
        (run_frames (default_props []) [1 / 60; 1 / 30]
           (handleKeyDown KeyA grounded_sample))) =
  vx (camera_position (handleKeyDown KeyA grounded_sample)).
Proof.
  exact (proj1 (X28_no_translation_key_no_horizontal_motion
                  (default_props []) [1 / 60; 1 / 30]
                  (handleKeyDown KeyA grounded_sample) eq_refl eq_refl
                  (conj eq_refl eq_refl) grounded_sample_in_bounds)).
Defined.

(** ** Vertical motion is counted in frames *)

(** X29. Gravity, jumps and the height keys do not use the frame duration.
    With neither forward nor backward held, the camera height, the vertical
    velocity, jump eligibility and the height offset after a run of frames
    depend on how many frames ran and not on how long they lasted. *)
Theorem X29_vertical_motion_ignores_frame_duration :
  forall (props : Props) (deltas deltas' : list R) (s : Controls),
    moveForward s = false -> moveBackward s = false ->
    List.length deltas = List.length deltas' ->
    let a := run_frames props deltas s in
    let b := run_frames props deltas' s in
    vy (camera_position a) = vy (camera_position b) /\
    vy (velocity a) = vy (velocity b) /\
    canJump a = canJump b /\
    cameraHeightOffset a = cameraHeightOffset b.
Proof.
  intros props deltas deltas' s Hf Hb Hlen a b.
  assert (H : vertical_of a = vertical_of b).
  { unfold a, b. rewrite !vertical_run_frames.
    rewrite !(vertical_run_not_moving props _ (keys_of s)) by assumption.
    rewrite Hlen. reflexivity. }
  change (v_y (vertical_of a) = v_y (vertical_of b) /\
          v_velocity (vertical_of a) = v_velocity (vertical_of b) /\
          v_canJump (vertical_of a) = v_canJump (vertical_of b) /\
          v_offset (vertical_of a) = v_offset (vertical_of b)).
  rewrite H. auto.
Qed.

Lemma X29_vertical_motion_ignores_frame_duration_witness :
  vy (camera_position
        (run_frames (default_props []) [1 / 30; 1 / 30]
           (handleKeyDown Space grounded_sample))) =
  vy (camera_position
        (run_frames (default_props []) [1 / 240; 1 / 240]
           (handleKeyDown Space grounded_sample))).
Proof.
  exact (proj1 (X29_vertical_motion_ignores_frame_duration
                  (default_props []) [1 / 30; 1 / 30] [1 / 240; 1 / 240]
                  (handleKeyDown Space grounded_sample)
                  eq_refl eq_refl eq_refl)).
Defined.

Lemma jump_arc_iter props k n off b t :
  enableGravity props = true -> keys_still k ->
  (n <= 29)%nat ->
  vertical_iter props k n
    (mkVertical (0 + playerHeight props + off) (15 / 100) false off b t) =
  match n with
  | O => mkVertical (0 + playerHeight props + off) (15 / 100) false off b t
  | S _ =>
      mkVertical
        (0 + playerHeight props + off + INR n * (29 - INR n) / 200)
        (15 / 100 - INR n / 100) false off
        (0 + playerHeight props + off) 0
  end.
Proof.
  intros Hg Hk.
  assert (Hsplit : forall m w,
             vertical_iter props k (S m) w =
             vertical_step props 0 k (vertical_iter props k m w)).
  { induction m as [| m IHm]; intros w; [reflexivity |].
    change (vertical_iter props k (S (S m)) w)
      with (vertical_iter props k (S m) (vertical_step props 0 k w)).
    rewrite IHm. reflexivity. }
  induction n as [| n IH]; intros Hn; [reflexivity |].
  rewrite Hsplit, IH by lia.
  assert (Hb : INR n <= 28).
  { replace 28 with (INR 28) by (cbn; lra). apply le_INR. lia. }
  destruct n as [| n].
  - rewrite airborne_step by (auto; intros [? ?]; lra).
    cbn [INR]. f_equal; lra.
  - cbv iota. rewrite (S_INR (S n)).
    assert (H1 : 1 <= INR (S n))
      by (rewrite S_INR; pose proof (pos_INR n); lra).
    clear IH. generalize dependent (INR (S n)). intros x Hx H1.
    rewrite airborne_step by (auto; intros [? ?]; nra).
    f_equal; lra.
Qed.

(** X30. The jump is a parabola in the frame count.  With gravity enabled
    and no translation or height key held, [n] frames (at most 29) after a
    jump from rest the camera is [n * (29 - n) / 200] above the ground
    target, with vertical velocity [0.15 - n / 100] and no jump
    eligibility: the apex is 1.05 units, reached after 14 frames and held
    for one more, whatever the frame rate. *)
Theorem X30_jump_parabola :
  forall (props : Props) (deltas : list R) (s : Controls),
    enableGravity props = true ->
    keys_still (keys_of s) ->
    grounded props s ->
    (List.length deltas <= 29)%nat ->
    let n := INR (List.length deltas) in
    let s' := run_frames props deltas (handleKeyDown Space s) in
    vy (camera_position s') =
    0 + playerHeight props + cameraHeightOffset s + n * (29 - n) / 200 /\
    vy (velocity s') = 15 / 100 - n / 100 /\
    canJump s' = false.
Proof.
  intros props deltas s Hg Hk (Hc & Hv & Hy) Hlen n s'.
  assert (Hs' : vertical_of s' =
                vertical_iter props (keys_of s) (List.length deltas)
                  (mkVertical
                     (0 + playerHeight props + cameraHeightOffset s)
                     (15 / 100) false (cameraHeightOffset s)
                     (baseHeightRef s) (bobTime s))).
  { unfold s'. rewrite vertical_run_frames, jump_keys, (jump_vertical s Hc).
    rewrite (vertical_run_still props _ _ _ Hk), Hv, Hy.
    replace (0 + 15 / 100) with (15 / 100) by lra. reflexivity. }
  rewrite (jump_arc_iter props _ _ _ _ _ Hg Hk Hlen) in Hs'.
  change (v_y (vertical_of s') =
          0 + playerHeight props + cameraHeightOffset s + n * (29 - n) / 200
          /\ v_velocity (vertical_of s') = 15 / 100 - n / 100 /\
          v_canJump (vertical_of s') = false).
  rewrite Hs'. subst n. destruct (List.length deltas); cbn [INR v_y
    v_velocity v_canJump]; repeat split; try reflexivity; lra.
Qed.

Lemma X30_jump_parabola_witness :
  vy (camera_position
        (run_frames (default_props []) (repeat (1 / 60) 14)
           (handleKeyDown Space grounded_sample))) =
  0 + playerHeight (default_props []) + cameraHeightOffset grounded_sample
  + INR 14 * (29 - INR 14) / 200.
Proof.
  assert (Hlen : (List.length (repeat (1 / 60) 14) <= 29)%nat)
    by (rewrite repeat_length; lia).
  pose proof (X30_jump_parabola (default_props []) (repeat (1 / 60) 14)
                grounded_sample eq_refl
                (conj eq_refl (conj eq_refl (conj eq_refl eq_refl)))
                (conj eq_refl (conj eq_refl eq_refl)) Hlen) as H.
  cbv zeta in H. rewrite repeat_length in H. exact (proj1 H).
Defined.
